(** * ebaplanner: the event-planning backend, embedded and verified

    The repository holds three successive revisions of one Express server
    and a script that moves the data from the first to the second:

    - the spreadsheet revision (Google Sheets backend, [Module Sheets]):
      [parseAndFormatDate], the sorted event list, row append, row
      update and row deletion, the password check;
    - the document-store revision (Firestore and Cloud Storage,
      [Module Firestore]): [uploadToGcs], [deleteFromGcs], the event
      list and the create, update and delete handlers, the password
      check;
    - the session revision ([Module Session]): the same handlers behind
      the [isAuthenticated] middleware, image replacement on update, the
      login and status endpoints;
    - the import script ([Module Migrate]): [parseSheetDate] and the
      batched [importData].

    JavaScript strings are sequences of UTF-16 code units, values are
    dynamically typed, handlers thread a mutable world (document store,
    blob store, session store, console) and may throw.  All of this is
    kept explicit below. *)

From Stdlib Require Import ZArith NArith Lia Bool DecimalPos.
From Stdlib Require Import Sorting.Sorted Sorting.Permutation.
From stdpp Require Import base option list strings gmap.

Local Open Scope N_scope.

(** ** JavaScript strings *)

(** A string is its list of code units; [js] turns an ASCII literal into
    one. *)
Definition jsstring : Type := list N.

Fixpoint js (s : string) : jsstring :=
  match s with
  | EmptyString => []
  | String c r => Ascii.N_of_ascii c :: js r
  end.

Definition isDigit (c : N) : bool := (48 <=? c) && (c <=? 57).

(** WhiteSpace and LineTerminator code units, as [String.prototype.trim]
    and [parseInt] strip them. *)
Definition isWhiteSpace (c : N) : bool :=
  (c =? 9) || (c =? 10) || (c =? 11) || (c =? 12) || (c =? 13) ||
  (c =? 32) || (c =? 160) || (c =? 5760) ||
  ((8192 <=? c) && (c <=? 8202)) ||
  (c =? 8232) || (c =? 8233) || (c =? 8239) || (c =? 8287) ||
  (c =? 12288) || (c =? 65279).

Fixpoint dropWhile {A} (p : A -> bool) (l : list A) : list A :=
  match l with
  | [] => []
  | x :: r => if p x then dropWhile p r else l
  end.

Fixpoint takeWhile {A} (p : A -> bool) (l : list A) : list A :=
  match l with
  | [] => []
  | x :: r => if p x then x :: takeWhile p r else []
  end.

(** [s.trim()] *)
Definition trim (s : jsstring) : jsstring :=
  rev (dropWhile isWhiteSpace (rev (dropWhile isWhiteSpace s))).

(** [s.startsWith(p)] *)
Fixpoint startsWith (s p : jsstring) : bool :=
  match p, s with
  | [], _ => true
  | _ :: _, [] => false
  | c :: p', x :: s' => (x =? c) && startsWith s' p'
  end.

(** [s.substring(n)] for [0 <= n] *)
Definition substring (s : jsstring) (n : nat) : jsstring := drop n s.

(** [s.slice(-k)]: the last [k] code units (the whole string when it is
    shorter). *)
Definition slice_last (k : nat) (s : jsstring) : jsstring :=
  drop (length s - k)%nat s.

(** [s.replace(/ /g, '_')] *)
Definition replace_spaces (s : jsstring) : jsstring :=
  (fun c => if c =? 32 then 95 else c) <$> s.

(** The [<] of two strings: code units compared from the left, a proper
    prefix is smaller. *)
Fixpoint str_compare (a b : jsstring) : comparison :=
  match a, b with
  | [], [] => Eq
  | [], _ :: _ => Lt
  | _ :: _, [] => Gt
  | x :: a', y :: b' =>
      match x ?= y with
      | Eq => str_compare a' b'
      | c => c
      end
  end.

Definition str_lt (a b : jsstring) : bool :=
  match str_compare a b with Lt => true | _ => false end.

Definition str_gt (a b : jsstring) : bool :=
  match str_compare a b with Gt => true | _ => false end.

(** ** Numbers and their decimal text *)

Fixpoint uint_chars (u : Decimal.uint) : jsstring :=
  match u with
  | Decimal.Nil => []
  | Decimal.D0 r => 48 :: uint_chars r
  | Decimal.D1 r => 49 :: uint_chars r
  | Decimal.D2 r => 50 :: uint_chars r
  | Decimal.D3 r => 51 :: uint_chars r
  | Decimal.D4 r => 52 :: uint_chars r
  | Decimal.D5 r => 53 :: uint_chars r
  | Decimal.D6 r => 54 :: uint_chars r
  | Decimal.D7 r => 55 :: uint_chars r
  | Decimal.D8 r => 56 :: uint_chars r
  | Decimal.D9 r => 57 :: uint_chars r
  end.

(** [String(z)] of an integral number (below 1e21 in magnitude, where
    JavaScript still prints every digit). *)
Definition Number_toString (z : Z) : jsstring :=
  match z with
  | Z0 => [48]
  | Zpos p => uint_chars (Pos.to_uint p)
  | Zneg p => 45 :: uint_chars (Pos.to_uint p)
  end.

Definition digit_value (c : N) : Z := Z.of_N (c - 48).

(** [parseInt(s, 10)]: leading white space and one sign are skipped, the
    longest run of digits is read, [None] stands for NaN. *)
Definition parseInt (s : jsstring) : option Z :=
  let s1 := dropWhile isWhiteSpace s in
  let '(sign, s2) :=
    match s1 with
    | 45 :: r => ((-1)%Z, r)
    | 43 :: r => (1%Z, r)
    | _ => (1%Z, s1)
    end in
  match takeWhile isDigit s2 with
  | [] => None
  | ds => Some (sign * fold_left (fun acc c => 10 * acc + digit_value c) ds 0)%Z
  end.

(** Comparisons of a number that may be NaN with a constant: every
    comparison with NaN is false. *)
Definition num_gt (x : option Z) (c : Z) : bool :=
  match x with Some v => (c <? v)%Z | None => false end.
Definition num_ge (x : option Z) (c : Z) : bool :=
  match x with Some v => (c <=? v)%Z | None => false end.
Definition num_le (x : option Z) (c : Z) : bool :=
  match x with Some v => (v <=? c)%Z | None => false end.

(** [`${x}`] and ['0' + x] of a number that may be NaN *)
Definition num_text (x : option Z) : jsstring :=
  match x with Some v => Number_toString v | None => js "NaN" end.

(** ** Regular expressions

    The fragment the date patterns use: anchors, a literal code unit,
    [\d], concatenation, greedy bounded repetition and (unnested)
    capturing groups.  [rmatch] is the usual backtracking matcher in
    continuation-passing style; a group appends what it consumed to the
    captures, so captures come out in the order of the groups. *)

Inductive regex : Type :=
| RBol
| REol
| RChar (c : N)
| RDigit
| RSeq (r1 r2 : regex)
| RRep (r : regex) (lo hi : nat)
| RGroup (r : regex).

Definition mcont : Type := nat -> jsstring -> list jsstring -> option (list jsstring).

Fixpoint rmatch (r : regex) (i : nat) (s : jsstring) (caps : list jsstring)
    (k : mcont) {struct r} : option (list jsstring) :=
  match r with
  | RBol => if (i =? 0)%nat then k i s caps else None
  | REol => match s with [] => k i s caps | _ :: _ => None end
  | RChar c =>
      match s with
      | x :: s' => if x =? c then k (S i) s' caps else None
      | [] => None
      end
  | RDigit =>
      match s with
      | x :: s' => if isDigit x then k (S i) s' caps else None
      | [] => None
      end
  | RSeq r1 r2 =>
      rmatch r1 i s caps (fun i' s' caps' => rmatch r2 i' s' caps' k)
  | RGroup r1 =>
      rmatch r1 i s caps
        (fun i' s' caps' => k i' s' (caps' ++ [take (i' - i) s]))
  | RRep r1 lo hi =>
      (fix rep (lo hi : nat) (i : nat) (s : jsstring) (caps : list jsstring)
           {struct hi} : option (list jsstring) :=
         match hi with
         | O => match lo with O => k i s caps | S _ => None end
         | S hi' =>
             match rmatch r1 i s caps
                     (fun i' s' caps' => rep (Nat.pred lo) hi' i' s' caps') with
             | Some res => Some res
             | None => match lo with O => k i s caps | S _ => None end
             end
         end) lo hi i s caps
  end.

(** One attempt at position [i] of the subject, [s] being what is left of
    it there; the result is the array [match] returns: the whole match,
    then the captures. *)
Definition match_at (r : regex) (i : nat) (s : jsstring)
  : option (list jsstring) :=
  rmatch r i s []
    (fun i' _ caps => Some (take (i' - i) s :: caps)).

(** [subject.match(r)] for a regex without the [g] flag: the first
    position at which the pattern matches. *)
Fixpoint match_from (r : regex) (i : nat) (s : jsstring)
  : option (list jsstring) :=
  match match_at r i s with
  | Some res => Some res
  | None =>
      match s with
      | [] => None
      | _ :: s' => match_from r (S i) s'
      end
  end.

Definition String_match (s : jsstring) (r : regex) : option (list jsstring) :=
  match_from r 0%nat s.

(** [parts[n]] *)
Definition group (parts : list jsstring) (n : nat) : jsstring :=
  nth n parts [].

Definition RDigits (lo hi : nat) : regex := RGroup (RRep RDigit lo hi).

(** [/^(\d{1,2})\.(\d{1,2})\.(\d{4})$/] *)
Definition re_dmy : regex :=
  RSeq RBol (RSeq (RDigits 1 2) (RSeq (RChar 46) (RSeq (RDigits 1 2)
    (RSeq (RChar 46) (RSeq (RDigits 4 4) REol))))).

(** [/^(\d{4})-(\d{1,2})-(\d{1,2})/] *)
Definition re_ymd : regex :=
  RSeq RBol (RSeq (RDigits 4 4) (RSeq (RChar 45) (RSeq (RDigits 1 2)
    (RSeq (RChar 45) (RDigits 1 2))))).

(** [/^(\d{1,2})\/(\d{1,2})\/(\d{4})$/] *)
Definition re_mdy : regex :=
  RSeq RBol (RSeq (RDigits 1 2) (RSeq (RChar 47) (RSeq (RDigits 1 2)
    (RSeq (RChar 47) (RSeq (RDigits 4 4) REol))))).

(** ** Completions

    A block of statements runs to its end ([Normal]), returns from the
    enclosing function ([Return]) or throws ([Throw]). *)

Inductive completion (A : Type) : Type :=
| Normal
| Return (a : A)
| Throw (e : jsstring).
Arguments Normal {A}.
Arguments Return {A} a.
Arguments Throw {A} e.

Definition then_ {A} (c : completion A) (k : completion A) : completion A :=
  match c with
  | Normal => k
  | _ => c
  end.

(** [try { c } catch (e) { h e }] *)
Definition try_catch {A} (c : completion A) (h : jsstring -> completion A)
  : completion A :=
  match c with
  | Throw e => h e
  | _ => c
  end.

Notation "c ;; k" := (then_ c k) (at level 100, k at level 200, right associativity).

(** The value of an expression that may throw. *)
Inductive result (A : Type) : Type :=
| Ok (a : A)
| Err (e : jsstring).
Arguments Ok {A} a.
Arguments Err {A} e.

(** A call [f(args)] seen from the caller: the returned value, [undef]
    when the body ran off its end, or the exception. *)
Definition call {A} (undef : A) (c : completion A) : result A :=
  match c with
  | Normal => Ok undef
  | Return a => Ok a
  | Throw e => Err e
  end.

(** Truthiness of a string, and of a string-or-null. *)
Definition truthy_str (s : jsstring) : bool :=
  match s with [] => false | _ :: _ => true end.

Definition truthy_opt (o : option jsstring) : bool :=
  match o with Some s => truthy_str s | None => false end.

(** What a [Date] object shows through [getFullYear()], [getMonth()] and
    [getDate()]. *)
Record LocalDate : Type := {
  getFullYear : Z;
  getMonth : Z;
  getDate : Z
}.

(** ** JSON values and responses *)

(** The values [express.json()] and multer put in [req.body], and the
    values a response carries.  Numbers are the integral ones.  An object
    lists each of its keys once. *)
#[local] Unset Elimination Schemes.
Inductive json : Type :=
| JNull
| JBool (b : bool)
| JNum (z : Z)
| JStr (s : jsstring)
| JArr (l : list json)
| JObj (fields : list (jsstring * json)).
#[local] Set Elimination Schemes.

(** A value or [undefined]. *)
Definition jsvalue : Type := option json.

(** [!!v] *)
Definition truthy (v : jsvalue) : bool :=
  match v with
  | None => false
  | Some JNull => false
  | Some (JBool b) => b
  | Some (JNum z) => negb (z =? 0)%Z
  | Some (JStr s) => truthy_str s
  | Some (JArr _) => true
  | Some (JObj _) => true
  end.

Fixpoint assoc (k : jsstring) (l : list (jsstring * json)) : jsvalue :=
  match l with
  | [] => None
  | (k', v) :: r => if decide (k' = k) then Some v else assoc k r
  end.

(** [v[k]] for a body field name [k] (none of them names a built-in
    property of strings or arrays). *)
Definition prop (v : jsvalue) (k : jsstring) : jsvalue :=
  match v with
  | Some (JObj fields) => assoc k fields
  | _ => None
  end.

(** [Object.keys(v).length === 0] for a value [v] that is an object *)
Definition no_keys (j : json) : bool :=
  match j with
  | JObj [] => true
  | JArr [] => true
  | _ => false
  end.

(** [typeof v === 'object'] *)
Definition typeof_object (v : jsvalue) : bool :=
  match v with
  | Some JNull | Some (JArr _) | Some (JObj _) => true
  | _ => false
  end.

(** [typeof v === 'string'] *)
Definition typeof_string (v : jsvalue) : bool :=
  match v with
  | Some (JStr _) => true
  | _ => false
  end.

(** [v || d] *)
Definition or_else (v : jsvalue) (d : json) : json :=
  match v with
  | Some j => if truthy v then j else d
  | None => d
  end.

(** [String(v)], as string concatenation applies it. *)
Fixpoint ToString (j : json) : jsstring :=
  match j with
  | JNull => js "null"
  | JBool true => js "true"
  | JBool false => js "false"
  | JNum z => Number_toString z
  | JStr s => s
  | JArr l =>
      (fix join (l : list json) : jsstring :=
         match l with
         | [] => []
         | x :: r =>
             (match x with JNull => [] | _ => ToString x end)
               ++ match r with [] => [] | _ :: _ => 44 :: join r end
         end) l
  | JObj _ => js "[object Object]"
  end.

Definition ToString_value (v : jsvalue) : jsstring :=
  match v with Some j => ToString j | None => js "undefined" end.

(** [v === s] for a string [s] *)
Definition strict_eq_str (v : jsvalue) (s : jsstring) : bool :=
  match v with
  | Some (JStr t) => bool_decide (t = s)
  | _ => false
  end.

Record response : Type := Response {
  status : Z;
  body : json
}.

(** [res.json(b)] and [res.status(n).json(b)] *)
Definition res_json (b : json) : response := Response 200 b.
Definition res_status_json (n : Z) (b : json) : response := Response n b.

(** The configured shared password: [process.env.APP_PASSWORD] is a
    string or [undefined]. *)
Definition secret : Type := option jsstring.

(** * The spreadsheet revision *)

Module Sheets.

Section DateNormalizer.

(** [new Date(s)] is the host's generic date parser: [Ok None] is an
    Invalid Date (its [getTime()] is NaN).  The code calls it inside
    [try], so nothing is assumed about it, not even that it returns. *)
Variable new_Date : jsstring -> result (option LocalDate).

(** [y > 1900 && m >= 1 && m <= 12 && d >= 1 && d <= 31] *)
Definition in_range (y m d : option Z) : bool :=
  num_gt y 1900 && num_ge m 1 && num_le m 12 && num_ge d 1 && num_le d 31.

(** [('0' + x).slice(-2)] *)
Definition pad2 (x : jsstring) : jsstring := slice_last 2 (48 :: x).

(** [`${y}-${('0' + m).slice(-2)}-${('0' + d).slice(-2)}`] *)
Definition ymd_text (y m d : option Z) : jsstring :=
  num_text y ++ [45] ++ pad2 (num_text m) ++ [45] ++ pad2 (num_text d).

Definition parseAndFormatDate (dateValue : jsstring)
  : completion (option jsstring) :=
  (if negb (truthy_str dateValue) then Return None else Normal) ;;
  let dateStr := trim dateValue in
  (if negb (truthy_str dateStr) then Return None else Normal) ;;
  (* DD.MM.YYYY *)
  (match String_match dateStr re_dmy with
   | Some parts =>
       try_catch
         (let d := parseInt (group parts 1) in
          let m := parseInt (group parts 2) in
          let y := parseInt (group parts 3) in
          if in_range y m d then Return (Some (ymd_text y m d)) else Normal)
         (fun _ => Normal)
   | None => Normal
   end) ;;
  (* YYYY-MM-DD *)
  (match String_match dateStr re_ymd with
   | Some parts =>
       try_catch
         (let d := parseInt (group parts 3) in
          let m := parseInt (group parts 2) in
          let y := parseInt (group parts 1) in
          if in_range y m d then Return (Some (ymd_text y m d)) else Normal)
         (fun _ => Normal)
   | None => Normal
   end) ;;
  (* MM/DD/YYYY *)
  (match String_match dateStr re_mdy with
   | Some parts =>
       try_catch
         (let m := parseInt (group parts 1) in
          let d := parseInt (group parts 2) in
          let y := parseInt (group parts 3) in
          if in_range y m d then Return (Some (ymd_text y m d)) else Normal)
         (fun _ => Normal)
   | None => Normal
   end) ;;
  (* new Date() *)
  try_catch
    (match new_Date dateStr with
     | Err e => Throw e
     | Ok None => Normal
     | Ok (Some pd) =>
         Return (Some (Number_toString (getFullYear pd) ++ [45]
                       ++ pad2 (Number_toString (getMonth pd + 1)) ++ [45]
                       ++ pad2 (Number_toString (getDate pd))))
     end)
    (fun _ => Normal) ;;
  (* console.warn(...) *)
  Return None.

End DateNormalizer.

(** ** The sheet and the event list *)

Definition COLUMN_ORDER : list jsstring := [
  js "Wann findet der Event statt?";
  js "Event Titel";
  js "Wann starter der Event?";
  js "Wann ist der Event zu Ende?";
  js "Um was geht es bei dem Event?";
  js "Welche Ressourcen brauchst du?";
  js "Wer ist f" ++ [252] ++ js "r den Event Verantwortlich?";
  js "Event Typ";
  js "Teilnehmer Info";
  js "Zeitstempel"
].

Definition COL_DATE : jsstring := nth 0 COLUMN_ORDER [].
Definition COL_TITLE : jsstring := nth 1 COLUMN_ORDER [].
Definition COL_START_TIME : jsstring := nth 2 COLUMN_ORDER [].
Definition COL_PARTICIPANT_INFO : jsstring := nth 8 COLUMN_ORDER [].
Definition COL_TIMESTAMP : jsstring := nth 9 COLUMN_ORDER [].
Definition HEADER_ROW : Z := 1.

(** A cell of a data row: its text as [String(cell)] gives it, or a hole
    ([null] or [undefined]). *)
Definition cell : Type := option jsstring.

(** One element of the [events] array: the column values under the names
    of [COLUMN_ORDER], then [sortableDate] and [rowNum]. *)
Record event : Type := Event {
  columns : list (jsstring * jsstring);
  sortableDate : option jsstring;
  rowNum : Z
}.

(** [e[name]] *)
Fixpoint column (name : jsstring) (cols : list (jsstring * jsstring))
  : option jsstring :=
  match cols with
  | [] => None
  | (k, v) :: r => if decide (k = name) then Some v else column name r
  end.

(** [headers.indexOf(h)] *)
Fixpoint indexOf (h : jsstring) (headers : list jsstring) : option nat :=
  match headers with
  | [] => None
  | x :: r => if decide (x = h) then Some 0%nat else S <$> indexOf h r
  end.

(** The body of [COLUMN_ORDER.forEach] for one defined header. *)
Definition column_value (headers : list jsstring) (row : list cell)
    (definedHeader : jsstring) : jsstring :=
  match indexOf definedHeader headers with
  | Some actualHeaderIndex =>
      if (actualHeaderIndex <? length row)%nat then
        match row !! actualHeaderIndex with
        | Some (Some v) => trim v
        | _ => []
        end
      else []
  | None => []
  end.

Definition row_columns (headers : list jsstring) (row : list cell)
  : list (jsstring * jsstring) :=
  (fun h => (h, column_value headers row h)) <$> COLUMN_ORDER.

Definition hasData (cols : list (jsstring * jsstring)) : bool :=
  existsb (fun kv => truthy_str (snd kv)) cols.

(** The comparator handed to [events.sort]. *)
Definition compare_events (a b : event) : Z :=
  if negb (truthy_opt (sortableDate a)) && negb (truthy_opt (sortableDate b))
  then 0
  else if negb (truthy_opt (sortableDate a)) then 1
  else if negb (truthy_opt (sortableDate b)) then (-1)
  else
    let da := default [] (sortableDate a) in
    let db := default [] (sortableDate b) in
    if str_lt da db then (-1)
    else if str_gt da db then 1
    else
      let startTimeA := default [] (column COL_START_TIME (columns a)) in
      let startTimeB := default [] (column COL_START_TIME (columns b)) in
      if str_lt startTimeA startTimeB then (-1)
      else if str_gt startTimeA startTimeB then 1
      else 0.

(** [Array.prototype.sort(cmp)]: for a consistent comparator the result
    is the stable sorted rearrangement, which insertion from the right
    computes: an element goes in front of the first one it does not
    compare greater than. *)
Fixpoint sort_insert {A} (cmp : A -> A -> Z) (x : A) (l : list A) : list A :=
  match l with
  | [] => [x]
  | y :: r => if (0 <? cmp x y)%Z then y :: sort_insert cmp x r else x :: l
  end.

Fixpoint Array_sort {A} (cmp : A -> A -> Z) (l : list A) : list A :=
  match l with
  | [] => []
  | x :: r => sort_insert cmp x (Array_sort cmp r)
  end.

Definition event_json (e : event) : json :=
  JObj (((fun kv => (fst kv, JStr (snd kv))) <$> columns e)
        ++ [(js "sortableDate",
             match sortableDate e with Some d => JStr d | None => JNull end);
            (js "rowNum", JNum (rowNum e))]).

(** What the Sheets API answers to the two reads of the list handler:
    the client, the header range and the data range; each may fail, and
    [data.values] may be missing. *)
Record SheetsReads : Type := {
  client : result unit;
  headerResponse : result (option (list (list jsstring)));
  dataResponse : result (option (list (list cell)))
}.

Section EventList.

Variable new_Date : jsstring -> result (option LocalDate).

(** [values.forEach((row, index) => ...)] *)
Fixpoint collect_events (headers : list jsstring) (startRow : Z)
    (values : list (list cell)) (index : Z) : result (list event) :=
  match values with
  | [] => Ok []
  | row :: rest =>
      let cols := row_columns headers row in
      if hasData cols then
        let dateValue := default [] (column COL_DATE cols) in
        match call None (parseAndFormatDate new_Date dateValue) with
        | Err e => Err e
        | Ok sd =>
            match collect_events headers startRow rest (index + 1) with
            | Err e => Err e
            | Ok evs => Ok (Event cols sd (startRow + index) :: evs)
            end
        end
      else collect_events headers startRow rest (index + 1)
  end.

(** The [try] block of [GET /api/events]. *)
Definition list_events (api : SheetsReads) : result (list event) :=
  match client api with
  | Err e => Err e
  | Ok _ =>
      match headerResponse api with
      | Err e => Err e
      | Ok hv =>
          match
            (match hv with
             | Some (h :: _) => Ok (trim <$> h)
             | Some [] => Err (js "Cannot read properties of undefined")
             | None => Ok []
             end)
          with
          | Err e => Err e
          | Ok headers =>
              if (length headers =? 0)%nat
              then Err (js "Keine Header in Zeile 1 gefunden.")
              else
                let startRow := (HEADER_ROW + 1)%Z in
                match dataResponse api with
                | Err e => Err e
                | Ok dv =>
                    let values := default [] dv in
                    match collect_events headers startRow values 0 with
                    | Err e => Err e
                    | Ok events => Ok (Array_sort compare_events events)
                    end
                end
          end
      end
  end.

(** [app.get('/api/events', ...)] *)
Definition get_events (api : SheetsReads) : response :=
  match list_events api with
  | Ok events => res_json (JArr (event_json <$> events))
  | Err e =>
      res_status_json 500
        (JObj [(js "error",
                JStr (js "Fehler beim Laden der Events." ++ js " Details: " ++ e))])
  end.

End EventList.

(** ** Appending a row *)

(** [app.post('/api/events', ...)] on a sheet given as its rows: the new
    row holds, per column of [COLUMN_ORDER], the time stamp or the body's
    value under that column name.  [append] is what the Sheets API
    answers. *)
Definition new_row (eventData : jsvalue) (isoNow : jsstring) : list json :=
  (fun columnName =>
     if decide (columnName = COL_TIMESTAMP) then JStr isoNow
     else match prop eventData columnName with
          | Some v => v
          | None => JStr []
          end) <$> COLUMN_ORDER.

Definition post_events (client append : result unit) (isoNow : jsstring)
    (eventData : jsvalue) (sheet : list (list json))
  : response * list (list json) :=
  if negb (truthy eventData) || negb (typeof_object eventData)
     || match eventData with Some j => no_keys j | None => true end
  then (res_status_json 400
          (JObj [(js "error",
                  JStr (js "Ung" ++ [252] ++ js "ltige oder fehlende Event-Daten im Request Body."))]),
        sheet)
  else
    let failed e :=
      (res_status_json 500
         (JObj [(js "success", JBool false);
                (js "message",
                 JStr (js "Fehler beim Hinzuf" ++ [252] ++ js "gen des Events."
                      ++ js " Details: " ++ e))]),
       sheet) in
    match client with
    | Err e => failed e
    | Ok _ =>
        let newRow := new_row eventData isoNow in
        match append with
        | Err e => failed e
        | Ok _ =>
            (res_status_json 201
               (JObj [(js "success", JBool true);
                      (js "message",
                       JStr (js "Event erfolgreich hinzugef" ++ [252] ++ js "gt."))]),
             sheet ++ [newRow])
        end
    end.

(** ** The password check *)

(** [app.post('/api/auth/check', ...)]; [req.body] is [undefined] when no
    JSON body was parsed, and destructuring it throws. *)
Definition auth_check (APP_PASSWORD : secret) (req_body : jsvalue)
  : result response :=
  match req_body with
  | None | Some JNull => Err (js "Cannot destructure property of req.body")
  | Some _ =>
      let userPassword := prop req_body (js "password") in
      if negb (truthy_opt APP_PASSWORD) then
        Ok (res_status_json 500
              (JObj [(js "error", JStr (js "Server-Konfigurationsfehler."))]))
      else if negb (typeof_string userPassword) then
        Ok (res_status_json 400
              (JObj [(js "error",
                      JStr (js "Passwort fehlt oder ung" ++ [252]
                            ++ js "ltiges Format im Request Body."))]))
      else
        let isValid := strict_eq_str userPassword (default [] APP_PASSWORD) in
        Ok (res_json (JObj [(js "isValid", JBool isValid)]))
  end.

(** ** Updating and deleting a row *)

Definition SHEET_NAME : jsstring := js "Formularantworten 1".

(** [String.fromCharCode(65 + COLUMN_ORDER.indexOf(COL_PARTICIPANT_INFO))];
    [indexOf] answers -1 for a name the array does not hold. *)
Definition UPDATE_COLUMN_END_LETTER : jsstring :=
  [N.of_nat match indexOf COL_PARTICIPANT_INFO COLUMN_ORDER with
            | Some i => 65 + i
            | None => 64
            end].

(** What the update and the delete handler ask the Sheets API to change:
    [values.update] with its range and its rows, and [batchUpdate] with
    one [deleteDimension] of the rows from [startIndex] up to, not
    including, [endIndex]. *)
Inductive write_request : Type :=
| ValuesUpdate (range : jsstring) (values : list (list json))
| DeleteRows (sheetId startIndex endIndex : Z).

(** [value !== null] *)
Definition not_null (value : json) : bool :=
  match value with JNull => false | _ => true end.

(** [COLUMN_ORDER.map(header => ...).filter(value => value !== null)]:
    the time stamp column is mapped to [null] and then filtered out, as
    is every [null] the body brings. *)
Definition valuesToWrite (eventData : jsvalue) : list json :=
  List.filter not_null
    ((fun header =>
        if decide (header = COL_TIMESTAMP) then JNull
        else match prop eventData header with
             | Some v => v
             | None => JStr []
             end) <$> COLUMN_ORDER).

(** [`${SHEET_NAME}!A${rowNum}:${UPDATE_COLUMN_END_LETTER}${rowNum}`] *)
Definition update_range (rowNum : Z) : jsstring :=
  SHEET_NAME ++ js "!A" ++ Number_toString rowNum ++ js ":"
  ++ UPDATE_COLUMN_END_LETTER ++ Number_toString rowNum.

(** [app.put('/api/events/:rowNum', ...)]: the answer and the requests
    sent.  [client] and [update] are what getting the API client and the
    [values.update] call come to.  The row number is kept as the integer
    that the digits of the parameter denote: that is the number the
    handler computes with as long as it is at most 2^53; a JavaScript
    number holds no larger integer exactly. *)
Definition put_event (client update : result unit) (rowNum_param : jsstring)
    (eventData : jsvalue) : response * list write_request :=
  let invalid_row :=
    (res_status_json 400
       (JObj [(js "error",
               JStr (js "Ung" ++ [252] ++ js "ltige Zeilennummer angegeben."))]),
     []) in
  (* isNaN(rowNum) || rowNum <= HEADER_ROW *)
  match parseInt rowNum_param with
  | None => invalid_row
  | Some rowNum =>
      if (rowNum <=? HEADER_ROW)%Z then invalid_row
      else if negb (truthy eventData) || negb (typeof_object eventData)
              || match eventData with Some j => no_keys j | None => true end
      then (res_status_json 400
              (JObj [(js "error",
                      JStr (js "Ung" ++ [252]
                            ++ js "ltige oder fehlende Event-Daten im Request Body."))]),
            [])
      else
        let failed sent e :=
          (res_status_json 500
             (JObj [(js "success", JBool false);
                    (js "message",
                     JStr (js "Fehler beim Aktualisieren des Events."
                           ++ js " Details: " ++ e))]),
           sent) in
        match client with
        | Err e => failed [] e
        | Ok _ =>
            let request :=
              ValuesUpdate (update_range rowNum) [valuesToWrite eventData] in
            match update with
            | Err e => failed [request] e
            | Ok _ =>
                (res_json
                   (JObj [(js "success", JBool true);
                          (js "message", JStr (js "Event erfolgreich aktualisiert."))]),
                 [request])
            end
        end
  end.

(** One entry of [metadata.data.sheets]: [properties.title] and
    [properties.sheetId], which may be [undefined]. *)
Record sheet_properties : Type := {
  title : jsstring;
  sheetId : option Z
}.

(** [app.delete('/api/events/:rowNum', ...)]; [metadata] is what
    [spreadsheets.get] comes to, [batchUpdate] what the deletion comes
    to.  As in the update, the row number is the integer the digits
    denote, which is the number of the handler up to 2^53. *)
Definition delete_event (client : result unit)
    (metadata : result (list sheet_properties)) (batchUpdate : result unit)
    (rowNum_param : jsstring) : response * list write_request :=
  let invalid_row :=
    (res_status_json 400
       (JObj [(js "error",
               JStr (js "Ung" ++ [252] ++ js "ltige Zeilennummer zum L" ++ [246]
                     ++ js "schen angegeben."))]),
     []) in
  let not_found :=
    (res_status_json 404
       (JObj [(js "error",
               JStr (js "Tabellenblatt " ++ [34] ++ SHEET_NAME ++ [34]
                     ++ js " nicht gefunden."))]),
     []) in
  match parseInt rowNum_param with
  | None => invalid_row
  | Some rowNum =>
      if (rowNum <=? HEADER_ROW)%Z then invalid_row
      else
        let failed sent e :=
          (res_status_json 500
             (JObj [(js "success", JBool false);
                    (js "message",
                     JStr (js "Fehler beim L" ++ [246] ++ js "schen des Events."
                           ++ js " Details: " ++ e))]),
           sent) in
        match client with
        | Err e => failed [] e
        | Ok _ =>
            match metadata with
            | Err e => failed [] e
            | Ok sheets =>
                match List.find (fun s => bool_decide (title s = SHEET_NAME)) sheets with
                | None => not_found
                | Some sheet =>
                    match sheetId sheet with
                    | None => not_found
                    | Some id =>
                        let request := DeleteRows id (rowNum - 1) rowNum in
                        match batchUpdate with
                        | Err e => failed [request] e
                        | Ok _ =>
                            (res_json
                               (JObj [(js "success", JBool true);
                                      (js "message",
                                       JStr (js "Event erfolgreich gel" ++ [246]
                                             ++ js "scht."))]),
                             [request])
                        end
                    end
                end
            end
        end
  end.

End Sheets.

(** * The backends of the document-store revisions *)

(** A stored field: a plain value or a Firestore [Timestamp]. *)
Inductive fvalue : Type :=
| VJson (j : json)
| VTimestamp (seconds nanoseconds : Z).

(** A field of a payload handed to [add] or [update]: it may still be
    [undefined], or one of the [FieldValue] sentinels. *)
Inductive pvalue : Type :=
| PUndefined
| PVal (v : fvalue)
| PServerTimestamp
| PDelete.

(** [v === null] *)
Definition is_null (v : option fvalue) : bool :=
  match v with
  | Some (VJson JNull) => true
  | _ => false
  end.

Definition truthy_field (v : option fvalue) : bool :=
  match v with
  | None => false
  | Some (VJson j) => truthy (Some j)
  | Some (VTimestamp _ _) => true
  end.

Record blob : Type := Blob {
  content : list N;
  contentType : jsstring;
  isPublic : bool
}.

(** What the session middleware keeps per session id. *)
Record SessionData : Type := Session_ {
  isAuthenticated : bool;
  user : jsvalue
}.

Inductive level : Type := LLog | LWarn | LError.

(** The calls a handler issues to the stores. *)
Inductive backend_call : Type :=
| CDocGet (id : jsstring)
| CAdd
| CDocUpdate (id : jsstring)
| CDocDelete (id : jsstring)
| CFileWrite (name : jsstring)
| CFileMakePublic (name : jsstring)
| CFileDelete (name : jsstring)
| CSessionSave (sid : jsstring).

Record World : Type := {
  (** the [events] collection: documents by id, fields by name *)
  events : gmap jsstring (gmap jsstring fvalue);
  (** the objects of the bucket, by name *)
  bucket : gmap jsstring blob;
  (** the session store: session and expiry time by session id *)
  sessions : gmap jsstring (SessionData * Z);
  console : list (level * jsstring);
  (** every call issued to a store so far, latest last *)
  issued : list backend_call
}.

(** What the outside decides during one request: the clock, the id
    Firestore draws for a new document, and which calls fail (with what
    message). *)
Record Env : Type := {
  now : Z;
  auto_id : jsstring;
  doc_get_error : option jsstring;
  add_error : option jsstring;
  doc_update_error : option jsstring;
  doc_delete_error : option jsstring;
  file_write_error : option jsstring;
  file_makePublic_error : option jsstring;
  file_delete_error : option jsstring;
  session_save_error : option jsstring
}.

Definition set_events (f : gmap jsstring (gmap jsstring fvalue) ->
                           gmap jsstring (gmap jsstring fvalue)) (w : World) : World :=
  {| events := f (events w); bucket := bucket w; sessions := sessions w;
     console := console w; issued := issued w |}.

Definition set_bucket (f : gmap jsstring blob -> gmap jsstring blob) (w : World)
  : World :=
  {| events := events w; bucket := f (bucket w); sessions := sessions w;
     console := console w; issued := issued w |}.

Definition set_sessions (f : gmap jsstring (SessionData * Z) ->
                             gmap jsstring (SessionData * Z)) (w : World) : World :=
  {| events := events w; bucket := bucket w; sessions := f (sessions w);
     console := console w; issued := issued w |}.

Definition add_console (l : level) (msg : jsstring) (w : World) : World :=
  {| events := events w; bucket := bucket w; sessions := sessions w;
     console := console w ++ [(l, msg)]; issued := issued w |}.

Definition add_issued (c : backend_call) (w : World) : World :=
  {| events := events w; bucket := bucket w; sessions := sessions w;
     console := console w; issued := issued w ++ [c] |}.

(** ** Asynchronous code as state passing with exceptions *)

Definition M (A : Type) : Type := World -> result A * World.

Definition ret {A} (a : A) : M A := fun w => (Ok a, w).
Definition throw {A} (e : jsstring) : M A := fun w => (Err e, w).

Definition bind {A B} (m : M A) (k : A -> M B) : M B :=
  fun w =>
    match m w with
    | (Ok a, w') => k a w'
    | (Err e, w') => (Err e, w')
    end.

(** [try { m } catch (e) { h e }] *)
Definition catch {A} (m : M A) (h : jsstring -> M A) : M A :=
  fun w =>
    match m w with
    | (Ok a, w') => (Ok a, w')
    | (Err e, w') => h e w'
    end.

Notation "'let!' x ':=' m 'in' k" := (bind m (fun x => k))
  (at level 10, x pattern, m at level 100, k at level 200).
Notation "m ';;;' k" := (bind m (fun _ => k))
  (at level 100, k at level 200, right associativity).

Definition console_log (msg : jsstring) : M unit :=
  fun w => (Ok tt, add_console LLog msg w).
Definition console_warn (msg : jsstring) : M unit :=
  fun w => (Ok tt, add_console LWarn msg w).
Definition console_error (msg : jsstring) : M unit :=
  fun w => (Ok tt, add_console LError msg w).

(** One call to a store: it is recorded, then fails if the outside says
    so, and otherwise acts on the world. *)
Definition backend {A} (c : backend_call) (failure : option jsstring)
    (act : World -> result A * World) : M A :=
  fun w =>
    let w1 := add_issued c w in
    match failure with
    | Some e => (Err e, w1)
    | None => act w1
    end.

(** *** Firestore *)

(** [eventsCollection.doc(id).get()]: the document, if it exists *)
Definition doc_get (env : Env) (id : jsstring) : M (option (gmap jsstring fvalue)) :=
  backend (CDocGet id) (doc_get_error env) (fun w => (Ok (events w !! id), w)).

(** The server time as a [Timestamp]. *)
Definition server_timestamp (env : Env) : fvalue :=
  VTimestamp (now env / 1000) ((now env mod 1000) * 1000000).

(** One payload field applied to a document; [undefined] is refused by
    the client library. *)
Definition write_field (env : Env) (d : result (gmap jsstring fvalue))
    (kv : jsstring * pvalue) : result (gmap jsstring fvalue) :=
  match d with
  | Err e => Err e
  | Ok doc =>
      match snd kv with
      | PUndefined => Err (js "Cannot use undefined as a Firestore value")
      | PVal v => Ok (<[fst kv := v]> doc)
      | PServerTimestamp => Ok (<[fst kv := server_timestamp env]> doc)
      | PDelete => Ok (delete (fst kv) doc)
      end
  end.

Definition write_fields (env : Env) (doc : gmap jsstring fvalue)
    (payload : list (jsstring * pvalue)) : result (gmap jsstring fvalue) :=
  fold_left (write_field env) payload (Ok doc).

(** [eventsCollection.add(payload)]: a new document under the drawn id *)
Definition collection_add (env : Env) (payload : list (jsstring * pvalue))
  : M jsstring :=
  backend CAdd (add_error env)
    (fun w =>
       match events w !! auto_id env with
       | Some _ => (Err (js "ALREADY_EXISTS"), w)
       | None =>
           match write_fields env ∅ payload with
           | Err e => (Err e, w)
           | Ok doc => (Ok (auto_id env), set_events (insert (auto_id env) doc) w)
           end
       end).

(** [ref.update(payload)]: the named fields are written, the others
    stay; the document must exist *)
Definition doc_update (env : Env) (id : jsstring)
    (payload : list (jsstring * pvalue)) : M unit :=
  backend (CDocUpdate id) (doc_update_error env)
    (fun w =>
       match events w !! id with
       | None => (Err (js "NOT_FOUND"), w)
       | Some doc =>
           match write_fields env doc payload with
           | Err e => (Err e, w)
           | Ok doc' => (Ok tt, set_events (insert id doc') w)
           end
       end).

(** [ref.delete()] *)
Definition doc_delete (env : Env) (id : jsstring) : M unit :=
  backend (CDocDelete id) (doc_delete_error env)
    (fun w => (Ok tt, set_events (delete id) w)).

(** [Timestamp.fromDate(date)], [date] given by its time value in
    milliseconds ([None] is NaN, an Invalid Date): the constructor
    validates seconds and nanoseconds and throws otherwise. *)
Definition MIN_SECONDS : Z := -62135596800.
Definition MAX_SECONDS : Z := 253402300799.

Definition Timestamp_fromDate (t : option Z) : result fvalue :=
  match t with
  | None => Err (js "Value for argument seconds is not a valid integer.")
  | Some ms =>
      let seconds := (ms / 1000)%Z in
      let nanos := ((ms - seconds * 1000) * 1000000)%Z in
      if (seconds <? MIN_SECONDS)%Z || (MAX_SECONDS <? seconds)%Z
      then Err (js "Value for argument seconds is out of range.")
      else Ok (VTimestamp seconds nanos)
  end.

(** *** Cloud Storage *)

Definition GCS_BUCKET_NAME : jsstring := js "ebaplanner_event_images".

Record File : Type := {
  buffer : list N;
  originalname : jsstring;
  mimetype : jsstring
}.

(** [blob.createWriteStream(...)] then [blobStream.end(buffer)]: the
    object is written under its name, replacing an object of that name *)
Definition file_write (env : Env) (name : jsstring) (data : list N)
    (ctype : jsstring) : M unit :=
  backend (CFileWrite name) (file_write_error env)
    (fun w => (Ok tt, set_bucket (insert name (Blob data ctype false)) w)).

(** [blob.makePublic()] *)
Definition file_makePublic (env : Env) (name : jsstring) : M unit :=
  backend (CFileMakePublic name) (file_makePublic_error env)
    (fun w =>
       match bucket w !! name with
       | None => (Err (js "No such object"), w)
       | Some b =>
           (Ok tt,
            set_bucket (insert name (Blob (content b) (contentType b) true)) w)
       end).

(** [bucket.file(name).delete()] *)
Definition file_delete (env : Env) (name : jsstring) : M unit :=
  backend (CFileDelete name) (file_delete_error env)
    (fun w =>
       match bucket w !! name with
       | None => (Err (js "No such object"), w)
       | Some _ => (Ok tt, set_bucket (delete name) w)
       end).

Definition gcsPrefix : jsstring :=
  js "https://storage.googleapis.com/" ++ GCS_BUCKET_NAME ++ js "/".

(** [`${Date.now()}-${originalname.replace(/ /g, '_')}`] *)
Definition uniqueFilename (now : Z) (originalname : jsstring) : jsstring :=
  Number_toString now ++ [45] ++ replace_spaces originalname.

(** [uploadToGcs(buffer, originalname, mimetype)]: the promise resolves
    with the public URL or rejects with a message. *)
Definition uploadToGcs (env : Env) (f : File) : M jsstring :=
  let name := uniqueFilename (now env) (originalname f) in
  catch
    (file_write env name (buffer f) (mimetype f))
    (fun e =>
       console_error (js "GCS Upload Error:") ;;;
       throw (js "Error uploading to GCS: " ++ e)) ;;;
  catch
    (file_makePublic env name ;;;
     let publicUrl := gcsPrefix ++ name in
     console_log (js "GCS Upload successful:") ;;;
     ret publicUrl)
    (fun e =>
       console_error (js "Error making file public or getting URL:") ;;;
       throw (js "Error finalizing GCS upload: " ++ e)).

(** [deleteFromGcs(fileUrl)]; the prefix test stands before the [try],
    and calls [startsWith] on whatever truthy value it is given. *)
Definition deleteFromGcs (env : Env) (fileUrl : option fvalue) : M unit :=
  if negb (truthy_field fileUrl) then
    console_warn (js "Invalid or non-matching GCS URL provided for deletion:")
  else
    match fileUrl with
    | Some (VJson (JStr url)) =>
        if negb (startsWith url gcsPrefix) then
          console_warn (js "Invalid or non-matching GCS URL provided for deletion:")
        else
          catch
            (let fileName := substring url (length gcsPrefix) in
             if negb (truthy_str fileName) then
               console_warn (js "Could not extract filename from URL:")
             else
               console_log (js "Attempting to delete GCS object:") ;;;
               file_delete env fileName ;;;
               console_log (js "Successfully deleted GCS object:"))
            (fun e => console_error (js "Failed to delete GCS object"))
    | _ => throw (js "fileUrl.startsWith is not a function")
    end.

(** ** Requests *)

Record Request : Type := {
  params_id : jsstring;
  req_body : jsvalue;
  (** the [eventImage] part of a multipart request, if any *)
  req_file : option File;
  req_session : option SessionData;
  sessionID : jsstring
}.

(** [multer.single('eventImage')] with [limits.fileSize] of 10 MB: a
    larger file is an error passed to the framework. *)
Definition fileSize_limit : nat := 10 * 1024 * 1024.

Definition multer_single (req : Request) : result Request :=
  match req_file req with
  | Some f =>
      if (fileSize_limit <? length (buffer f))%nat
      then Err (js "File too large")
      else Ok req
  | None => Ok req
  end.

Definition FIELD_TITLE : jsstring := js "title".
Definition FIELD_DATE : jsstring := js "eventDate".
Definition FIELD_START_TIME : jsstring := js "startTime".
Definition FIELD_END_TIME : jsstring := js "endTime".
Definition FIELD_DESCRIPTION : jsstring := js "description".
Definition FIELD_RESOURCES : jsstring := js "resources".
Definition FIELD_RESPONSIBLE : jsstring := js "responsible".
Definition FIELD_EVENT_TYPE : jsstring := js "eventType".
Definition FIELD_PARTICIPANT_INFO : jsstring := js "participantInfo".

(** The default type label: O-umlaut, then [ffentlich]. *)
Definition default_eventType : json := JStr (214 :: js "ffentlich").

Definition message (success : bool) (text : string) : json :=
  JObj [(js "success", JBool success); (js "message", JStr (js text))].

Definition error_body (text : string) : json :=
  JObj [(js "error", JStr (js text))].

(** The nine text fields of a payload, [eventDate] already converted. *)
Definition text_fields (eventData : jsvalue) (eventDateTimestamp : fvalue)
  : list (jsstring * pvalue) :=
  [ (js "title", PVal (VJson (or_else (prop eventData FIELD_TITLE) (JStr []))));
    (js "eventDate", PVal eventDateTimestamp);
    (js "startTime", PVal (VJson (or_else (prop eventData FIELD_START_TIME) (JStr []))));
    (js "endTime", PVal (VJson (or_else (prop eventData FIELD_END_TIME) (JStr []))));
    (js "description", PVal (VJson (or_else (prop eventData FIELD_DESCRIPTION) (JStr []))));
    (js "resources", PVal (VJson (or_else (prop eventData FIELD_RESOURCES) (JStr []))));
    (js "responsible", PVal (VJson (or_else (prop eventData FIELD_RESPONSIBLE) (JStr []))));
    (js "eventType", PVal (VJson (or_else (prop eventData FIELD_EVENT_TYPE) default_eventType)));
    (js "participantInfo",
     PVal (VJson (or_else (prop eventData FIELD_PARTICIPANT_INFO) (JStr [])))) ].

(** A handler's [try { ... } catch (error) { ... }] around its body: an
    exception is logged and answered with the handler's 500. *)
Definition handle (body : M response) (where_ : jsstring) (failure : json)
  : World -> response * World :=
  fun w =>
    match body w with
    | (Ok r, w') => (r, w')
    | (Err e, w') =>
        (res_status_json 500 failure, add_console LError where_ w')
    end.

(** ** Reading stored values back *)

(** [timestamp.toDate()], as the time value of the [Date] in
    milliseconds: [seconds * 1000 + Math.round(nanoseconds / 1e6)]. *)
Definition Timestamp_toMillis (seconds nanoseconds : Z) : Z :=
  (seconds * 1000 + (nanoseconds + 500000) / 1000000)%Z.

(** [s.split('T')[0]] *)
Definition before_T (s : jsstring) : jsstring :=
  takeWhile (fun c => negb (c =? 84)) s.

(** [x || null] for a string or [undefined] *)
Definition or_null (x : option jsstring) : json :=
  match x with
  | Some s => if truthy_str s then JStr s else JNull
  | None => JNull
  end.

(** What [res.json] makes of a stored value: a [Timestamp] goes out as
    the object of its two fields. *)
Definition fvalue_json (v : fvalue) : json :=
  match v with
  | VJson j => j
  | VTimestamp seconds nanoseconds =>
      JObj [(js "_seconds", JNum seconds); (js "_nanoseconds", JNum nanoseconds)]
  end.

(** * The document-store revision *)

Module Firestore.

Section Handlers.

(** [new Date(s).getTime()]: the time value in milliseconds, [None]
    for an Invalid Date. *)
Variable Date_parse : jsstring -> option Z.

(** [Timestamp.fromDate(new Date(raw + 'T00:00:00Z'))] *)
Definition eventDate_timestamp (raw : jsvalue) : result fvalue :=
  Timestamp_fromDate (Date_parse (ToString_value raw ++ js "T00:00:00Z")).

(** [app.post('/api/events', multer.single('eventImage'), ...)], the
    handler *)
Definition post_events (env : Env) (req : Request) : World -> response * World :=
  fun w0 =>
  handle
    (let eventData := req_body req in
     let uploadedFile := req_file req in
     if negb (truthy eventData) || negb (truthy (prop eventData FIELD_TITLE))
        || negb (truthy (prop eventData FIELD_DATE))
     then ret (res_status_json 400 (message false "Title and Date are required fields."))
     else
       let! imageUrl :=
         match uploadedFile with
         | Some f =>
             console_log (js "Processing uploaded file:") ;;;
             let! url := uploadToGcs env f in
             ret (JStr url)
         | None => ret JNull
         end in
       if truthy (prop eventData FIELD_DATE) then
         match eventDate_timestamp (prop eventData FIELD_DATE) with
         | Err _ =>
             console_warn (js "Could not parse date from frontend:") ;;;
             ret (res_status_json 400
                    (message false "Invalid date format. Please use YYYY-MM-DD."))
         | Ok eventDateTimestamp =>
             let newEvent :=
               text_fields eventData eventDateTimestamp
               ++ [(js "imageUrl", PVal (VJson imageUrl));
                   (js "createdAt", PServerTimestamp)] in
             let! id := collection_add env newEvent in
             console_log (js "New event successfully added to Firestore with ID:") ;;;
             ret (res_status_json 201
                    (JObj [(js "success", JBool true);
                           (js "message", JStr (js "Event added successfully."));
                           (js "id", JStr id)]))
         end
       else ret (res_status_json 400 (message false "Date is a required field.")))
    (js "Error in POST /api/events:")
    (message false "Error adding event.")
    (add_console LLog (js "API POST /api/events called") w0).

(** The route: multer first; what multer refuses goes to the
    framework. *)
Definition route_post_events (env : Env) (req : Request) (w : World)
  : result response * World :=
  match multer_single req with
  | Err e => (Err e, w)
  | Ok req' => let '(r, w') := post_events env req' w in (Ok r, w')
  end.

(** [app.put('/api/events/:id', ...)]: a JSON body, no image *)
Definition put_event (env : Env) (req : Request) : World -> response * World :=
  fun w0 =>
  let eventId := params_id req in
  let eventData := req_body req in
  let w1 := add_console LLog (js "API PUT /api/events/:id called") w0 in
  if negb (truthy_str eventId) then
    (res_status_json 400 (error_body "Event ID missing."), w1)
  else if negb (truthy eventData) || negb (typeof_object eventData)
          || match eventData with Some j => no_keys j | None => true end
          || negb (truthy (prop eventData FIELD_TITLE))
          || negb (truthy (prop eventData FIELD_DATE))
  then (res_status_json 400 (message false "Invalid data or Title/Date missing."), w1)
  else
    handle
      (let! doc := doc_get env eventId in
       match doc with
       | None => ret (res_status_json 404 (message false "Event not found."))
       | Some _ =>
           if truthy (prop eventData FIELD_DATE) then
             match eventDate_timestamp (prop eventData FIELD_DATE) with
             | Err _ =>
                 ret (res_status_json 400
                        (message false "Invalid date format. Please use YYYY-MM-DD."))
             | Ok eventDateTimestamp =>
                 let updatePayload := text_fields eventData eventDateTimestamp in
                 doc_update env eventId updatePayload ;;;
                 console_log (js "Event successfully updated.") ;;;
                 ret (res_json (message true "Event updated successfully."))
             end
           else ret (res_status_json 400 (message false "Date is a required field."))
       end)
      (js "Error in PUT /api/events/:id:")
      (message false "Error updating event.")
      w1.

(** [app.delete('/api/events/:id', ...)] *)
Definition delete_event (env : Env) (req : Request) : World -> response * World :=
  fun w0 =>
  let eventId := params_id req in
  let w1 := add_console LLog (js "API DELETE /api/events/:id called") w0 in
  if negb (truthy_str eventId) then
    (res_status_json 400 (error_body "Event ID missing."), w1)
  else
    handle
      (let! doc := doc_get env eventId in
       match doc with
       | Some eventData =>
           (if truthy_field (eventData !! js "imageUrl")
            then deleteFromGcs env (eventData !! js "imageUrl")
            else ret tt) ;;;
           doc_delete env eventId ;;;
           console_log (js "Event successfully deleted from Firestore.") ;;;
           ret (res_json (message true "Event deleted successfully."))
       | None =>
           console_log (js "Event not found for deletion.") ;;;
           ret (res_status_json 404 (message false "Event not found."))
       end)
      (js "Error in DELETE /api/events/:id:")
      (message false "Error deleting event.")
      w1.

End Handlers.

(** [app.post('/api/auth/check', ...)] *)
Definition auth_check (APP_PASSWORD : secret) (req_body : jsvalue)
  : result response :=
  match req_body with
  | None | Some JNull => Err (js "Cannot destructure property of req.body")
  | Some _ =>
      let userPassword := prop req_body (js "password") in
      if negb (truthy_opt APP_PASSWORD) then
        Ok (res_status_json 500 (error_body "Server configuration error."))
      else if negb (typeof_string userPassword) then
        Ok (res_status_json 400 (error_body "Password missing or invalid format."))
      else
        let isValid := strict_eq_str userPassword (default [] APP_PASSWORD) in
        Ok (res_json (JObj [(js "isValid", JBool isValid)]))
  end.

(** ** The event list *)

Section EventList.

(** [date.toISOString()] of the date with a given time value; the dates
    of stored [Timestamp]s are valid, so it returns. *)
Variable toISOString : Z -> jsstring.

(** [field?.toDate()?.toISOString()]: [undefined] for a field that is
    missing or [null]; a value that is no [Timestamp] has no [toDate],
    and calling it throws. *)
Definition toDate_toISOString (field : option fvalue) : result (option jsstring) :=
  match field with
  | None | Some (VJson JNull) => Ok None
  | Some (VTimestamp seconds nanoseconds) =>
      Ok (Some (toISOString (Timestamp_toMillis seconds nanoseconds)))
  | Some (VJson _) => Err (js "toDate is not a function")
  end.

(** The object pushed for one document, by property name:
    [{ id: doc.id, ...data, eventDate: ... || null, createdAt: ... || null }].
    The spread comes after [id], so a stored field of that name wins. *)
Definition event_object (id : jsstring) (data : gmap jsstring fvalue)
  : result (gmap jsstring json) :=
  match toDate_toISOString (data !! js "eventDate") with
  | Err e => Err e
  | Ok eventDate =>
      match toDate_toISOString (data !! js "createdAt") with
      | Err e => Err e
      | Ok createdAt =>
          Ok (<[js "createdAt" := or_null createdAt]>
                (<[js "eventDate" := or_null (before_T <$> eventDate)]>
                   ((fvalue_json <$> data) ∪ {[ js "id" := JStr id ]})))
      end
  end.

(** [snapshot.forEach(doc => events.push(...))] *)
Fixpoint event_objects (docs : list (jsstring * gmap jsstring fvalue))
  : result (list (gmap jsstring json)) :=
  match docs with
  | [] => Ok []
  | (id, data) :: rest =>
      match event_object id data with
      | Err e => Err e
      | Ok o =>
          match event_objects rest with
          | Err e => Err e
          | Ok os => Ok (o :: os)
          end
      end
  end.

(** [app.get('/api/events', ...)]; [snapshot] is what the ordered query
    comes to: the documents in the order Firestore returns them, or a
    failure. *)
Definition get_events (snapshot : result (list (jsstring * gmap jsstring fvalue)))
  : response :=
  match
    (match snapshot with
     | Err e => Err e
     | Ok docs => event_objects docs
     end)
  with
  | Ok events => res_json (JArr ((fun o => JObj (map_to_list o)) <$> events))
  | Err _ => res_status_json 500 (error_body "Error loading events from database.")
  end.

End EventList.

End Firestore.

(** * The session revision *)

Module Session.

(** [cookie.maxAge]: one hour in milliseconds *)
Definition cookie_maxAge : Z := 1000 * 60 * 60.

(** [isAuthenticated(req, res, next)]: [next] is the rest of the route. *)
Definition isAuthenticated {A} (req : Request)
    (unauthorized : response -> A) (next : World -> A * World)
  : World -> A * World :=
  fun w =>
    match req_session req with
    | Some s =>
        if isAuthenticated s then next w
        else
          (unauthorized
             (res_status_json 401 (error_body "Unauthorized. Please log in first.")),
           add_console LWarn (js "Unauthorized access attempt blocked.") w)
    | None =>
        (unauthorized
           (res_status_json 401 (error_body "Unauthorized. Please log in first.")),
         add_console LWarn (js "Unauthorized access attempt blocked.") w)
    end.

Section Handlers.

Variable Date_parse : jsstring -> option Z.

Definition eventDate_timestamp (raw : jsvalue) : result fvalue :=
  Timestamp_fromDate (Date_parse (ToString_value raw ++ js "T00:00:00Z")).

(** The handler of [POST /api/events]. *)
Definition post_events (env : Env) (req : Request) : World -> response * World :=
  fun w0 =>
  handle
    (let eventData := req_body req in
     let uploadedFile := req_file req in
     if negb (truthy eventData) || negb (truthy (prop eventData FIELD_TITLE))
        || negb (truthy (prop eventData FIELD_DATE))
     then ret (res_status_json 400 (message false "Title and Date are required fields."))
     else
       let! imageUrl :=
         match uploadedFile with
         | Some f => let! url := uploadToGcs env f in ret (JStr url)
         | None => ret JNull
         end in
       if truthy (prop eventData FIELD_DATE) then
         match eventDate_timestamp (prop eventData FIELD_DATE) with
         | Err _ =>
             ret (res_status_json 400
                    (message false "Invalid date format. Please use YYYY-MM-DD."))
         | Ok eventDateTimestamp =>
             let newEvent :=
               text_fields eventData eventDateTimestamp
               ++ [(js "imageUrl", PVal (VJson imageUrl));
                   (js "createdAt", PServerTimestamp)] in
             let! id := collection_add env newEvent in
             console_log (js "New event added to Firestore with ID:") ;;;
             ret (res_status_json 201
                    (JObj [(js "success", JBool true);
                           (js "message", JStr (js "Event added successfully."));
                           (js "id", JStr id)]))
         end
       else ret (res_status_json 400 (message false "Date is a required field.")))
    (js "Error in POST /api/events:")
    (message false "Error adding event.")
    (add_console LLog (js "API POST /api/events called") w0).

(** [imageUrl] of the update payload after the two clean-up passes:
    an [undefined] entry is dropped from the payload, a falsy one
    becomes [FieldValue.delete()]. *)
Definition clean_payload (imageUrlToUpdate : option fvalue)
    (updatePayload : list (jsstring * pvalue)) : list (jsstring * pvalue) :=
  let pass1 :=
    omap (fun kv =>
            match snd kv with
            | PUndefined =>
                if bool_decide (fst kv = js "imageUrl")
                   && is_null imageUrlToUpdate
                then Some (fst kv, PDelete)
                else None
            | _ => Some kv
            end) updatePayload in
  if negb (truthy_field imageUrlToUpdate)
  then (fun kv => if bool_decide (fst kv = js "imageUrl")
                  then (fst kv, PDelete) else kv) <$> pass1
  else pass1.

Definition pvalue_of (v : option fvalue) : pvalue :=
  match v with Some x => PVal x | None => PUndefined end.

(** The handler of [PUT /api/events/:id]. *)
Definition put_event (env : Env) (req : Request) : World -> response * World :=
  fun w0 =>
  let eventId := params_id req in
  let eventData := req_body req in
  let newImageFile := req_file req in
  let w1 := add_console LLog (js "API PUT /api/events/:id called") w0 in
  if negb (truthy_str eventId) then
    (res_status_json 400 (error_body "Event ID missing."), w1)
  else if negb (truthy eventData) || negb (typeof_object eventData)
          || negb (truthy (prop eventData FIELD_TITLE))
          || negb (truthy (prop eventData FIELD_DATE))
  then (res_status_json 400 (message false "Invalid data or Title/Date missing."), w1)
  else
    handle
      (let! doc := doc_get env eventId in
       match doc with
       | None => ret (res_status_json 404 (message false "Event not found."))
       | Some existingData =>
           let! imageUrlToUpdate :=
             match newImageFile with
             | Some f =>
                 console_log (js "Processing new image upload for update:") ;;;
                 (if truthy_field (existingData !! js "imageUrl")
                  then deleteFromGcs env (existingData !! js "imageUrl")
                  else ret tt) ;;;
                 let! url := uploadToGcs env f in
                 console_log (js "New image uploaded, URL:") ;;;
                 ret (Some (VJson (JStr url)))
             | None => ret (existingData !! js "imageUrl")
             end in
           if truthy (prop eventData FIELD_DATE) then
             match eventDate_timestamp (prop eventData FIELD_DATE) with
             | Err _ =>
                 ret (res_status_json 400
                        (message false "Invalid date format. Please use YYYY-MM-DD."))
             | Ok eventDateTimestamp =>
                 let updatePayload :=
                   clean_payload imageUrlToUpdate
                     (text_fields eventData eventDateTimestamp
                      ++ [(js "imageUrl", pvalue_of imageUrlToUpdate)]) in
                 doc_update env eventId updatePayload ;;;
                 console_log (js "Event successfully updated.") ;;;
                 ret (res_json (message true "Event updated successfully."))
             end
           else ret (res_status_json 400 (message false "Date is a required field."))
       end)
      (js "Error in PUT /api/events/:id:")
      (message false "Error updating event.")
      w1.

(** The handler of [DELETE /api/events/:id]. *)
Definition delete_event (env : Env) (req : Request) : World -> response * World :=
  fun w0 =>
  let eventId := params_id req in
  let w1 := add_console LLog (js "API DELETE /api/events/:id called") w0 in
  if negb (truthy_str eventId) then
    (res_status_json 400 (error_body "Event ID missing."), w1)
  else
    handle
      (let! doc := doc_get env eventId in
       match doc with
       | Some eventData =>
           (if truthy_field (eventData !! js "imageUrl")
            then deleteFromGcs env (eventData !! js "imageUrl")
            else ret tt) ;;;
           doc_delete env eventId ;;;
           console_log (js "Event successfully deleted from Firestore.") ;;;
           ret (res_json (message true "Event deleted successfully."))
       | None =>
           console_log (js "Event not found for deletion.") ;;;
           ret (res_status_json 404 (message false "Event not found."))
       end)
      (js "Error in DELETE /api/events/:id:")
      (message false "Error deleting event.")
      w1.

(** The handler of [DELETE /api/events/:id/image]. *)
Definition delete_event_image (env : Env) (req : Request)
  : World -> response * World :=
  fun w0 =>
  let eventId := params_id req in
  let w1 := add_console LLog (js "API DELETE /api/events/:id/image called") w0 in
  if negb (truthy_str eventId) then
    (res_status_json 400 (error_body "Event ID missing."), w1)
  else
    handle
      (let! doc := doc_get env eventId in
       match doc with
       | None => ret (res_status_json 404 (message false "Event not found."))
       | Some eventData =>
           if negb (truthy_field (eventData !! js "imageUrl")) then
             console_log (js "Event has no image to delete.") ;;;
             ret (res_json (message true "No image found for this event."))
           else
             deleteFromGcs env (eventData !! js "imageUrl") ;;;
             doc_update env eventId [(js "imageUrl", PDelete)] ;;;
             console_log (js "Image for event deleted successfully.") ;;;
             ret (res_json (message true "Image deleted successfully."))
       end)
      (js "Error in DELETE /api/events/:id/image:")
      (message false "Error deleting image.")
      w1.

(** The four mutating routes: [isAuthenticated], then multer where the
    route has it, then the handler. *)
Definition with_multer (h : Request -> World -> response * World)
    (req : Request) (w : World) : result response * World :=
  match multer_single req with
  | Err e => (Err e, w)
  | Ok req' => let '(r, w') := h req' w in (Ok r, w')
  end.

Definition without_multer (h : Request -> World -> response * World)
    (req : Request) (w : World) : result response * World :=
  let '(r, w') := h req w in (Ok r, w').

Inductive mutation : Type :=
| CreateEvent
| UpdateEvent
| DeleteEvent
| DeleteEventImage.

Definition route (m : mutation) (env : Env) (req : Request)
  : World -> result response * World :=
  isAuthenticated req Ok
    (match m with
     | CreateEvent => with_multer (post_events env) req
     | UpdateEvent => with_multer (put_event env) req
     | DeleteEvent => without_multer (delete_event env) req
     | DeleteEventImage => without_multer (delete_event_image env) req
     end).

End Handlers.

(** What becomes of a callback handed to a library: it is called, with
    a value, or it never is. *)
Inductive callback (A : Type) : Type :=
| Called (a : A)
| NeverCalled.
Arguments Called {A} a.
Arguments NeverCalled {A}.

(** [req.session.save(callback)] with the store the server configures,
    [FirestoreStore]: the session of this request goes to the store with
    the expiry its cookie has, [maxAge] from now, and the callback is
    called without an error.  When the store rejects the write, nothing
    is reported back: the callback is never called. *)
Definition session_save (env : Env) (sid : jsstring) (s : SessionData)
  : M (callback (option jsstring)) :=
  catch
    (backend (CSessionSave sid) (session_save_error env)
       (fun w =>
          (Ok (Called None),
           set_sessions (insert sid (s, (now env + cookie_maxAge)%Z)) w)))
    (fun _ => ret NeverCalled).

(** [app.post('/api/login', ...)]; outside any [try], so what throws goes
    to the framework.  The answer is sent from the callback of the save:
    [None] is a request that is never answered. *)
Definition login (APP_PASSWORD : secret) (env : Env) (req : Request)
  : M (option response) :=
  console_log (js "API POST /api/login called") ;;;
  match req_body req with
  | None | Some JNull => throw (js "Cannot destructure property of req.body")
  | Some _ =>
      let password := prop (req_body req) (js "password") in
      if negb (truthy_opt APP_PASSWORD) then
        console_error (js "APP_PASSWORD is not configured!") ;;;
        ret (Some (res_status_json 500 (message false "Server configuration error.")))
      else if truthy password && strict_eq_str password (default [] APP_PASSWORD) then
        match req_session req with
        | None => throw (js "Cannot set properties of undefined")
        | Some _ =>
            let session :=
              Session_ true (Some (JObj [(js "role", JStr (js "admin"))])) in
            console_log (js "Login successful, session created/updated:") ;;;
            let! saved := session_save env (sessionID req) session in
            match saved with
            | Called (Some err) =>
                console_error (js "Session save error:") ;;;
                ret (Some (res_status_json 500
                             (message false "Session could not be saved.")))
            | Called None => ret (Some (res_json (message true "Login successful.")))
            | NeverCalled => ret None
            end
        end
      else
        console_log (js "Login failed: Incorrect password") ;;;
        ret (Some (res_status_json 401 (message false "Invalid password.")))
  end.

(** [app.get('/api/auth/status', ...)]; a [user] that is [undefined]
    is left out of the JSON text. *)
Definition auth_status (req : Request) : M response :=
  match req_session req with
  | Some (Session_ true user) =>
      console_log (js "Auth status check: User is authenticated") ;;;
      ret (res_json
             (JObj ((js "loggedIn", JBool true)
                    :: match user with
                       | Some u => [(js "user", u)]
                       | None => []
                       end)))
  | _ =>
      console_log (js "Auth status check: User is not authenticated") ;;;
      ret (res_json (JObj [(js "loggedIn", JBool false)]))
  end.

End Session.

(** * The import script

    [migrate.js] reads the response sheet once and writes one record per
    row to the [events] collection, in batches. *)

Module Migrate.

Definition HEADER_ROW : nat := 1.

(** [fieldMapping]: the field a sheet column is imported as. *)
Definition fieldMapping : list (jsstring * jsstring) := [
  (js "Event Titel", js "title");
  (js "Wann findet der Event statt?", js "eventDate");
  (js "Wann starter der Event?", js "startTime");
  (js "Wann ist der Event zu Ende?", js "endTime");
  (js "Um was geht es bei dem Event?", js "description");
  (js "Welche Ressourcen brauchst du?", js "resources");
  (js "Wer ist f" ++ [252] ++ js "r den Event Verantwortlich?", js "responsible");
  (js "Event Typ", js "eventType");
  (js "Zusatzinfo Teilnehmer", js "participantInfo")
].

(** The source text of a built-in function, which is what the function
    gives when it is used as a property name. *)
Definition native_function (name : jsstring) : jsstring :=
  js "function " ++ name ++ js "() { [native code] }".

(** The properties [fieldMapping], an object literal, inherits from
    [Object.prototype], each with the text its value gives as a property
    name: built-in functions, and the prototype itself under
    [__proto__]. *)
Definition Object_prototype : list (jsstring * jsstring) := [
  (js "constructor", native_function (js "Object"));
  (js "__defineGetter__", native_function (js "__defineGetter__"));
  (js "__defineSetter__", native_function (js "__defineSetter__"));
  (js "hasOwnProperty", native_function (js "hasOwnProperty"));
  (js "__lookupGetter__", native_function (js "__lookupGetter__"));
  (js "__lookupSetter__", native_function (js "__lookupSetter__"));
  (js "isPrototypeOf", native_function (js "isPrototypeOf"));
  (js "propertyIsEnumerable", native_function (js "propertyIsEnumerable"));
  (js "toString", native_function (js "toString"));
  (js "valueOf", native_function (js "valueOf"));
  (js "__proto__", js "[object Object]");
  (js "toLocaleString", native_function (js "toLocaleString"))
].

(** What [fieldMapping[header]] is when it is not [undefined]: the
    string of an own property, or an inherited function or object, kept
    as the text it gives as a property name. *)
Inductive mapping : Type :=
| Field (name : jsstring)
| Inherited (key : jsstring).

(** [fieldMapping[header]]: own properties first, then the prototype. *)
Definition field_of (header : jsstring) : option mapping :=
  match List.find (fun kv => bool_decide (fst kv = header)) fieldMapping with
  | Some kv => Some (Field (snd kv))
  | None =>
      match List.find (fun kv => bool_decide (fst kv = header)) Object_prototype with
      | Some kv => Some (Inherited (snd kv))
      | None => None
      end
  end.

(** Truthiness of such a value. *)
Definition truthy_mapping (f : mapping) : bool :=
  match f with
  | Field name => truthy_str name
  | Inherited _ => true
  end.

(** [firestoreField === s] for a string [s]: an object is no string. *)
Definition strict_eq_mapping (f : mapping) (s : jsstring) : bool :=
  match f with
  | Field name => bool_decide (name = s)
  | Inherited _ => false
  end.

(** The name [eventObject[firestoreField]] assigns to. *)
Definition property_key (f : mapping) : jsstring :=
  match f with
  | Field name => name
  | Inherited key => key
  end.

(** [Number(s)] for a text of decimal digits, which the captures of the
    date patterns are. *)
Definition Number_of_digits (s : jsstring) : Z :=
  fold_left (fun acc c => 10 * acc + digit_value c)%Z s 0%Z.

Section ImportData.

(** [Date.UTC(year, month, day)] and [new Date(s).getTime()] of the
    host: time values in milliseconds, [None] for NaN. *)
Variable Date_UTC : Z -> Z -> Z -> option Z.
Variable Date_parse : jsstring -> option Z.

(** [new Date(Date.UTC(year, month - 1, day))] for three captures of a
    date pattern, returned unless it is an Invalid Date. *)
Definition utc_date (year month day : jsstring) : completion (option Z) :=
  match Date_UTC (Number_of_digits year) (Number_of_digits month - 1)
          (Number_of_digits day) with
  | Some t => Return (Some t)
  | None => Normal
  end.

(** [parseSheetDate(dateValue)]: the date as its time value, [None] for
    [null].  Nothing inside its [try] blocks throws. *)
Definition parseSheetDate (dateValue : jsstring) : completion (option Z) :=
  (if negb (truthy_str dateValue) then Return None else Normal) ;;
  let dateStr := trim dateValue in
  (if negb (truthy_str dateStr) then Return None else Normal) ;;
  (* DD.MM.YYYY *)
  (match String_match dateStr re_dmy with
   | Some parts => utc_date (group parts 3) (group parts 2) (group parts 1)
   | None => Normal
   end) ;;
  (* YYYY-MM-DD *)
  (match String_match dateStr re_ymd with
   | Some parts => utc_date (group parts 1) (group parts 2) (group parts 3)
   | None => Normal
   end) ;;
  (* MM/DD/YYYY *)
  (match String_match dateStr re_mdy with
   | Some parts => utc_date (group parts 3) (group parts 1) (group parts 2)
   | None => Normal
   end) ;;
  (* fallback *)
  (match Date_parse dateStr with
   | Some t => Return (Some t)
   | None => Normal
   end) ;;
  (* console.warn(...) *)
  Return None.

(** [String(row[index] || '').trim()] *)
Definition sheetValue_at (row : list Sheets.cell) (index : nat) : jsstring :=
  trim match row !! index with
       | Some (Some s) => s
       | _ => []
       end.

(** [row.every(cell => cell === null || String(cell).trim() === '')] *)
Definition blank_row (row : list Sheets.cell) : bool :=
  forallb (fun cell =>
             match cell with
             | None => true
             | Some s => negb (truthy_str (trim s))
             end) row.

(** [headers.forEach((header, index) => ...)] for one row, from the
    header of a given index on: the assignments to [eventObject] in the
    order they are made, and [hasRequiredData].  The conversion to a
    [Timestamp] may throw. *)
Fixpoint row_fields (row : list Sheets.cell) (headers : list jsstring) (index : nat)
  : result (list (jsstring * pvalue) * bool) :=
  match headers with
  | [] => Ok ([], false)
  | header :: rest =>
      let continue_with (entry : list (jsstring * pvalue)) (has : bool) :=
        match row_fields row rest (S index) with
        | Err e => Err e
        | Ok (entries, hasRequiredData) =>
            Ok (entry ++ entries, has || hasRequiredData)
        end in
      match field_of header with
      | Some firestoreField =>
          if truthy_mapping firestoreField && (index <? length row)%nat then
            let sheetValue := sheetValue_at row index in
            if strict_eq_mapping firestoreField (js "eventDate") then
              match call None (parseSheetDate sheetValue) with
              | Err e => Err e
              | Ok (Some parsedDate) =>
                  match Timestamp_fromDate (Some parsedDate) with
                  | Err e => Err e
                  | Ok ts =>
                      continue_with [(property_key firestoreField, PVal ts)] true
                  end
              | Ok None =>
                  continue_with
                    [(property_key firestoreField, PVal (VJson JNull))] false
              end
            else
              continue_with
                [(property_key firestoreField, PVal (VJson (JStr sheetValue)))]
                (strict_eq_mapping firestoreField (js "title")
                 && truthy_str sheetValue)
          else continue_with [] false
      | None => continue_with [] false
      end
  end.

Definition batchSize : nat := 400.

(** The loop of [importData]: the writes of the open batch, the two
    counters, and the batches committed so far. *)
Record progress : Type := {
  batch : list (list (jsstring * pvalue));
  writeCounter : nat;
  batchCounter : nat;
  committed : list (list (list (jsstring * pvalue)))
}.

(** Which [batch.commit()] fails, by the number of commits before it. *)
Variable commit_error : nat -> option jsstring.

(** [await batch.commit(); batch = db.batch(); batchCounter = 0] *)
Definition commit (p : progress) : progress * option jsstring :=
  match commit_error (length (committed p)) with
  | Some e => (p, Some e)
  | None =>
      ({| batch := []; writeCounter := writeCounter p; batchCounter := 0;
          committed := committed p ++ [batch p] |}, None)
  end.

(** The body of [for (const row of dataRows)]; [Some e] is an exception,
    which ends the import. *)
Definition import_row (headers : list jsstring) (p : progress)
    (row : list Sheets.cell) : progress * option jsstring :=
  if blank_row row then (p, None)
  else
    match row_fields row headers 0 with
    | Err e => (p, Some e)
    | Ok (fields, hasRequiredData) =>
        let eventObject := fields ++ [(js "createdAt", PServerTimestamp)] in
        if hasRequiredData then
          let p1 :=
            {| batch := batch p ++ [eventObject];
               writeCounter := S (writeCounter p);
               batchCounter := S (batchCounter p);
               committed := committed p |} in
          if (batchSize <=? batchCounter p1)%nat then commit p1 else (p1, None)
        else (* console.warn(...) *) (p, None)
    end.

Fixpoint import_rows (headers : list jsstring) (p : progress)
    (dataRows : list (list Sheets.cell)) : progress * option jsstring :=
  match dataRows with
  | [] => (p, None)
  | row :: rest =>
      match import_row headers p row with
      | (p1, Some e) => (p1, Some e)
      | (p1, None) => import_rows headers p1 rest
      end
  end.

(** [String(h).trim()] of a header cell *)
Definition header_text (h : Sheets.cell) : jsstring :=
  trim match h with Some s => s | None => js "null" end.

(** [importData()]: the batches committed, the number of events counted
    as written, and the exception that ended the import, if any.
    [values] is what reading the sheet comes to. *)
Definition importData (values : result (option (list (list Sheets.cell))))
  : list (list (list (jsstring * pvalue))) * nat * option jsstring :=
  match values with
  | Err e => ([], 0%nat, Some e)
  | Ok None => ([], 0%nat, None)
  | Ok (Some rows) =>
      if (length rows <=? HEADER_ROW)%nat then ([], 0%nat, None)
      else
        let headers := header_text <$> default [] (rows !! (HEADER_ROW - 1)%nat) in
        let dataRows := drop HEADER_ROW rows in
        match import_rows headers
                {| batch := []; writeCounter := 0; batchCounter := 0;
                   committed := [] |}
                dataRows with
        | (p, Some e) => (committed p, writeCounter p, Some e)
        | (p, None) =>
            if (0 <? batchCounter p)%nat then
              match commit p with
              | (p1, Some e) => (committed p1, writeCounter p1, Some e)
              | (p1, None) => (committed p1, writeCounter p1, None)
              end
            else (committed p, writeCounter p, None)
        end
  end.

End ImportData.

End Migrate.

(** * Notions the properties are stated with *)

(** A request carries a valid authenticated session. *)
Definition authenticated (req : Request) : bool :=
  match req_session req with
  | Some s => isAuthenticated s
  | None => false
  end.

(** The server secret is configured: set, and not the empty string. *)
Definition configured (APP_PASSWORD : secret) : bool := truthy_opt APP_PASSWORD.

(** The world but for its console. *)
Definition same_stores (w w' : World) : Prop :=
  events w' = events w /\ bucket w' = bucket w /\ sessions w' = sessions w
  /\ issued w' = issued w.

(** The date normalizer in the words of its description: four
    strategies, the first that succeeds wins. *)
Definition numeric_form (re : regex) (iy im id : nat) (s : jsstring)
  : option jsstring :=
  match String_match s re with
  | Some parts =>
      let y := parseInt (group parts iy) in
      let m := parseInt (group parts im) in
      let d := parseInt (group parts id) in
      if Sheets.in_range y m d then Some (Sheets.ymd_text y m d) else None
  | None => None
  end.

Definition generic_form (new_Date : jsstring -> result (option LocalDate))
    (s : jsstring) : option jsstring :=
  match new_Date s with
  | Ok (Some pd) =>
      Some (Number_toString (getFullYear pd) ++ [45]
            ++ Sheets.pad2 (Number_toString (getMonth pd + 1)) ++ [45]
            ++ Sheets.pad2 (Number_toString (getDate pd)))
  | _ => None
  end.

Definition strategies (new_Date : jsstring -> result (option LocalDate))
  : list (jsstring -> option jsstring) :=
  [ numeric_form re_dmy 3 2 1;
    numeric_form re_ymd 1 2 3;
    numeric_form re_mdy 3 1 2;
    generic_form new_Date ].

Fixpoint first_success (fs : list (jsstring -> option jsstring)) (s : jsstring)
  : option jsstring :=
  match fs with
  | [] => None
  | f :: r => match f s with Some x => Some x | None => first_success r s end
  end.

Definition normalize_spec (new_Date : jsstring -> result (option LocalDate))
    (dateValue : jsstring) : option jsstring :=
  if truthy_str (trim dateValue)
  then first_success (strategies new_Date) (trim dateValue)
  else None.

(** The one- or two-digit texts of a day or month number: as printed, or
    with a leading zero. *)
Definition two_digits (n : Z) : jsstring :=
  if (n <? 10)%Z then 48 :: Number_toString n else Number_toString n.

Definition renderings (n : Z) : list jsstring :=
  [Number_toString n; two_digits n].

(** The canonical [YYYY-MM-DD] text of a calendar date. *)
Definition canonical (y m d : Z) : jsstring :=
  Number_toString y ++ [45] ++ two_digits m ++ [45] ++ two_digits d.

(** The names of the nine fields an update overwrites. *)
Definition mutable_fields : list jsstring :=
  [ js "title"; js "eventDate"; js "startTime"; js "endTime"; js "description";
    js "resources"; js "responsible"; js "eventType"; js "participantInfo" ].

(** A generic date parser for examples: it knows the ISO date with an
    explicit midnight UTC that the create and update handlers build, for
    one day, and nothing else. *)
Definition sample_Date_parse (s : jsstring) : option Z :=
  if bool_decide (s = js "2025-06-01T00:00:00Z") then Some 1748736000000%Z
  else None.

Definition empty_world : World :=
  {| events := ∅; bucket := ∅; sessions := ∅; console := []; issued := [] |}.

Definition quiet_env (now : Z) (id : jsstring) : Env :=
  {| now := now; auto_id := id;
     doc_get_error := None; add_error := None; doc_update_error := None;
     doc_delete_error := None; file_write_error := None;
     file_makePublic_error := None; file_delete_error := None;
     session_save_error := None |}.

(** A computation that leaves the event store as it found it. *)
Definition keeps_events {A} (m : M A) : Prop :=
  forall w r w', m w = (r, w') -> events w' = events w.

(** The conversion of the raw date text to a [Timestamp] throws. *)
Definition unparseable (Date_parse : jsstring -> option Z) (raw : jsvalue) : Prop :=
  exists e, Firestore.eventDate_timestamp Date_parse raw = Err e.

(** The two calls of an upload go through. *)
Definition upload_succeeds (env : Env) : Prop :=
  file_write_error env = None /\ file_makePublic_error env = None.

(** The answer to a date that cannot be converted. *)
Definition invalid_date : response :=
  Response 400 (message false "Invalid date format. Please use YYYY-MM-DD.").

(** The stored image reference is one [deleteFromGcs] can take: absent or
    falsy, or a string. *)
Definition image_reference_ok (doc : gmap jsstring fvalue) : Prop :=
  truthy_field (doc !! js "imageUrl") = true ->
  exists url, doc !! js "imageUrl" = Some (VJson (JStr url)).

(** What the update of the session revision writes for [imageUrl]. *)
Definition image_entry (img : option fvalue) : list (jsstring * pvalue) :=
  match img with
  | None => []
  | Some v =>
      if truthy_field img then [(js "imageUrl", PVal v)]
      else [(js "imageUrl", PDelete)]
  end.

(** The reference the update of the session revision goes on with: the
    URL of the image the request brings, or the one the record holds. *)
Definition image_to_update (env : Env) (req : Request) (doc : gmap jsstring fvalue)
  : option fvalue :=
  match req_file req with
  | Some f =>
      Some (VJson (JStr (gcsPrefix ++ uniqueFilename (now env) (originalname f))))
  | None => doc !! js "imageUrl"
  end.

(** Digit texts of a length between two bounds. *)
Definition digit_text (lo hi : nat) (s : jsstring) : Prop :=
  (lo <= length s <= hi)%nat /\ forallb isDigit s = true.

(** What is checked, by evaluation, of every day and month number and of
    every four-digit year: the shape of its texts, that [parseInt] reads
    them back, and that padding gives the two-digit text. *)
Definition small_ok (n : Z) : bool :=
  forallb (fun D => ((length D =? 1)%nat || (length D =? 2)%nat)
                    && forallb isDigit D
                    && bool_decide (parseInt D = Some n)
                    && bool_decide (Sheets.pad2 (Number_toString n) = two_digits n))
          (renderings n).

Definition year_ok (y : Z) : bool :=
  (length (Number_toString y) =? 4)%nat
  && forallb isDigit (Number_toString y)
  && bool_decide (parseInt (Number_toString y) = Some y).

(** The order of the event list. *)
Definition startTime (e : Sheets.event) : jsstring :=
  default [] (Sheets.column Sheets.COL_START_TIME (Sheets.columns e)).

Definition dated (e : Sheets.event) : bool := truthy_opt (Sheets.sortableDate e).

Definition date_text (e : Sheets.event) : jsstring := default [] (Sheets.sortableDate e).

(** [a] may stand before [b]: both dated and [a]'s date text smaller, or
    the same date text and [a]'s start time not greater; or [b] undated. *)
Definition listed_in_order (a b : Sheets.event) : Prop :=
  if dated a then
    if dated b then
      str_compare (date_text a) (date_text b) = Lt
      \/ (date_text a = date_text b
          /\ str_compare (startTime a) (startTime b) <> Gt)
    else True
  else dated b = false.

(** The order of calendar dates. *)
Definition date_compare (a b : Z * Z * Z) : comparison :=
  let '(y, m, d) := a in
  let '(y', m', d') := b in
  match (y ?= y')%Z with
  | Eq => match (m ?= m')%Z with Eq => (d ?= d')%Z | c => c end
  | c => c
  end.

(** What is checked, by evaluation, of every pair of two-digit numbers
    and of every four-digit year: two-digit texts compare as their
    numbers do, and the text of a year is that of its hundreds followed
    by that of the rest. *)
Definition pair_ok (a b : Z) : bool :=
  (length (two_digits a) =? 2)%nat
  && match str_compare (two_digits a) (two_digits b), (a ?= b)%Z with
     | Eq, Eq | Lt, Lt | Gt, Gt => true
     | _, _ => false
     end.

Definition year_split_ok (y : Z) : bool :=
  bool_decide (Number_toString y = two_digits (y / 100) ++ two_digits (y mod 100)).

(** ** Example inputs *)

Definition upload_a : File :=
  {| buffer := [1; 2; 3]; originalname := js "a b.png"; mimetype := js "image/png" |}.
Definition upload_b : File :=
  {| buffer := [4; 5]; originalname := js "a_b.png"; mimetype := js "image/png" |}.

Definition event_body (title date : string) : jsvalue :=
  Some (JObj [(js "title", JStr (js title)); (js "eventDate", JStr (js date))]).

Definition signed_in : option SessionData :=
  Some (Session_ true (Some (JObj [(js "role", JStr (js "admin"))]))).

Definition anonymous_create : Request :=
  {| params_id := [];
     req_body := Some (JObj [(js "title", JStr (js "Meeting"));
                             (js "eventDate", JStr (js "2025-06-01"))]);
     req_file := None;
     req_session := Some (Session_ false None);
     sessionID := js "s1" |}.

Definition login_request (password : json) : Request :=
  {| params_id := [];
     req_body := Some (JObj [(js "password", password)]);
     req_file := None;
     req_session := Some (Session_ false None);
     sessionID := js "s1" |}.

Definition failing_session_store : Env :=
  {| now := 0; auto_id := [];
     doc_get_error := None; add_error := None; doc_update_error := None;
     doc_delete_error := None; file_write_error := None;
     file_makePublic_error := None; file_delete_error := None;
     session_save_error := Some (js "UNAVAILABLE") |}.

Definition bad_date_create : Request :=
  {| params_id := [];
     req_body := event_body "Meeting" "not-a-date";
     req_file := None;
     req_session := signed_in;
     sessionID := js "s1" |}.

Definition update_unknown : Request :=
  {| params_id := js "missing";
     req_body := event_body "Meeting" "not-a-date";
     req_file := None;
     req_session := signed_in;
     sessionID := js "s1" |}.

Definition old_image : jsstring :=
  js "https://storage.googleapis.com/ebaplanner_event_images/1-old.png".

Definition stored_event : gmap jsstring fvalue :=
  list_to_map
    [ (js "title", VJson (JStr (js "Meeting")));
      (js "eventDate", VTimestamp 1748736000 0);
      (js "imageUrl", VJson (JStr old_image));
      (js "createdAt", VTimestamp 1700000000 0) ].

Definition stored_world : World :=
  {| events := {[ js "e1" := stored_event ]};
     bucket := {[ js "1-old.png" := Blob [7] (js "image/png") true ]};
     sessions := ∅; console := []; issued := [] |}.

Definition update_request (file : option File) : Request :=
  {| params_id := js "e1";
     req_body := event_body "Retro" "2025-06-01";
     req_file := file;
     req_session := signed_in;
     sessionID := js "s1" |}.

Definition bad_date_update : Request :=
  {| params_id := js "e1";
     req_body := event_body "Retro" "not-a-date";
     req_file := None;
     req_session := signed_in;
     sessionID := js "s1" |}.

Definition sheet_bad_date : jsvalue :=
  Some (JObj [(Sheets.COL_DATE, JStr (js "not-a-date"));
              (Sheets.COL_TITLE, JStr (js "Meeting"))]).

Definition untitled_create : Request :=
  {| params_id := [];
     req_body := Some (JObj [(js "eventDate", JStr (js "not-a-date"))]);
     req_file := None;
     req_session := signed_in;
     sessionID := js "s1" |}.

Definition bad_date_with_image : Request :=
  {| params_id := [];
     req_body := event_body "Meeting" "not-a-date";
     req_file := Some upload_a;
     req_session := signed_in;
     sessionID := js "s1" |}.

Definition failing_upload : Env :=
  {| now := 0; auto_id := js "e1";
     doc_get_error := None; add_error := None; doc_update_error := None;
     doc_delete_error := None; file_write_error := Some (js "UNAVAILABLE");
     file_makePublic_error := None; file_delete_error := None;
     session_save_error := None |}.

Definition reads (rows : list (list Sheets.cell)) : Sheets.SheetsReads :=
  {| Sheets.client := Ok tt;
     Sheets.headerResponse := Ok (Some [Sheets.COLUMN_ORDER]);
     Sheets.dataResponse := Ok (Some rows) |}.

Definition early_rows : list (list Sheets.cell) :=
  [ [Some (js "0500-01-01"); Some (js "Founding")];
    [Some (js "2025-01-01"); Some (js "New Year")] ].

Definition example_rows : list (list Sheets.cell) :=
  [ [Some (js "2025-01-02"); Some (js "Second")];
    [Some (js "someday"); Some (js "Undated")];
    [Some (js "2025-01-01"); Some (js "First")] ].

(** A host whose generic parser reads the ISO date of the first day of
    the year 500, as ECMAScript has it, and nothing else. *)
Definition host_Date (s : jsstring) : result (option LocalDate) :=
  if bool_decide (s = js "0500-01-01")
  then Ok (Some {| getFullYear := 500; getMonth := 0; getDate := 1 |})
  else Ok None.

(** ** Notions of the further properties *)

(** The digits of a decimal text read from the left, as [parseInt]
    reads them. *)
Definition read_digits (ds : jsstring) (acc : Z) : Z :=
  fold_left (fun acc c => (10 * acc + digit_value c)%Z) ds acc.

(** The number a text of decimal digits denotes. *)
Definition denoted (ds : jsstring) : Z := read_digits ds 0.

(** A row number parameter the handlers compute with exactly: the number
    [parseInt] reads is at most 2^53, so the double that holds it, and
    the double that holds its predecessor, are these integers
    themselves. *)
Definition exact_rowNum (rowNum_param : jsstring) : bool :=
  match parseInt rowNum_param with
  | Some n => (n <=? 9007199254740992)%Z
  | None => true
  end.

(** The range checks of the numeric forms of a date. *)
Definition range_checks (y m d : Z) : Prop :=
  (1900 < y)%Z /\ (1 <= m <= 12)%Z /\ (1 <= d <= 31)%Z.

(** The cell a body gives for a column: its value under the column name,
    or the empty text. *)
Definition column_cell (eventData : jsvalue) (header : jsstring) : json :=
  match prop eventData header with Some v => v | None => JStr [] end.

(** No value of the body under a column name is [null]. *)
Definition no_null_column (eventData : jsvalue) : Prop :=
  forall header, In header Sheets.COLUMN_ORDER -> prop eventData header <> Some JNull.

(** A body the append and the update handler of the spreadsheet revision
    accept. *)
Definition body_accepted (eventData : jsvalue) : bool :=
  truthy eventData && typeof_object eventData
  && negb match eventData with Some j => no_keys j | None => true end.

(** The event read from a data row. *)
Definition row_event (new_Date : jsstring -> result (option LocalDate))
    (headers : list jsstring) (row : list Sheets.cell) (n : Z) : Sheets.event :=
  let cols := Sheets.row_columns headers row in
  Sheets.Event cols
    (normalize_spec new_Date (default [] (Sheets.column Sheets.COL_DATE cols))) n.

(** [e] is read from the data row of index [i], which is row [i + 2] of
    the sheet: the row has data, [e] holds its columns, the date the
    normalizer returns for its date column, and the number of the row. *)
Definition read_from (new_Date : jsstring -> result (option LocalDate))
    (headers : list jsstring) (values : list (list Sheets.cell))
    (e : Sheets.event) (i : nat) : Prop :=
  exists row,
    values !! i = Some row
    /\ Sheets.hasData (Sheets.row_columns headers row) = true
    /\ Sheets.columns e = Sheets.row_columns headers row
    /\ Sheets.parseAndFormatDate new_Date
         (default [] (Sheets.column Sheets.COL_DATE (Sheets.columns e)))
       = Return (Sheets.sortableDate e)
    /\ Sheets.rowNum e = (Z.of_nat i + 2)%Z.

(** Before in the list: in the order of date text and start time, and in
    the order of the sheet among equals. *)
Definition listed_before (a b : Sheets.event) : Prop :=
  listed_in_order a b
  /\ (listed_in_order b a -> (Sheets.rowNum a < Sheets.rowNum b)%Z).

(** What a payload entry leaves in the document. *)
Definition written (env : Env) (pv : pvalue) : option fvalue :=
  match pv with
  | PUndefined => None
  | PVal v => Some v
  | PServerTimestamp => Some (server_timestamp env)
  | PDelete => None
  end.

(** The image reference a create request stores. *)
Definition stored_imageUrl (env : Env) (req : Request) : json :=
  match req_file req with
  | Some f => JStr (gcsPrefix ++ uniqueFilename (now env) (originalname f))
  | None => JNull
  end.

(** The bucket after the upload of the image of a request, if it has
    one. *)
Definition bucket_with_image (env : Env) (req : Request) (b : gmap jsstring blob)
  : gmap jsstring blob :=
  match req_file req with
  | Some f =>
      <[uniqueFilename (now env) (originalname f)
        := Blob (buffer f) (mimetype f) true]> b
  | None => b
  end.

(** The payload of a create request. *)
Definition newEvent (env : Env) (req : Request) (ts : fvalue)
  : list (jsstring * pvalue) :=
  text_fields (req_body req) ts
  ++ [(js "imageUrl", PVal (VJson (stored_imageUrl env req)));
      (js "createdAt", PServerTimestamp)].

(** The names of the eleven fields of a new record. *)
Definition record_fields : list jsstring :=
  mutable_fields ++ [js "imageUrl"; js "createdAt"].

(** The bucket without the object a reference names, when the reference
    is a URL of this bucket with a name after the prefix. *)
Definition bucket_without (url : jsstring) (b : gmap jsstring blob)
  : gmap jsstring blob :=
  let fileName := substring url (length gcsPrefix) in
  if startsWith url gcsPrefix && truthy_str fileName then delete fileName b else b.

(** The bucket without the image of a record. *)
Definition bucket_without_image (doc : gmap jsstring fvalue) (b : gmap jsstring blob)
  : gmap jsstring blob :=
  match doc !! js "imageUrl" with
  | Some (VJson (JStr url)) => bucket_without url b
  | _ => b
  end.

(** Answers of the handlers. *)
Definition created (env : Env) : response :=
  Response 201
    (JObj [(js "success", JBool true);
           (js "message", JStr (js "Event added successfully."));
           (js "id", JStr (auto_id env))]).

Definition fields_required : response :=
  Response 400 (message false "Title and Date are required fields.").

Definition updated : response :=
  Response 200 (message true "Event updated successfully.").

Definition deleted : response :=
  Response 200 (message true "Event deleted successfully.").

Definition not_found : response :=
  Response 404 (message false "Event not found.").

Definition no_image : response :=
  Response 200 (message true "No image found for this event.").

Definition image_deleted : response :=
  Response 200 (message true "Image deleted successfully.").

Definition load_failed : response :=
  Response 500 (error_body "Error loading events from database.").

(** Every value a computation returns has a property. *)
Definition answers {A} (P : A -> Prop) (m : M A) : Prop :=
  forall w a w', m w = (Ok a, w') -> P a.

Definition not_401 (r : response) : Prop := status r <> 401%Z.

(** A stored date field the list can read: missing, [null] or a
    [Timestamp]. *)
Definition date_field_ok (v : option fvalue) : bool :=
  match v with
  | None | Some (VJson JNull) | Some (VTimestamp _ _) => true
  | Some (VJson _) => false
  end.

Definition listable_doc (doc : gmap jsstring fvalue) : bool :=
  date_field_ok (doc !! js "eventDate") && date_field_ok (doc !! js "createdAt").

Definition listable (evs : gmap jsstring (gmap jsstring fvalue)) : Prop :=
  forall id doc, evs !! id = Some doc -> listable_doc doc = true.

(** A computation that keeps the records listable. *)
Definition keeps_listable {A} (m : M A) : Prop :=
  forall w r w', m w = (r, w') -> listable (events w) -> listable (events w').

(** A payload that writes nothing but [Timestamp]s and [null] into the
    two date fields. *)
Definition date_entry_ok (pv : pvalue) : bool :=
  match pv with
  | PVal v => date_field_ok (Some v)
  | PServerTimestamp | PDelete => true
  | PUndefined => false
  end.

Definition dates_payload (payload : list (jsstring * pvalue)) : Prop :=
  forall k pv, In (k, pv) payload ->
    k = js "eventDate" \/ k = js "createdAt" -> date_entry_ok pv = true.

(** What the list shows for a date field: the text of the date, or
    [null]. *)
Definition shown_date (text : Z -> jsstring) (v : option fvalue) : json :=
  match v with
  | Some (VTimestamp seconds nanoseconds) =>
      or_null (Some (text (Timestamp_toMillis seconds nanoseconds)))
  | _ => JNull
  end.

(** *** Further example inputs *)

(** A generic date formatter for examples: it knows the instant that
    [sample_Date_parse] knows. *)
Definition sample_toISOString (ms : Z) : jsstring :=
  if (ms =? 1748736000000)%Z then js "2025-06-01T00:00:00.000Z"
  else js "1970-01-01T00:00:00.000Z".

Definition example_sheets : list Sheets.sheet_properties :=
  [ {| Sheets.title := js "Archiv"; Sheets.sheetId := Some 7%Z |};
    {| Sheets.title := js "Formularantworten 1"; Sheets.sheetId := Some 0%Z |} ].

(** A body that brings a time stamp of its own. *)
Definition forged_time_stamp : jsvalue :=
  Some (JObj [(Sheets.COL_TITLE, JStr (js "Meeting"));
              (Sheets.COL_TIMESTAMP, JStr (js "1999-01-01T00:00:00.000Z"))]).

Definition meeting_request : Request :=
  {| params_id := [];
     req_body := event_body "Meeting" "2025-06-01";
     req_file := Some upload_a;
     req_session := signed_in;
     sessionID := js "s1" |}.

Definition delete_e7 : Request :=
  {| params_id := js "e7"; req_body := None; req_file := None;
     req_session := signed_in; sessionID := js "s1" |}.

Definition replace_bad_date : Request :=
  {| params_id := js "e1";
     req_body := event_body "Retro" "not-a-date";
     req_file := Some upload_b;
     req_session := signed_in;
     sessionID := js "s1" |}.

(** *** The import script *)

(** The records the import script makes of the data rows, in the order
    of the rows, up to the first row whose date cannot be stored. *)
Fixpoint eventObjects (Date_UTC : Z -> Z -> Z -> option Z)
    (Date_parse : jsstring -> option Z) (headers : list jsstring)
    (dataRows : list (list Sheets.cell)) : list (list (jsstring * pvalue)) :=
  match dataRows with
  | [] => []
  | row :: rest =>
      if Migrate.blank_row row then eventObjects Date_UTC Date_parse headers rest
      else
        match Migrate.row_fields Date_UTC Date_parse row headers 0 with
        | Err _ => []
        | Ok (fields, true) =>
            (fields ++ [(js "createdAt", PServerTimestamp)])
              :: eventObjects Date_UTC Date_parse headers rest
        | Ok (_, false) => eventObjects Date_UTC Date_parse headers rest
        end
  end.

(** A cell without content: [null], or white space only. *)
Definition empty_cell (c : Sheets.cell) : Prop :=
  match c with
  | None => True
  | Some s => trim s = []
  end.

(** The trimmed text of the cell a row has in the column of an index;
    the empty text where the row has no such cell or the cell holds
    nothing. *)
Definition cell_text (row : list Sheets.cell) (index : nat) : jsstring :=
  match row !! index with
  | Some (Some s) => trim s
  | _ => []
  end.

(** A row holds a title: in a column headed [Event Titel] it has a cell
    that is not empty. *)
Definition holds_title (headers : list jsstring) (row : list Sheets.cell) : Prop :=
  exists index,
    headers !! index = Some (js "Event Titel")
    /\ (index < length row)%nat
    /\ cell_text row index <> [].

(** A row holds a readable date: in a column headed
    [Wann findet der Event statt?] it has a cell that [parseSheetDate]
    reads as a date. *)
Definition holds_date (Date_UTC : Z -> Z -> Z -> option Z)
    (Date_parse : jsstring -> option Z) (headers : list jsstring)
    (row : list Sheets.cell) : Prop :=
  exists index t,
    headers !! index = Some (js "Wann findet der Event statt?")
    /\ (index < length row)%nat
    /\ Migrate.parseSheetDate Date_UTC Date_parse (cell_text row index)
       = Return (Some t).

(** A batch of the full size. *)
Definition full_batch (b : list (list (jsstring * pvalue))) : Prop :=
  length b = 400%nat.

(** An assignment the import script makes: a [Timestamp] or [null] for
    the date, a text for any other field. *)
Definition import_entry (kv : jsstring * pvalue) : Prop :=
  fst kv <> js "createdAt"
  /\ match snd kv with
     | PVal (VTimestamp _ _) | PVal (VJson JNull) => fst kv = js "eventDate"
     | PVal (VJson (JStr _)) => fst kv <> js "eventDate"
     | _ => False
     end.

(** The trimmed texts of the first row of the sheet. *)
Definition import_headers (rows : list (list Sheets.cell)) : list jsstring :=
  Migrate.header_text <$> default [] (rows !! 0%nat).

(** The number of days from 1 January 1970 to a day of the civil
    calendar, for a month from 1 to 12. *)
Definition days_from_civil (y m d : Z) : Z :=
  let y1 := if (m <=? 2)%Z then (y - 1)%Z else y in
  let era := (y1 / 400)%Z in
  let yoe := (y1 - era * 400)%Z in
  let mp := if (2 <? m)%Z then (m - 3)%Z else (m + 9)%Z in
  let doy := ((153 * mp + 2) / 5 + d - 1)%Z in
  let doe := (yoe * 365 + yoe / 4 - yoe / 100 + doy)%Z in
  (era * 146097 + doe - 719468)%Z.

(** [Date.UTC(year, month, day)] on integers, for examples: a year from
    0 to 99 counts from 1900, months and days outside their range carry
    over, and a time beyond the range of [Date] is NaN. *)
Definition sample_Date_UTC (year month day : Z) : option Z :=
  let full := if ((0 <=? year) && (year <=? 99))%Z then (1900 + year)%Z else year in
  let ym := (full + month / 12)%Z in
  let mn := (month mod 12)%Z in
  let t := ((days_from_civil ym (mn + 1) 1 + day - 1) * 86400000)%Z in
  if (Z.abs t <=? 8640000000000000)%Z then Some t else None.

Definition example_import : list (list Sheets.cell) :=
  [ [Some (js "Wann findet der Event statt?"); Some (js " Event Titel ");
     Some (js "Zeitstempel")];
    [Some (js "01.06.2025"); Some (js "Sommerfest"); Some (js "x")];
    [Some []; Some (js "  "); None];
    [Some (js "bald"); Some []; Some (js "x")];
    [Some (js "99.99.2025"); Some (js "Herbstfest")] ].

(** A sheet with a column whose header is the name of a property every
    object has. *)
Definition example_import_constructor : list (list Sheets.cell) :=
  [ [Some (js "Event Titel"); Some (js "constructor")];
    [Some (js "Sommerfest"); Some (js "x")] ].

(** * Properties *)

Ltac unfold_M :=
  unfold bind, catch, ret, throw, console_log, console_warn, console_error,
    backend in *.

(** ** The password check: configuration before format *)

(** C10.  In [POST /api/auth/check] of the spreadsheet revision and of the
    document-store revision, the test of the server secret stands before
    the test of the body: with the secret unconfigured every request body
    is answered with the 500 configuration error, and a body whose
    [password] is missing or not a string gets its 400 only when the
    secret is configured. *)
Theorem auth_check_configuration_first :
  forall (APP_PASSWORD : secret) (req_body : json),
    req_body <> JNull ->
    (configured APP_PASSWORD = false ->
       Firestore.auth_check APP_PASSWORD (Some req_body)
         = Ok (Response 500 (error_body "Server configuration error."))
       /\ Sheets.auth_check APP_PASSWORD (Some req_body)
         = Ok (Response 500
                 (JObj [(js "error", JStr (js "Server-Konfigurationsfehler."))])))
    /\ (configured APP_PASSWORD = true ->
        typeof_string (prop (Some req_body) (js "password")) = false ->
        Firestore.auth_check APP_PASSWORD (Some req_body)
          = Ok (Response 400 (error_body "Password missing or invalid format."))
        /\ Sheets.auth_check APP_PASSWORD (Some req_body)
          = Ok (Response 400
                  (JObj [(js "error",
                          JStr (js "Passwort fehlt oder ung" ++ [252]
                                ++ js "ltiges Format im Request Body."))]))).
Proof.
  intros APP_PASSWORD req_body Hbody. split.
  - intros Hconf. unfold configured in Hconf.
    unfold Firestore.auth_check, Sheets.auth_check. rewrite Hconf.
    destruct req_body; try contradiction; split; reflexivity.
  - intros Hconf Hty. unfold configured in Hconf.
    unfold Firestore.auth_check, Sheets.auth_check. rewrite Hconf, Hty.
    destruct req_body; try contradiction; split; reflexivity.
Qed.

Lemma auth_check_configuration_first_witness :
  Firestore.auth_check None (Some (JObj []))
    = Ok (Response 500 (error_body "Server configuration error."))
  /\ Firestore.auth_check (Some (js "geheim")) (Some (JObj [(js "password", JNum 7)]))
    = Ok (Response 400 (error_body "Password missing or invalid format.")).
Proof.
  split.
  - apply (auth_check_configuration_first None (JObj [])); [discriminate | reflexivity].
  - apply (auth_check_configuration_first (Some (js "geheim"))
             (JObj [(js "password", JNum 7)])); [discriminate | reflexivity | reflexivity].
Defined.

(** ** What leaves the event store alone *)

Lemma keeps_ret {A} (a : A) : keeps_events (ret a).
Proof. intros w r w' [= <- <-]. reflexivity. Qed.

Lemma keeps_throw {A} (e : jsstring) : keeps_events (@throw A e).
Proof. intros w r w' [= <- <-]. reflexivity. Qed.

Lemma keeps_bind {A B} (m : M A) (k : A -> M B) :
  keeps_events m -> (forall a, keeps_events (k a)) -> keeps_events (bind m k).
Proof.
  intros Hm Hk w r w'. unfold bind.
  destruct (m w) as [[a|e] w1] eqn:E; intros H.
  - rewrite (Hk a _ _ _ H). eapply Hm, E.
  - injection H as <- <-. eapply Hm, E.
Qed.

Lemma keeps_catch {A} (m : M A) (h : jsstring -> M A) :
  keeps_events m -> (forall e, keeps_events (h e)) -> keeps_events (catch m h).
Proof.
  intros Hm Hh w r w'. unfold catch.
  destruct (m w) as [[a|e] w1] eqn:E; intros H.
  - injection H as <- <-. eapply Hm, E.
  - rewrite (Hh e _ _ _ H). eapply Hm, E.
Qed.

Lemma keeps_console_log msg : keeps_events (console_log msg).
Proof. intros w r w' [= <- <-]. reflexivity. Qed.

Lemma keeps_console_warn msg : keeps_events (console_warn msg).
Proof. intros w r w' [= <- <-]. reflexivity. Qed.

Lemma keeps_console_error msg : keeps_events (console_error msg).
Proof. intros w r w' [= <- <-]. reflexivity. Qed.

Lemma keeps_backend {A} c failure (act : World -> result A * World) :
  (forall w r w', act w = (r, w') -> events w' = events w) ->
  keeps_events (backend c failure act).
Proof.
  intros Hact w r w'. unfold backend. destruct failure.
  - intros [= <- <-]. reflexivity.
  - intros H. apply Hact in H. exact H.
Qed.

Lemma keeps_doc_get env id : keeps_events (doc_get env id).
Proof. apply keeps_backend. intros w r w' [= <- <-]. reflexivity. Qed.

Lemma keeps_file_write env name data ctype :
  keeps_events (file_write env name data ctype).
Proof. apply keeps_backend. intros w r w' [= <- <-]. reflexivity. Qed.

Lemma keeps_file_makePublic env name : keeps_events (file_makePublic env name).
Proof.
  apply keeps_backend. intros w r w'.
  destruct (bucket w !! name); intros [= <- <-]; reflexivity.
Qed.

Lemma keeps_file_delete env name : keeps_events (file_delete env name).
Proof.
  apply keeps_backend. intros w r w'.
  destruct (bucket w !! name); intros [= <- <-]; reflexivity.
Qed.

Ltac keeps :=
  repeat first
    [ apply keeps_ret | apply keeps_throw
    | apply keeps_console_log | apply keeps_console_warn | apply keeps_console_error
    | apply keeps_doc_get | apply keeps_file_write | apply keeps_file_makePublic
    | apply keeps_file_delete
    | apply keeps_bind; [| intros ?]
    | apply keeps_catch; [| intros ?]
    | match goal with
      | |- keeps_events (if ?b then _ else _) => destruct b
      | |- keeps_events (match ?x with _ => _ end) => destruct x
      end ].

Lemma keeps_uploadToGcs env f : keeps_events (uploadToGcs env f).
Proof. unfold uploadToGcs. keeps. Qed.

Lemma keeps_deleteFromGcs env v : keeps_events (deleteFromGcs env v).
Proof. unfold deleteFromGcs. keeps. Qed.

Ltac keeps_all :=
  repeat first [ apply keeps_uploadToGcs | apply keeps_deleteFromGcs | progress keeps ].

Lemma handle_keeps (body : M response) where_ failure w r w' :
  keeps_events body -> handle body where_ failure w = (r, w') ->
  events w' = events w.
Proof.
  intros Hk. unfold handle. destruct (body w) as [[a|e] w1] eqn:E; intros [= <- <-].
  - eapply Hk, E.
  - cbn. eapply Hk, E.
Qed.

(** ** Blob deletion *)

Lemma deleteFromGcs_completes env url w :
  exists w', deleteFromGcs env (Some (VJson (JStr url))) w = (Ok tt, w')
             /\ events w' = events w /\ sessions w' = sessions w.
Proof.
  unfold deleteFromGcs.
  unfold catch, bind, console_log, console_warn, console_error, file_delete, backend, ret.
  destruct (truthy_field (Some (VJson (JStr url)))); cbn [negb];
    [| eexists; split; [reflexivity | cbn; auto]].
  destruct (startsWith url gcsPrefix); cbn [negb];
    [| eexists; split; [reflexivity | cbn; auto]].
  destruct (truthy_str (substring url (length gcsPrefix))); cbn [negb];
    [| eexists; split; [reflexivity | cbn; auto]].
  destruct (file_delete_error env);
    [eexists; split; [reflexivity | cbn; auto] |].
  cbn [bucket add_issued add_console].
  destruct (bucket w !! substring url (length gcsPrefix));
    eexists; (split; [reflexivity | cbn; auto]).
Qed.

(** The record is deleted whatever becomes of its image. *)
Lemma delete_event_despite_blob (env : Env) (req : Request) (w : World)
    (doc : gmap jsstring fvalue) (url : jsstring) :
  truthy_str (params_id req) = true ->
  doc_get_error env = None -> doc_delete_error env = None ->
  events w !! params_id req = Some doc ->
  doc !! js "imageUrl" = Some (VJson (JStr url)) ->
  exists w',
    Firestore.delete_event env req w
    = (Response 200 (message true "Event deleted successfully."), w')
    /\ Session.delete_event env req w
      = (Response 200 (message true "Event deleted successfully."), w')
    /\ events w' = delete (params_id req) (events w).
Proof.
  intros Hid Hget Hdel Hdoc Himg.
  change (Session.delete_event env req w) with (Firestore.delete_event env req w).
  cut (exists w',
         Firestore.delete_event env req w
         = (Response 200 (message true "Event deleted successfully."), w')
         /\ events w' = delete (params_id req) (events w)).
  { intros (w' & -> & Hev). exists w'. auto. }
  assert (H : forall w1 : World, events w1 = events w ->
            exists w2,
              ((if truthy_field (doc !! js "imageUrl")
                then deleteFromGcs env (doc !! js "imageUrl")
                else ret tt) w1 = (Ok tt, w2)) /\ events w2 = events w).
  { intros w1 Hw1. rewrite Himg. destruct (truthy_field _).
    - destruct (deleteFromGcs_completes env url w1) as (w2 & Hd & He & _).
      exists w2. split; [exact Hd | congruence].
    - exists w1. split; [reflexivity | exact Hw1]. }
  unfold Firestore.delete_event. rewrite Hid. cbn [negb].
  unfold handle, bind at 1, doc_get, backend. rewrite Hget.
  cbn [events add_issued add_console]. rewrite Hdoc.
  unfold bind at 1.
  match goal with
  | |- context [(if truthy_field _ then _ else _) ?w1] =>
      destruct (H w1 eq_refl) as (w2 & Hrun & Hev)
  end.
  rewrite Hrun. unfold bind, doc_delete, backend, console_log, ret. rewrite Hdel.
  eexists. split; [reflexivity |].
  cbn [events set_events add_issued add_console]. rewrite Hev. reflexivity.
Qed.

(** C8.  For every reference string, [deleteFromGcs] completes without an
    exception and leaves the event store and the sessions alone; when the
    reference does not start with the URL prefix of this bucket it does
    nothing but log one warning: no call is issued and the bucket is as it
    was.  A failing deletion is logged on the error channel and not
    propagated; and the deletion of a record with an image reference
    goes through whatever the deletion of the image does. *)
Theorem deleteFromGcs_swallows_failures :
  forall (env : Env) (url : jsstring) (w : World),
    (exists w', deleteFromGcs env (Some (VJson (JStr url))) w = (Ok tt, w')
                /\ events w' = events w /\ sessions w' = sessions w)
    /\ (startsWith url gcsPrefix = false ->
        deleteFromGcs env (Some (VJson (JStr url))) w
          = (Ok tt,
             add_console LWarn
               (js "Invalid or non-matching GCS URL provided for deletion:") w))
    /\ (forall e, startsWith url gcsPrefix = true ->
        truthy_str (substring url (length gcsPrefix)) = true ->
        file_delete_error env = Some e ->
        exists w', deleteFromGcs env (Some (VJson (JStr url))) w = (Ok tt, w')
                   /\ bucket w' = bucket w
                   /\ last (console w')
                      = Some (LError, js "Failed to delete GCS object"))
    /\ (forall (req : Request) (doc : gmap jsstring fvalue),
        truthy_str (params_id req) = true ->
        doc_get_error env = None -> doc_delete_error env = None ->
        events w !! params_id req = Some doc ->
        doc !! js "imageUrl" = Some (VJson (JStr url)) ->
        exists w',
          Firestore.delete_event env req w
          = (Response 200 (message true "Event deleted successfully."), w')
          /\ Session.delete_event env req w
            = (Response 200 (message true "Event deleted successfully."), w')
          /\ events w' = delete (params_id req) (events w)).
Proof.
  intros env url w. split; [| split; [| split]];
    [| | | intros req doc; apply delete_event_despite_blob].
  - apply deleteFromGcs_completes.
  - intros Hpre. unfold deleteFromGcs. rewrite Hpre.
    destruct url; reflexivity.
  - intros e Hpre Hname Herr. unfold deleteFromGcs.
    rewrite Hpre, Hname.
    assert (Ht : truthy_field (Some (VJson (JStr url))) = true).
    { destruct url; [discriminate Hpre | reflexivity]. }
    rewrite Ht. cbn [negb]. unfold_M. unfold file_delete, backend. rewrite Herr.
    eexists; split; [reflexivity |]. cbn. split; [reflexivity |].
    rewrite last_snoc. reflexivity.
Qed.

Lemma deleteFromGcs_swallows_failures_witness :
  deleteFromGcs (quiet_env 0 []) (Some (VJson (JStr (js "https://example.org/a.png"))))
    empty_world
  = (Ok tt,
     add_console LWarn (js "Invalid or non-matching GCS URL provided for deletion:")
       empty_world).
Proof.
  apply (proj1 (proj2 (deleteFromGcs_swallows_failures (quiet_env 0 [])
                         (js "https://example.org/a.png") empty_world))).
  vm_compute. reflexivity.
Defined.

(** ** Generated object names *)

(** C9.  Two uploads in the same millisecond whose file names differ only
    in a space against an underscore get the same object name, and the
    second upload replaces the first object: the bucket holds one object,
    with the second content, and both uploads return the same URL. *)
Theorem uploads_collide :
  let env := quiet_env 1748736000000 [] in
  upload_a <> upload_b
  /\ uniqueFilename (now env) (originalname upload_a)
     = uniqueFilename (now env) (originalname upload_b)
  /\ exists url w1 w2,
       uploadToGcs env upload_a empty_world = (Ok url, w1)
       /\ uploadToGcs env upload_b w1 = (Ok url, w2)
       /\ bucket w2 = {[ js "1748736000000-a_b.png" := Blob [4; 5] (js "image/png") true ]}.
Proof.
  cbn zeta. split; [discriminate |]. split; [reflexivity |].
  eexists _, _, _. split; [vm_compute; reflexivity |].
  split; [vm_compute; reflexivity |].
  vm_compute. reflexivity.
Qed.

(** *** When two object names coincide *)

Lemma uint_chars_digits (u : Decimal.uint) : forallb isDigit (uint_chars u) = true.
Proof. induction u; cbn; auto. Qed.

Lemma uint_chars_inj (u u' : Decimal.uint) :
  uint_chars u = uint_chars u' -> u = u'.
Proof.
  revert u'. induction u; destruct u'; cbn; intros H; try discriminate H;
    try reflexivity; injection H as H; f_equal; apply IHu, H.
Qed.

Lemma Number_toString_digits (t : Z) :
  (0 <= t)%Z -> forallb isDigit (Number_toString t) = true.
Proof.
  destruct t as [|p|p]; intros H; [reflexivity | apply uint_chars_digits | lia].
Qed.

Lemma Number_toString_inj (t t' : Z) :
  (0 <= t)%Z -> (0 <= t')%Z -> Number_toString t = Number_toString t' -> t = t'.
Proof.
  assert (Hnz : forall p, uint_chars (Pos.to_uint p) <> [48]).
  { intros p H. change [48] with (uint_chars (Decimal.D0 Decimal.Nil)) in H.
    apply uint_chars_inj in H.
    pose proof (Unsigned.of_to p) as E. rewrite H in E. discriminate E. }
  destruct t as [|p|p], t' as [|p'|p']; cbn; intros H H' E; try lia.
  - symmetry in E. destruct (Hnz _ E).
  - destruct (Hnz _ E).
  - apply uint_chars_inj, Unsigned.to_uint_inj in E. congruence.
Qed.

Lemma digits_then_dash (a a' r r' : jsstring) :
  forallb isDigit a = true -> forallb isDigit a' = true ->
  a ++ 45 :: r = a' ++ 45 :: r' -> a = a' /\ r = r'.
Proof.
  revert a'. induction a as [|x a IH]; intros [|y a'] Ha Ha' E; cbn in *.
  - injection E as ->. auto.
  - injection E as <- _. apply andb_true_iff in Ha' as [H _]. discriminate H.
  - injection E as -> _. apply andb_true_iff in Ha as [H _]. discriminate H.
  - injection E as -> E. apply andb_true_iff in Ha as [_ Ha].
    apply andb_true_iff in Ha' as [_ Ha'].
    destruct (IH a' Ha Ha' E) as [-> ->]. auto.
Qed.

(** Two uploads get the same object name exactly when they happen in the
    same millisecond with file names that are equal once spaces are
    replaced. *)
Lemma uniqueFilename_eq (t t' : Z) (n n' : jsstring) :
  (0 <= t)%Z -> (0 <= t')%Z ->
  uniqueFilename t n = uniqueFilename t' n'
  <-> t = t' /\ replace_spaces n = replace_spaces n'.
Proof.
  intros Ht Ht'. unfold uniqueFilename. split.
  - intros E. cbn [app] in E.
    apply digits_then_dash in E as [E1 E2];
      [| apply Number_toString_digits; assumption..].
    split; [apply Number_toString_inj; assumption | exact E2].
  - intros [-> ->]. reflexivity.
Qed.

(** ** The session gate *)

(** C3.  In the session revision each of the four mutating routes, called
    without an authenticated session, answers 401 at once: the world after
    the call is the world before it plus one console warning, so no
    validation ran, no call to a store was issued, and the event store,
    the bucket and the sessions are unchanged. *)
Theorem unauthenticated_mutation_refused :
  forall (Date_parse : jsstring -> option Z) (m : Session.mutation)
         (env : Env) (req : Request) (w : World),
    authenticated req = false ->
    Session.route Date_parse m env req w
    = (Ok (Response 401 (error_body "Unauthorized. Please log in first.")),
       add_console LWarn (js "Unauthorized access attempt blocked.") w).
Proof.
  intros Date_parse m env req w Hauth.
  unfold Session.route, Session.isAuthenticated, authenticated in *.
  destruct (req_session req) as [s|]; [rewrite Hauth |]; reflexivity.
Qed.

Lemma unauthenticated_mutation_refused_witness :
  Session.route sample_Date_parse Session.CreateEvent (quiet_env 0 (js "e1"))
    anonymous_create empty_world
  = (Ok (Response 401 (error_body "Unauthorized. Please log in first.")),
     add_console LWarn (js "Unauthorized access attempt blocked.") empty_world).
Proof.
  apply (unauthenticated_mutation_refused sample_Date_parse Session.CreateEvent
           (quiet_env 0 (js "e1")) anonymous_create empty_world).
  reflexivity.
Defined.

(** With a session the same request goes through: the gate does decide. *)
Lemma authenticated_create_accepted :
  let req :=
    {| params_id := []; req_body := req_body anonymous_create; req_file := None;
       req_session := Some (Session_ true None); sessionID := js "s1" |} in
  let out :=
    Session.route sample_Date_parse Session.CreateEvent (quiet_env 0 (js "e1"))
      req empty_world in
  fst out
  = Ok (Response 201
          (JObj [(js "success", JBool true);
                 (js "message", JStr (js "Event added successfully."));
                 (js "id", JStr (js "e1"))]))
  /\ events (snd out) !! js "e1" ≫= (fun doc => doc !! js "title")
     = Some (VJson (JStr (js "Meeting"))).
Proof.
  split; vm_compute; reflexivity.
Qed.

(** ** Login *)

Lemma strict_eq_str_true (v : jsvalue) (s : jsstring) :
  strict_eq_str v s = true <-> v = Some (JStr s).
Proof.
  unfold strict_eq_str. split.
  - destruct v as [[]|]; try discriminate. intros H.
    apply bool_decide_eq_true in H. subst. reflexivity.
  - intros ->. apply bool_decide_eq_true. reflexivity.
Qed.

Lemma strict_eq_str_false (v : jsvalue) (s : jsstring) :
  v <> Some (JStr s) -> strict_eq_str v s = false.
Proof.
  intros H. destruct (strict_eq_str v s) eqn:E; [| reflexivity].
  apply strict_eq_str_true in E. contradiction.
Qed.




(** ** The date normalizer *)

(** The function as its description has it: always a [Return], of what
    the first successful strategy gives. *)
Lemma parseAndFormatDate_normalize :
  forall (new_Date : jsstring -> result (option LocalDate)) (dateValue : jsstring),
    Sheets.parseAndFormatDate new_Date dateValue
    = Return (normalize_spec new_Date dateValue).
Proof.
  intros new_Date dateValue.
  unfold Sheets.parseAndFormatDate, normalize_spec.
  destruct dateValue as [|c r].
  { reflexivity. }
  cbn [truthy_str negb then_].
  destruct (truthy_str (trim (c :: r))) eqn:Htrim; cbn [negb then_]; [| reflexivity].
  unfold strategies, first_success, numeric_form, generic_form.
  repeat (cbn [try_catch then_];
          first
            [ reflexivity
            | match goal with
              | |- context [match String_match ?s ?re with _ => _ end] =>
                  destruct (String_match s re)
              | |- context [if Sheets.in_range ?a ?b ?c then _ else _] =>
                  destruct (Sheets.in_range a b c)
              | |- context [match new_Date ?s with _ => _ end] =>
                  destruct (new_Date s) as [[?|]|?]
              end ]).
Qed.

(** *** One date, three notations *)

Lemma digit_neq (c x : N) :
  isDigit x = true -> isDigit c = false -> (x =? c) = false.
Proof.
  intros Hx Hc. apply N.eqb_neq. intros ->. congruence.
Qed.

Lemma digit_not_space (x : N) : isDigit x = true -> isWhiteSpace x = false.
Proof.
  unfold isDigit, isWhiteSpace. rewrite andb_true_iff, !N.leb_le. intros [H1 H2].
  repeat (apply orb_false_intro); try (apply N.eqb_neq; lia).
  apply andb_false_iff. left. apply N.leb_gt. lia.
Qed.

Lemma small_all : forallb small_ok (seqZ 1 31) = true.
Proof. vm_compute. reflexivity. Qed.

Lemma year_all : forallb year_ok (seqZ 1901 8099) = true.
Proof. vm_compute. reflexivity. Qed.

Lemma small_facts (n : Z) (D : jsstring) :
  (1 <= n <= 31)%Z -> D ∈ renderings n ->
  digit_text 1 2 D /\ parseInt D = Some n
  /\ Sheets.pad2 (Number_toString n) = two_digits n.
Proof.
  intros Hn HD.
  assert (Hin : n ∈ seqZ 1 31) by (apply elem_of_seqZ; lia).
  pose proof small_all as Hall.
  rewrite forallb_forall in Hall.
  specialize (Hall n (proj1 (list_elem_of_In _ _) Hin)).
  unfold small_ok in Hall. rewrite forallb_forall in Hall.
  specialize (Hall D (proj1 (list_elem_of_In _ _) HD)).
  rewrite !andb_true_iff, orb_true_iff, !Nat.eqb_eq, !bool_decide_eq_true in Hall.
  destruct Hall as [[[Hlen Hdig] Hp] Hpad].
  repeat split; try assumption; lia.
Qed.

Lemma year_facts (y : Z) :
  (1900 < y <= 9999)%Z ->
  digit_text 4 4 (Number_toString y) /\ parseInt (Number_toString y) = Some y.
Proof.
  intros Hy.
  assert (Hin : y ∈ seqZ 1901 8099) by (apply elem_of_seqZ; lia).
  pose proof year_all as Hall.
  rewrite forallb_forall in Hall.
  specialize (Hall y (proj1 (list_elem_of_In _ _) Hin)).
  unfold year_ok in Hall.
  rewrite !andb_true_iff, !Nat.eqb_eq, !bool_decide_eq_true in Hall.
  destruct Hall as [[Hlen Hdig] Hp].
  repeat split; try assumption; lia.
Qed.

Ltac shape H s :=
  let Hl := fresh "Hl" in let Hu := fresh "Hu" in let Hd := fresh "Hd" in
  destruct H as [[Hl Hu] Hd];
  repeat (destruct s as [|? s]; cbn [length] in Hl, Hu; try lia);
  cbn [forallb] in Hd; rewrite ?andb_true_iff in Hd;
  repeat match type of Hd with _ /\ _ => let H1 := fresh "Hdig" in destruct Hd as [H1 Hd] end;
  clear Hl Hu.

Ltac crunch :=
  repeat (cbn;
          repeat match goal with
            | H : isDigit ?x = true |- context [isDigit ?x] => rewrite H
            | H : isDigit ?x = true |- context [isWhiteSpace ?x] =>
                rewrite (digit_not_space x H)
            | H : isDigit ?x = true |- context [?x =? ?c] =>
                rewrite (digit_neq c x H eq_refl)
            | |- context [?c =? ?c] => rewrite (N.eqb_refl c)
            | |- context [isDigit 45] => change (isDigit 45) with false
            | |- context [isDigit 46] => change (isDigit 46) with false
            | |- context [isDigit 47] => change (isDigit 47) with false
            | |- context [45 =? 46] => change (45 =? 46) with false
            | |- context [47 =? 46] => change (47 =? 46) with false
            | |- context [47 =? 45] => change (47 =? 45) with false
            end).

Section Shapes.

Local Opaque isDigit isWhiteSpace N.eqb.

Ltac shapes :=
  intros D M Y HD HM HY; shape HD D; shape HM M; shape HY Y; crunch; reflexivity.

Lemma trim_dmy D M Y :
  digit_text 1 2 D -> digit_text 1 2 M -> digit_text 4 4 Y ->
  trim (D ++ [46] ++ M ++ [46] ++ Y) = D ++ [46] ++ M ++ [46] ++ Y.
Proof. revert D M Y. shapes. Qed.

Lemma match_dmy D M Y :
  digit_text 1 2 D -> digit_text 1 2 M -> digit_text 4 4 Y ->
  String_match (D ++ [46] ++ M ++ [46] ++ Y) re_dmy
  = Some [D ++ [46] ++ M ++ [46] ++ Y; D; M; Y].
Proof. revert D M Y. shapes. Qed.

Lemma trim_ymd D M Y :
  digit_text 1 2 D -> digit_text 1 2 M -> digit_text 4 4 Y ->
  trim (Y ++ [45] ++ M ++ [45] ++ D) = Y ++ [45] ++ M ++ [45] ++ D.
Proof. revert D M Y. shapes. Qed.

Lemma nomatch_ymd_dmy D M Y :
  digit_text 1 2 D -> digit_text 1 2 M -> digit_text 4 4 Y ->
  String_match (Y ++ [45] ++ M ++ [45] ++ D) re_dmy = None.
Proof. revert D M Y. shapes. Qed.

Lemma match_ymd D M Y :
  digit_text 1 2 D -> digit_text 1 2 M -> digit_text 4 4 Y ->
  String_match (Y ++ [45] ++ M ++ [45] ++ D) re_ymd
  = Some [Y ++ [45] ++ M ++ [45] ++ D; Y; M; D].
Proof. revert D M Y. shapes. Qed.

Lemma trim_mdy D M Y :
  digit_text 1 2 D -> digit_text 1 2 M -> digit_text 4 4 Y ->
  trim (M ++ [47] ++ D ++ [47] ++ Y) = M ++ [47] ++ D ++ [47] ++ Y.
Proof. revert D M Y. shapes. Qed.

Lemma nomatch_mdy_dmy D M Y :
  digit_text 1 2 D -> digit_text 1 2 M -> digit_text 4 4 Y ->
  String_match (M ++ [47] ++ D ++ [47] ++ Y) re_dmy = None.
Proof. revert D M Y. shapes. Qed.

Lemma nomatch_mdy_ymd D M Y :
  digit_text 1 2 D -> digit_text 1 2 M -> digit_text 4 4 Y ->
  String_match (M ++ [47] ++ D ++ [47] ++ Y) re_ymd = None.
Proof. revert D M Y. shapes. Qed.

Lemma match_mdy D M Y :
  digit_text 1 2 D -> digit_text 1 2 M -> digit_text 4 4 Y ->
  String_match (M ++ [47] ++ D ++ [47] ++ Y) re_mdy
  = Some [M ++ [47] ++ D ++ [47] ++ Y; M; D; Y].
Proof. revert D M Y. shapes. Qed.

End Shapes.

Lemma digit_text_truthy lo hi s t :
  digit_text (S lo) hi s -> truthy_str (s ++ t) = true.
Proof. intros [[Hl _] _]. destruct s; [cbn in Hl; lia | reflexivity]. Qed.

Lemma in_range_true (y m d : Z) :
  (1900 < y)%Z -> (1 <= m <= 12)%Z -> (1 <= d <= 31)%Z ->
  Sheets.in_range (Some y) (Some m) (Some d) = true.
Proof.
  intros Hy Hm Hd. unfold Sheets.in_range, num_gt, num_ge, num_le.
  rewrite !andb_true_iff, Z.ltb_lt, !Z.leb_le. lia.
Qed.

(** C2.  For a year from 1901 to 9999, a month from 1 to 12 and a day
    from 1 to 31, each written with or without a leading zero, the texts
    [D.M.YYYY], [YYYY-M-D] and [M/D/YYYY] of one date are all normalized
    to the same text, the canonical [YYYY-MM-DD] of that date, whatever
    the generic parser of the host would say. *)
Theorem same_date_three_notations :
  forall (new_Date : jsstring -> result (option LocalDate)) (y m d : Z)
         (D M : jsstring),
    (1900 < y <= 9999)%Z -> (1 <= m <= 12)%Z -> (1 <= d <= 31)%Z ->
    In D (renderings d) -> In M (renderings m) ->
    let Y := Number_toString y in
    Sheets.parseAndFormatDate new_Date (D ++ js "." ++ M ++ js "." ++ Y)
      = Return (Some (canonical y m d))
    /\ Sheets.parseAndFormatDate new_Date (Y ++ js "-" ++ M ++ js "-" ++ D)
      = Return (Some (canonical y m d))
    /\ Sheets.parseAndFormatDate new_Date (M ++ js "/" ++ D ++ js "/" ++ Y)
      = Return (Some (canonical y m d)).
Proof.
  intros new_Date y m d D M Hy Hm Hd HD HM Y.
  apply list_elem_of_In in HD, HM.
  destruct (small_facts d D Hd HD) as (HDt & HDp & HDpad).
  destruct (small_facts m M ltac:(lia) HM) as (HMt & HMp & HMpad).
  destruct (year_facts y Hy) as (HYt & HYp). fold Y in HYt, HYp.
  assert (Hcanon : Sheets.ymd_text (Some y) (Some m) (Some d) = canonical y m d).
  { unfold Sheets.ymd_text, canonical, num_text. rewrite HDpad, HMpad. reflexivity. }
  assert (Hrange := in_range_true y m d ltac:(lia) Hm Hd).
  change (js ".") with [46]. change (js "-") with [45]. change (js "/") with [47].
  rewrite !parseAndFormatDate_normalize. unfold normalize_spec.
  rewrite (trim_dmy D M Y), (trim_ymd D M Y), (trim_mdy D M Y) by assumption.
  rewrite (digit_text_truthy 0 2 D), (digit_text_truthy 3 4 Y),
    (digit_text_truthy 0 2 M) by assumption.
  unfold strategies, first_success, numeric_form.
  rewrite (match_dmy D M Y), (nomatch_ymd_dmy D M Y), (match_ymd D M Y),
    (nomatch_mdy_dmy D M Y), (nomatch_mdy_ymd D M Y), (match_mdy D M Y) by assumption.
  cbn [group nth]. rewrite HDp, HMp, HYp, Hrange, Hcanon. auto.
Qed.

(** The three texts of 25 December 2025. *)
Lemma same_date_three_notations_witness :
  Sheets.parseAndFormatDate (fun _ => Ok None) (js "25.12.2025")
    = Return (Some (js "2025-12-25"))
  /\ Sheets.parseAndFormatDate (fun _ => Ok None) (js "2025-12-25")
    = Return (Some (js "2025-12-25"))
  /\ Sheets.parseAndFormatDate (fun _ => Ok None) (js "12/25/2025")
    = Return (Some (js "2025-12-25")).
Proof.
  apply (same_date_three_notations (fun _ => Ok None) 2025 12 25 (js "25") (js "12"));
    first [lia | cbn; auto].
Defined.

(** ** Dates that cannot be converted *)

Lemma uploadToGcs_ok env f w :
  upload_succeeds env ->
  exists w', uploadToGcs env f w
             = (Ok (gcsPrefix ++ uniqueFilename (now env) (originalname f)), w').
Proof.
  intros [Hw Hp]. unfold uploadToGcs, file_write, file_makePublic.
  unfold bind, catch, backend, ret, console_log. rewrite Hw, Hp. cbn.
  rewrite lookup_insert_eq. eexists. reflexivity.
Qed.

Lemma truthy_prop (v : jsvalue) (k : jsstring) :
  truthy (prop v k) = true -> truthy v = true /\ typeof_object v = true.
Proof. destruct v as [[]|]; cbn; auto; discriminate. Qed.

Lemma truthy_prop_keys (v : jsvalue) (k : jsstring) :
  truthy (prop v k) = true ->
  match v with Some j => no_keys j | None => true end = false.
Proof. destruct v as [[| | | | |[|kv l]]|]; cbn; auto; discriminate. Qed.

Lemma multer_single_same (req req' : Request) :
  multer_single req = Ok req' -> req' = req.
Proof.
  unfold multer_single. destruct (req_file req) as [f|]; [| congruence].
  destruct (_ <? _)%nat; congruence.
Qed.

Section InvalidDate.

Variable Date_parse : jsstring -> option Z.
Variables (env : Env) (req : Request) (w : World).
Hypothesis Hbad : unparseable Date_parse (prop (req_body req) FIELD_DATE).

Lemma firestore_post_no_write :
  events (snd (Firestore.post_events Date_parse env req w)) = events w.
Proof.
  destruct Hbad as [e He].
  destruct (Firestore.post_events Date_parse env req w) as [r w'] eqn:E.
  unfold Firestore.post_events in E. rewrite He in E.
  apply handle_keeps in E; [exact E |]. keeps_all.
Qed.

Lemma firestore_put_no_write :
  events (snd (Firestore.put_event Date_parse env req w)) = events w.
Proof.
  destruct Hbad as [e He].
  destruct (Firestore.put_event Date_parse env req w) as [r w'] eqn:E.
  unfold Firestore.put_event in E. rewrite He in E.
  destruct (negb (truthy_str (params_id req))); [injection E as <- <-; reflexivity |].
  match type of E with (if ?b then _ else _) = _ => destruct b end;
    [injection E as <- <-; reflexivity |].
  apply handle_keeps in E; [exact E |]. keeps_all.
Qed.

Lemma session_post_no_write :
  events (snd (Session.post_events Date_parse env req w)) = events w.
Proof.
  destruct Hbad as [e He].
  destruct (Session.post_events Date_parse env req w) as [r w'] eqn:E.
  unfold Session.post_events in E.
  change (Session.eventDate_timestamp Date_parse) with
    (Firestore.eventDate_timestamp Date_parse) in E.
  rewrite He in E.
  apply handle_keeps in E; [exact E |]. keeps_all.
Qed.

Lemma session_put_no_write :
  events (snd (Session.put_event Date_parse env req w)) = events w.
Proof.
  destruct Hbad as [e He].
  destruct (Session.put_event Date_parse env req w) as [r w'] eqn:E.
  unfold Session.put_event in E.
  change (Session.eventDate_timestamp Date_parse) with
    (Firestore.eventDate_timestamp Date_parse) in E.
  rewrite He in E.
  destruct (negb (truthy_str (params_id req))); [injection E as <- <-; reflexivity |].
  match type of E with (if ?b then _ else _) = _ => destruct b end;
    [injection E as <- <-; reflexivity |].
  apply handle_keeps in E; [exact E |]. keeps_all.
Qed.

Lemma session_route_no_write (m : Session.mutation) :
  m = Session.CreateEvent \/ m = Session.UpdateEvent ->
  events (snd (Session.route Date_parse m env req w)) = events w.
Proof.
  intros Hm. unfold Session.route, Session.isAuthenticated.
  destruct (req_session req) as [s|]; [| reflexivity].
  destruct (isAuthenticated s); [| reflexivity].
  destruct Hm as [-> | ->]; unfold Session.with_multer;
    destruct (multer_single req) as [req'|] eqn:Hm; try reflexivity;
    apply multer_single_same in Hm; subst req'.
  - pose proof session_post_no_write as H.
    destruct (Session.post_events Date_parse env req w). exact H.
  - pose proof session_put_no_write as H.
    destruct (Session.put_event Date_parse env req w). exact H.
Qed.

End InvalidDate.

Section InvalidDateAnswer.

Variable Date_parse : jsstring -> option Z.
Variables (env : Env) (req : Request) (w : World).
Hypothesis Hdate : truthy (prop (req_body req) FIELD_DATE) = true.
Hypothesis Hbad : unparseable Date_parse (prop (req_body req) FIELD_DATE).
Hypothesis Htitle : truthy (prop (req_body req) FIELD_TITLE) = true.

Lemma firestore_post_invalid :
  (forall f, req_file req = Some f -> upload_succeeds env) ->
  fst (Firestore.post_events Date_parse env req w) = invalid_date.
Proof.
  intros Hup. destruct Hbad as [e He].
  destruct (truthy_prop _ _ Htitle) as [Hb _].
  unfold Firestore.post_events. rewrite Htitle, Hdate, He, Hb. cbn [negb orb].
  destruct (req_file req) as [f|]; [| reflexivity].
  unfold handle, bind, console_log, console_warn, ret.
  match goal with
  | |- context [uploadToGcs env f ?w0] =>
      destruct (uploadToGcs_ok env f w0 (Hup f eq_refl)) as [w2 Hu]; rewrite Hu
  end.
  reflexivity.
Qed.

Lemma session_post_invalid :
  (forall f, req_file req = Some f -> upload_succeeds env) ->
  fst (Session.post_events Date_parse env req w) = invalid_date.
Proof.
  intros Hup. destruct Hbad as [e He].
  destruct (truthy_prop _ _ Htitle) as [Hb _].
  unfold Session.post_events.
  change (Session.eventDate_timestamp Date_parse) with
    (Firestore.eventDate_timestamp Date_parse).
  rewrite Htitle, Hdate, He, Hb. cbn [negb orb].
  destruct (req_file req) as [f|]; [| reflexivity].
  unfold handle, bind, console_log, console_warn, ret.
  match goal with
  | |- context [uploadToGcs env f ?w0] =>
      destruct (uploadToGcs_ok env f w0 (Hup f eq_refl)) as [w2 Hu]; rewrite Hu
  end.
  reflexivity.
Qed.

Variable doc : gmap jsstring fvalue.
Hypothesis Hid : truthy_str (params_id req) = true.
Hypothesis Hget : doc_get_error env = None.
Hypothesis Hdoc : events w !! params_id req = Some doc.

Lemma firestore_put_invalid :
  fst (Firestore.put_event Date_parse env req w) = invalid_date.
Proof.
  destruct Hbad as [e He].
  destruct (truthy_prop _ _ Htitle) as [Hb Ho].
  unfold Firestore.put_event.
  rewrite Hid, Htitle, Hdate, He, Hb, Ho, (truthy_prop_keys _ _ Htitle).
  cbn [negb orb].
  unfold handle, bind, doc_get, backend, ret. rewrite Hget.
  cbn [events add_issued add_console]. rewrite Hdoc. reflexivity.
Qed.

Lemma session_put_invalid :
  (forall f, req_file req = Some f -> upload_succeeds env /\ image_reference_ok doc) ->
  fst (Session.put_event Date_parse env req w) = invalid_date.
Proof.
  intros Hup. destruct Hbad as [e He].
  destruct (truthy_prop _ _ Htitle) as [Hb Ho].
  unfold Session.put_event.
  change (Session.eventDate_timestamp Date_parse) with
    (Firestore.eventDate_timestamp Date_parse).
  rewrite Hid, Htitle, Hdate, He, Hb, Ho. cbn [negb orb].
  unfold handle, bind, doc_get, backend, ret. rewrite Hget.
  cbn [events add_issued add_console]. rewrite Hdoc.
  destruct (req_file req) as [f|]; [| reflexivity].
  destruct (Hup f eq_refl) as [Hu Himg].
  unfold console_log.
  destruct (truthy_field (doc !! js "imageUrl")) eqn:Ht.
  - destruct (Himg Ht) as [url Hurl]. rewrite Hurl.
    match goal with
    | |- context [deleteFromGcs env ?v ?w0] =>
        destruct (deleteFromGcs_completes env url w0) as (w2 & Hd & _); rewrite Hd
    end.
    match goal with
    | |- context [uploadToGcs env f ?w0] =>
        destruct (uploadToGcs_ok env f w0 Hu) as [w3 Hu3]; rewrite Hu3
    end.
    reflexivity.
  - match goal with
    | |- context [uploadToGcs env f ?w0] =>
        destruct (uploadToGcs_ok env f w0 Hu) as [w3 Hu3]; rewrite Hu3
    end.
    reflexivity.
Qed.

End InvalidDateAnswer.

(** The spreadsheet revision appends whatever it is given. *)
Lemma sheet_append_unvalidated (isoNow : jsstring) (kv : jsstring * json)
    (fields : list (jsstring * json)) (sheet : list (list json)) :
  Sheets.post_events (Ok tt) (Ok tt) isoNow (Some (JObj (kv :: fields))) sheet
  = (Response 201
       (JObj [(js "success", JBool true);
              (js "message",
               JStr (js "Event erfolgreich hinzugef" ++ [252] ++ js "gt."))]),
     sheet ++ [Sheets.new_row (Some (JObj (kv :: fields))) isoNow]).
Proof. reflexivity. Qed.

(** C4, as stated, fails, in four ways.  An update whose date text is
    present and cannot be converted, sent for an id that names no record,
    is answered 404, not 400 (document-store revision, and session
    revision when signed in).  A create request with such a date and no
    title gets the missing-field message.  A create request with such a
    date whose image upload fails is answered 500.  And the spreadsheet
    revision, which checks no date on the way in, appends the row and
    answers 201. *)
Lemma unparseable_date_not_always_rejected :
  (truthy (prop (req_body update_unknown) FIELD_DATE) = true
   /\ unparseable sample_Date_parse (prop (req_body update_unknown) FIELD_DATE)
   /\ fst (Firestore.put_event sample_Date_parse (quiet_env 0 []) update_unknown
             empty_world)
      = Response 404 (message false "Event not found.")
   /\ fst (Session.route sample_Date_parse Session.UpdateEvent (quiet_env 0 [])
             update_unknown empty_world)
      = Ok (Response 404 (message false "Event not found.")))
  /\ fst (Firestore.post_events sample_Date_parse (quiet_env 0 (js "e1"))
            untitled_create empty_world)
     = Response 400 (message false "Title and Date are required fields.")
  /\ fst (Firestore.post_events sample_Date_parse failing_upload bad_date_with_image
            empty_world)
     = Response 500 (message false "Error adding event.")
  /\ (Sheets.parseAndFormatDate (fun _ => Ok None) (js "not-a-date") = Return None
      /\ exists row,
           snd (Sheets.post_events (Ok tt) (Ok tt) (js "2025-06-01T10:00:00.000Z")
                  sheet_bad_date [])
           = [row]
           /\ row !! 0%nat = Some (JStr (js "not-a-date"))
           /\ status (fst (Sheets.post_events (Ok tt) (Ok tt)
                             (js "2025-06-01T10:00:00.000Z") sheet_bad_date []))
              = 201%Z).
Proof.
  split; [| split; [| split]].
  - split; [reflexivity |]. split; [eexists; vm_compute; reflexivity |].
    split; vm_compute; reflexivity.
  - vm_compute. reflexivity.
  - vm_compute. reflexivity.
  - split; [vm_compute; reflexivity |].
    eexists. split; [vm_compute; reflexivity |]. split; vm_compute; reflexivity.
Qed.

(** C4, amended.  In the document-store and the session revision, a
    create or update request whose [eventDate] is present but cannot be
    converted never writes or changes an event record.  A create request
    with a title is answered with the 400 [Invalid date format. Please use
    YYYY-MM-DD.] when the upload of its image, if it has one, succeeds (in
    the session revision: when it is authenticated and multer accepts
    it).  An update request with a title gets this answer when its id
    names a record that the store returns (in the session revision
    moreover: authenticated, accepted by multer, and, with a new image,
    the stored reference deletable and the upload successful).  The
    answer differs from each of the missing-field answers. *)
Theorem unparseable_date_rejected :
  forall (Date_parse : jsstring -> option Z) (env : Env) (req : Request) (w : World),
    truthy (prop (req_body req) FIELD_DATE) = true ->
    unparseable Date_parse (prop (req_body req) FIELD_DATE) ->
    (events (snd (Firestore.post_events Date_parse env req w)) = events w
     /\ events (snd (Firestore.put_event Date_parse env req w)) = events w
     /\ events (snd (Session.route Date_parse Session.CreateEvent env req w)) = events w
     /\ events (snd (Session.route Date_parse Session.UpdateEvent env req w)) = events w)
    /\ (truthy (prop (req_body req) FIELD_TITLE) = true ->
        (forall f, req_file req = Some f -> upload_succeeds env) ->
        fst (Firestore.post_events Date_parse env req w) = invalid_date
        /\ (authenticated req = true -> multer_single req = Ok req ->
            fst (Session.route Date_parse Session.CreateEvent env req w)
            = Ok invalid_date))
    /\ (forall doc,
          truthy (prop (req_body req) FIELD_TITLE) = true ->
          truthy_str (params_id req) = true ->
          doc_get_error env = None ->
          events w !! params_id req = Some doc ->
          fst (Firestore.put_event Date_parse env req w) = invalid_date
          /\ (authenticated req = true -> multer_single req = Ok req ->
              (forall f, req_file req = Some f ->
                         upload_succeeds env /\ image_reference_ok doc) ->
              fst (Session.route Date_parse Session.UpdateEvent env req w)
              = Ok invalid_date))
    /\ body invalid_date <> message false "Title and Date are required fields."
    /\ body invalid_date <> message false "Invalid data or Title/Date missing."
    /\ body invalid_date <> message false "Date is a required field.".
Proof.
  intros Date_parse env req w Hdate Hbad.
  assert (Hroute : forall (h : Request -> World -> response * World) (r : response),
             authenticated req = true -> multer_single req = Ok req ->
             fst (h req w) = r ->
             fst (Session.isAuthenticated req Ok (Session.with_multer h req) w) = Ok r).
  { intros h r Hauth Hmul Hh. unfold Session.isAuthenticated, authenticated in *.
    destruct (req_session req) as [s|]; [| discriminate]. rewrite Hauth.
    unfold Session.with_multer. rewrite Hmul.
    destruct (h req w) as [r0 w0]. cbn in Hh. subst r0. reflexivity. }
  split; [| split; [| split]].
  - split; [apply firestore_post_no_write; exact Hbad |].
    split; [apply firestore_put_no_write; exact Hbad |].
    split; apply session_route_no_write; auto.
  - intros Htitle Hup. split.
    + apply firestore_post_invalid; assumption.
    + intros Hauth Hmul. apply Hroute; [assumption.. |].
      apply session_post_invalid; assumption.
  - intros doc Htitle Hid Hget Hdoc. split.
    + eapply firestore_put_invalid; eassumption.
    + intros Hauth Hmul Hup. apply Hroute; [assumption.. |].
      eapply session_put_invalid; eassumption.
  - repeat split; intros H; vm_compute in H; discriminate H.
Qed.

Lemma unparseable_date_rejected_witness :
  fst (Firestore.post_events sample_Date_parse (quiet_env 0 (js "e1")) bad_date_create
         empty_world)
  = invalid_date
  /\ events (snd (Firestore.post_events sample_Date_parse (quiet_env 0 (js "e1"))
                    bad_date_create empty_world))
     = events empty_world.
Proof.
  assert (Hdate : truthy (prop (req_body bad_date_create) FIELD_DATE) = true)
    by reflexivity.
  assert (Hbad : unparseable sample_Date_parse (prop (req_body bad_date_create) FIELD_DATE))
    by (eexists; vm_compute; reflexivity).
  pose proof (unparseable_date_rejected sample_Date_parse (quiet_env 0 (js "e1"))
                bad_date_create empty_world Hdate Hbad) as [Hkeep [Hcreate _]].
  split.
  - apply Hcreate; [reflexivity | intros f Hf; discriminate Hf].
  - apply Hkeep.
Defined.

(** The same on an update of a stored record, in both revisions: the
    answer is the 400, and the record keeps its title. *)
Lemma unparseable_date_update_example :
  fst (Firestore.put_event sample_Date_parse (quiet_env 5 []) bad_date_update
         stored_world)
  = invalid_date
  /\ fst (Session.route sample_Date_parse Session.UpdateEvent (quiet_env 5 [])
            bad_date_update stored_world)
     = Ok invalid_date
  /\ events (snd (Session.route sample_Date_parse Session.UpdateEvent (quiet_env 5 [])
                    bad_date_update stored_world))
     !! js "e1" ≫= (fun doc => doc !! js "title")
     = Some (VJson (JStr (js "Meeting"))).
Proof. repeat split; vm_compute; reflexivity. Qed.

(** ** Updates *)

Lemma write_fields_Err env e payload :
  fold_left (write_field env) payload (Err e) = Err e.
Proof. induction payload as [|kv l IH]; [reflexivity | exact IH]. Qed.

Lemma write_fields_frame env payload :
  forall doc doc' k,
    write_fields env doc payload = Ok doc' ->
    ~ In k (fst <$> payload) ->
    doc' !! k = doc !! k.
Proof.
  unfold write_fields.
  induction payload as [|[k0 v] l IH]; intros doc doc' k Hw Hk.
  - injection Hw as <-. reflexivity.
  - cbn [fold_left] in Hw. unfold write_field at 2 in Hw. cbn [fst snd] in Hw.
    assert (Hne : k0 <> k) by (intros ->; apply Hk; left; reflexivity).
    assert (Hk' : ~ In k (fst <$> l)) by (intros H; apply Hk; right; exact H).
    destruct v.
    + rewrite write_fields_Err in Hw. discriminate.
    + rewrite (IH _ _ _ Hw Hk'). apply lookup_insert_ne. exact Hne.
    + rewrite (IH _ _ _ Hw Hk'). apply lookup_insert_ne. exact Hne.
    + rewrite (IH _ _ _ Hw Hk'). apply lookup_delete_ne. exact Hne.
Qed.

Lemma text_fields_keys eventData ts :
  fst <$> text_fields eventData ts = mutable_fields.
Proof. reflexivity. Qed.

Lemma bind_Ok {A B} (m : M A) (k : A -> M B) w b w' :
  bind m k w = (Ok b, w') ->
  exists a w1, m w = (Ok a, w1) /\ k a w1 = (Ok b, w').
Proof.
  unfold bind. destruct (m w) as [[a|e] w1]; [eauto | discriminate].
Qed.

Lemma doc_update_Ok env id payload w w' :
  doc_update env id payload w = (Ok tt, w') ->
  exists doc doc',
    events w !! id = Some doc
    /\ write_fields env doc payload = Ok doc'
    /\ events w' = <[id := doc']> (events w).
Proof.
  unfold doc_update, backend. destruct (doc_update_error env); [discriminate |].
  cbn [events add_issued].
  destruct (events w !! id) as [doc|]; [| discriminate].
  destruct (write_fields env doc payload) as [doc'|] eqn:Hw; [| discriminate].
  intros [= <-]. exists doc, doc'.
  split; [reflexivity | split; [exact Hw | reflexivity]].
Qed.

Lemma handle_200 (body : M response) where_ failure w r w' :
  handle body where_ failure w = (r, w') -> status r = 200%Z ->
  body w = (Ok r, w').
Proof.
  unfold handle. destruct (body w) as [[r0|e] w1]; intros [= <- <-].
  - reflexivity.
  - discriminate.
Qed.

Lemma firestore_put_200 Date_parse env req w :
  status (fst (Firestore.put_event Date_parse env req w)) = 200%Z ->
  exists doc doc' ts,
    events w !! params_id req = Some doc
    /\ events (snd (Firestore.put_event Date_parse env req w))
       = <[params_id req := doc']> (events w)
    /\ Firestore.eventDate_timestamp Date_parse (prop (req_body req) FIELD_DATE) = Ok ts
    /\ write_fields env doc (text_fields (req_body req) ts) = Ok doc'.
Proof.
  destruct (Firestore.put_event Date_parse env req w) as [r w'] eqn:E.
  cbn [fst snd]. intros Hr. unfold Firestore.put_event in E.
  destruct (negb (truthy_str (params_id req)));
    [injection E as <- <-; discriminate |].
  match type of E with (if ?b then _ else _) = _ => destruct b end;
    [injection E as <- <-; discriminate |].
  apply handle_200 in E; [| exact Hr].
  apply bind_Ok in E as (doc & w1 & Hget & E).
  assert (Hw1 : events w1 = events w).
  { apply (keeps_doc_get _ _ _ _ _) in Hget. exact Hget. }
  assert (Hdoc : doc = events w !! params_id req).
  { revert Hget. unfold doc_get, backend. destruct (doc_get_error env); [discriminate |].
    intros [= <- <-]. reflexivity. }
  destruct doc as [d|]; [| injection E as <- <-; discriminate].
  destruct (truthy (prop (req_body req) FIELD_DATE));
    [| injection E as <- <-; discriminate].
  destruct (Firestore.eventDate_timestamp Date_parse (prop (req_body req) FIELD_DATE))
    as [ts|e]; [| injection E as <- <-; discriminate].
  apply bind_Ok in E as ([] & w2 & Hupd & E).
  apply doc_update_Ok in Hupd as (doc & doc' & Hd & Hw & Hev).
  apply bind_Ok in E as ([] & w3 & Hlog & E).
  injection Hlog as <-. injection E as <- <-.
  rewrite Hw1 in Hd, Hev.
  exists doc, doc', ts. cbn [events add_console]. auto.
Qed.

Lemma clean_payload_eq eventData ts img :
  Session.clean_payload img
    (text_fields eventData ts ++ [(js "imageUrl", Session.pvalue_of img)])
  = text_fields eventData ts ++ image_entry img.
Proof.
  unfold Session.clean_payload, image_entry.
  destruct img as [v|].
  - destruct (truthy_field (Some v)); reflexivity.
  - reflexivity.
Qed.

Lemma write_fields_set env payload :
  forall doc doc' k v,
    NoDup (fst <$> payload) ->
    In (k, PVal v) payload ->
    write_fields env doc payload = Ok doc' ->
    doc' !! k = Some v.
Proof.
  induction payload as [|[k0 v0] l IH]; intros doc doc' k v Hnd Hin Hw; [destruct Hin |].
  cbn [fmap list_fmap fst] in Hnd. apply NoDup_cons in Hnd as [Hk0 Hnd].
  unfold write_fields in Hw. cbn [fold_left] in Hw.
  unfold write_field at 2 in Hw. cbn [fst snd] in Hw.
  destruct Hin as [[= -> ->] | Hin].
  - rewrite (write_fields_frame env l _ _ k Hw).
    + apply lookup_insert_eq.
    + intros H. apply Hk0. apply list_elem_of_In. exact H.
  - destruct v0.
    + rewrite write_fields_Err in Hw. discriminate.
    + exact (IH _ _ _ _ Hnd Hin Hw).
    + exact (IH _ _ _ _ Hnd Hin Hw).
    + exact (IH _ _ _ _ Hnd Hin Hw).
Qed.

Lemma write_fields_lookup (env : Env) (payload : list (jsstring * pvalue)) :
  forall doc doc' k pv,
    NoDup (fst <$> payload) ->
    In (k, pv) payload ->
    write_fields env doc payload = Ok doc' ->
    doc' !! k = written env pv.
Proof.
  induction payload as [|[k0 v0] l IH]; intros doc doc' k pv Hnd Hin Hw; [destruct Hin |].
  cbn [fmap list_fmap fst] in Hnd. apply NoDup_cons in Hnd as [Hk0 Hnd].
  unfold write_fields in Hw. cbn [fold_left] in Hw.
  unfold write_field at 2 in Hw. cbn [fst snd] in Hw.
  destruct Hin as [[= -> ->] | Hin].
  - assert (Hk : ~ In k (fst <$> l)).
    { intros H. apply Hk0, list_elem_of_In, H. }
    destruct pv.
    + rewrite write_fields_Err in Hw. discriminate.
    + rewrite (write_fields_frame env l _ _ k Hw Hk). apply lookup_insert_eq.
    + rewrite (write_fields_frame env l _ _ k Hw Hk). apply lookup_insert_eq.
    + rewrite (write_fields_frame env l _ _ k Hw Hk). apply lookup_delete_eq.
  - destruct v0.
    + rewrite write_fields_Err in Hw. discriminate.
    + exact (IH _ _ _ _ Hnd Hin Hw).
    + exact (IH _ _ _ _ Hnd Hin Hw).
    + exact (IH _ _ _ _ Hnd Hin Hw).
Qed.

Lemma text_fields_NoDup eventData ts img :
  NoDup (fst <$> (text_fields eventData ts ++ image_entry img)).
Proof.
  rewrite fmap_app, text_fields_keys.
  assert (H : forall l, l = [] \/ l = [js "imageUrl"] -> NoDup (mutable_fields ++ l)).
  { intros l [-> | ->]; apply (bool_decide_unpack _); vm_compute; reflexivity. }
  apply H. unfold image_entry. destruct img as [v|]; [| left; reflexivity].
  destruct (truthy_field (Some v)); right; reflexivity.
Qed.

Lemma uploadToGcs_url env f w url w' :
  uploadToGcs env f w = (Ok url, w') ->
  url = gcsPrefix ++ uniqueFilename (now env) (originalname f).
Proof.
  unfold uploadToGcs. intros H.
  apply bind_Ok in H as ([] & w1 & _ & H).
  unfold catch in H.
  match type of H with
  | match ?m with _ => _ end = _ => destruct m as [[u|e] w2] eqn:E
  end.
  - injection H as <- <-.
    apply bind_Ok in E as ([] & w3 & _ & E).
    apply bind_Ok in E as ([] & w4 & _ & E).
    injection E as <- _. reflexivity.
  - unfold bind, console_error, throw in H. discriminate H.
Qed.

Lemma session_put_200_image Date_parse env req w :
  status (fst (Session.put_event Date_parse env req w)) = 200%Z ->
  exists doc doc' ts,
    events w !! params_id req = Some doc
    /\ events (snd (Session.put_event Date_parse env req w))
       = <[params_id req := doc']> (events w)
    /\ Firestore.eventDate_timestamp Date_parse (prop (req_body req) FIELD_DATE) = Ok ts
    /\ write_fields env doc
         (text_fields (req_body req) ts ++ image_entry (image_to_update env req doc))
       = Ok doc'.
Proof.
  destruct (Session.put_event Date_parse env req w) as [r w'] eqn:E.
  cbn [fst snd]. intros Hr. unfold Session.put_event in E.
  change (Session.eventDate_timestamp Date_parse) with
    (Firestore.eventDate_timestamp Date_parse) in E.
  destruct (negb (truthy_str (params_id req)));
    [injection E as <- <-; discriminate |].
  match type of E with (if ?b then _ else _) = _ => destruct b end;
    [injection E as <- <-; discriminate |].
  apply handle_200 in E; [| exact Hr].
  apply bind_Ok in E as (doc & w1 & Hget & E).
  assert (Hw1 : events w1 = events w).
  { apply (keeps_doc_get _ _ _ _ _) in Hget. exact Hget. }
  assert (Hdoc : doc = events w !! params_id req).
  { revert Hget. unfold doc_get, backend. destruct (doc_get_error env); [discriminate |].
    intros [= <- <-]. reflexivity. }
  destruct doc as [d|]; [| injection E as <- <-; discriminate].
  apply bind_Ok in E as (img & w2 & Himg & E).
  assert (Hw2 : events w2 = events w1).
  { revert Himg.
    match goal with
    | |- ?m w1 = _ -> _ =>
        let K := fresh "K" in
        assert (K : keeps_events m) by keeps_all; apply K
    end. }
  assert (Hi : img = image_to_update env req d).
  { unfold image_to_update. destruct (req_file req) as [f|].
    - apply bind_Ok in Himg as ([] & wa & _ & Himg).
      apply bind_Ok in Himg as ([] & wb & _ & Himg).
      apply bind_Ok in Himg as (url & wc & Hup & Himg).
      apply uploadToGcs_url in Hup. subst url.
      apply bind_Ok in Himg as ([] & wd & _ & Himg).
      injection Himg as <- _. reflexivity.
    - injection Himg as <- _. reflexivity. }
  destruct (truthy (prop (req_body req) FIELD_DATE));
    [| injection E as <- <-; discriminate].
  destruct (Firestore.eventDate_timestamp Date_parse (prop (req_body req) FIELD_DATE))
    as [ts|e]; [| injection E as <- <-; discriminate].
  apply bind_Ok in E as ([] & w3 & Hupd & E).
  apply doc_update_Ok in Hupd as (doc & doc' & Hd & Hw & Hev).
  apply bind_Ok in E as ([] & w4 & Hlog & E).
  injection Hlog as <-. injection E as <- <-.
  rewrite Hw2, Hw1 in Hd, Hev.
  rewrite clean_payload_eq in Hw.
  symmetry in Hdoc. rewrite Hd in Hdoc. injection Hdoc as ->. subst img.
  exists d, doc', ts. cbn [events add_console]. auto.
Qed.

(** C5, as stated, fails in the session revision: an update that brings a
    new image succeeds and overwrites [imageUrl], which is not among the
    nine fields the claim lists. *)
Lemma update_overwrites_imageUrl :
  let out :=
    Session.put_event sample_Date_parse (quiet_env 5 []) (update_request (Some upload_b))
      stored_world in
  status (fst out) = 200%Z
  /\ ~ In (js "imageUrl") mutable_fields
  /\ events stored_world !! js "e1" ≫= (fun doc => doc !! js "imageUrl")
     = Some (VJson (JStr old_image))
  /\ events (snd out) !! js "e1" ≫= (fun doc => doc !! js "imageUrl")
     = Some (VJson (JStr (js "https://storage.googleapis.com/ebaplanner_event_images/5-a_b.png"))).
Proof.
  cbn zeta. split; [vm_compute; reflexivity |].
  split; [vm_compute; intuition discriminate |].
  split; vm_compute; reflexivity.
Qed.

(** C5, amended.  A successful update leaves the record under its id and
    writes the nine fields title, eventDate, startTime, endTime,
    description, resources, responsible, eventType and participantInfo
    from the request; every other field of the record, [createdAt] among
    them, keeps its value.  In the session revision [imageUrl] is written
    as well: it becomes the URL of the image the request brings, or else
    keeps the reference the record holds, and the field is removed when
    that reference is empty ([null], the empty text); it is every field
    other than these ten that keeps its value. *)
Theorem update_keeps_other_fields :
  forall (Date_parse : jsstring -> option Z) (env : Env) (req : Request) (w : World),
    (status (fst (Firestore.put_event Date_parse env req w)) = 200%Z ->
     exists doc doc' ts,
       events w !! params_id req = Some doc
       /\ events (snd (Firestore.put_event Date_parse env req w))
          = <[params_id req := doc']> (events w)
       /\ Firestore.eventDate_timestamp Date_parse (prop (req_body req) FIELD_DATE)
          = Ok ts
       /\ (forall k v, In (k, PVal v) (text_fields (req_body req) ts) ->
           doc' !! k = Some v)
       /\ (forall k, ~ In k mutable_fields -> doc' !! k = doc !! k)
       /\ doc' !! js "createdAt" = doc !! js "createdAt")
    /\ (status (fst (Session.put_event Date_parse env req w)) = 200%Z ->
        exists doc doc' ts,
          events w !! params_id req = Some doc
          /\ events (snd (Session.put_event Date_parse env req w))
             = <[params_id req := doc']> (events w)
          /\ Firestore.eventDate_timestamp Date_parse (prop (req_body req) FIELD_DATE)
             = Ok ts
          /\ (forall k v, In (k, PVal v) (text_fields (req_body req) ts) ->
              doc' !! k = Some v)
          /\ doc' !! js "imageUrl"
             = match req_file req with
               | Some f =>
                   Some (VJson (JStr (gcsPrefix
                                      ++ uniqueFilename (now env) (originalname f))))
               | None =>
                   if truthy_field (doc !! js "imageUrl")
                   then doc !! js "imageUrl"
                   else None
               end
          /\ (forall k, ~ In k mutable_fields -> k <> js "imageUrl" ->
              doc' !! k = doc !! k)
          /\ doc' !! js "createdAt" = doc !! js "createdAt").
Proof.
  intros Date_parse env req w. split.
  - intros H. destruct (firestore_put_200 _ _ _ _ H) as (doc & doc' & ts & Hd & Hev & Hts & Hw).
    assert (Hframe : forall k, ~ In k mutable_fields -> doc' !! k = doc !! k).
    { intros k Hk. apply (write_fields_frame _ _ _ _ _ Hw).
      rewrite text_fields_keys. exact Hk. }
    exists doc, doc', ts. repeat split; try assumption.
    + intros k v Hin.
      pose proof (text_fields_NoDup (req_body req) ts None) as Hnd.
      cbn [image_entry] in Hnd. rewrite app_nil_r in Hnd.
      exact (write_fields_set env _ doc doc' k v Hnd Hin Hw).
    + apply Hframe. vm_compute. intuition discriminate.
  - intros H.
    destruct (session_put_200_image _ _ _ _ H) as (doc & doc' & ts & Hd & Hev & Hts & Hw).
    set (img := image_to_update env req doc) in *.
    pose proof (text_fields_NoDup (req_body req) ts img) as Hnd.
    assert (Hframe : forall k, ~ In k mutable_fields -> k <> js "imageUrl" ->
                               doc' !! k = doc !! k).
    { intros k Hk Hi. apply (write_fields_frame _ _ _ _ _ Hw).
      rewrite fmap_app, text_fields_keys. intros Hin.
      apply in_app_or in Hin as [Hin | Hin]; [exact (Hk Hin) |].
      unfold image_entry in Hin. destruct img as [v|]; [| destruct Hin].
      destruct (truthy_field (Some v)); destruct Hin as [Hin | []];
        exact (Hi (eq_sym Hin)). }
    assert (Himage : doc' !! js "imageUrl"
                     = if truthy_field img then img else None).
    { destruct img as [v|] eqn:Himg.
      - assert (Hin : In (js "imageUrl", if truthy_field (Some v) then PVal v else PDelete)
                        (text_fields (req_body req) ts ++ image_entry (Some v))).
        { apply in_or_app. right. unfold image_entry.
          destruct (truthy_field (Some v)); left; reflexivity. }
        rewrite (write_fields_lookup env _ doc doc' _ _ Hnd Hin Hw).
        destruct (truthy_field (Some v)); reflexivity.
      - cbn [truthy_field].
        rewrite (write_fields_frame _ _ _ _ (js "imageUrl") Hw).
        + subst img. unfold image_to_update in Himg.
          destruct (req_file req); [discriminate | exact Himg].
        + cbn [image_entry]. rewrite app_nil_r, text_fields_keys.
          vm_compute. intuition discriminate. }
    exists doc, doc', ts. repeat split; try assumption.
    + intros k v Hin.
      apply (write_fields_set env _ doc doc' k v Hnd);
        [apply in_or_app; left; exact Hin | exact Hw].
    + rewrite Himage. subst img. unfold image_to_update.
      destruct (req_file req) as [f|]; reflexivity.
    + apply Hframe; [vm_compute; intuition discriminate | discriminate].
Qed.

Lemma update_keeps_other_fields_witness :
  exists doc doc',
    events stored_world !! js "e1" = Some doc
    /\ events (snd (Firestore.put_event sample_Date_parse (quiet_env 5 [])
                      (update_request None) stored_world))
       = <[ js "e1" := doc' ]> (events stored_world)
    /\ doc' !! js "title" = Some (VJson (JStr (js "Retro")))
    /\ doc' !! js "createdAt" = doc !! js "createdAt".
Proof.
  destruct (proj1 (update_keeps_other_fields sample_Date_parse (quiet_env 5 [])
                     (update_request None) stored_world))
    as (doc & doc' & ts & Hdoc & Hev & Hts & Hset & Hframe & Hcreated).
  - vm_compute. reflexivity.
  - exists doc, doc'. split; [exact Hdoc |]. split; [exact Hev |].
    split; [| exact Hcreated].
    apply Hset. left. reflexivity.
Defined.

(** ** The order of the event list *)

Lemma str_compare_refl (a : jsstring) : str_compare a a = Eq.
Proof. induction a as [|x a IH]; [reflexivity |]. cbn. rewrite N.compare_refl. exact IH. Qed.

Lemma str_compare_eq (a b : jsstring) : str_compare a b = Eq -> a = b.
Proof.
  revert b. induction a as [|x a IH]; intros [|y b]; cbn; try discriminate; [reflexivity |].
  destruct (x ?= y) eqn:E; try discriminate.
  apply N.compare_eq in E. subst y. intros H. f_equal. apply IH, H.
Qed.

Lemma str_compare_antisym (a b : jsstring) :
  str_compare b a = CompOpp (str_compare a b).
Proof.
  revert b. induction a as [|x a IH]; intros [|y b]; cbn; try reflexivity.
  rewrite (N.compare_antisym x y). destruct (x ?= y); cbn; [apply IH | reflexivity..].
Qed.

Lemma str_compare_lt_trans (a b c : jsstring) :
  str_compare a b = Lt -> str_compare b c = Lt -> str_compare a c = Lt.
Proof.
  revert b c. induction a as [|x a IH]; intros [|y b] [|z c]; cbn; try discriminate; auto.
  destruct (x ?= y) eqn:Exy; try discriminate.
  - apply N.compare_eq in Exy. subst y.
    destruct (x ?= z); try discriminate; auto. apply IH.
  - intros _. destruct (y ?= z) eqn:Eyz; try discriminate.
    + apply N.compare_eq in Eyz. subst z. rewrite Exy. reflexivity.
    + intros _. rewrite N.compare_lt_iff in Exy, Eyz.
      assert (H : (x ?= z) = Lt) by (apply N.compare_lt_iff; lia).
      rewrite H. reflexivity.
Qed.

Lemma str_compare_le_trans (a b c : jsstring) :
  str_compare a b <> Gt -> str_compare b c <> Gt -> str_compare a c <> Gt.
Proof.
  intros Hab Hbc.
  destruct (str_compare a b) eqn:E1; [| | contradiction].
  - apply str_compare_eq in E1. subst b. exact Hbc.
  - destruct (str_compare b c) eqn:E2; [| | contradiction].
    + apply str_compare_eq in E2. subst c. rewrite E1. discriminate.
    + rewrite (str_compare_lt_trans _ _ _ E1 E2). discriminate.
Qed.

Lemma compare_events_le (a b : Sheets.event) :
  (0 <? Sheets.compare_events a b)%Z = false -> listed_in_order a b.
Proof.
  unfold Sheets.compare_events, listed_in_order.
  fold (dated a) (dated b) (date_text a) (date_text b) (startTime a) (startTime b).
  unfold str_lt, str_gt.
  destruct (dated a), (dated b); cbn [negb andb]; try (intros; discriminate || reflexivity || exact I).
  destruct (str_compare (date_text a) (date_text b)) eqn:Ed; try discriminate.
  - intros H. right. split; [apply str_compare_eq, Ed |].
    destruct (str_compare (startTime a) (startTime b)); discriminate.
  - intros _. left. reflexivity.
Qed.

Lemma compare_events_gt (a b : Sheets.event) :
  (0 <? Sheets.compare_events a b)%Z = true -> listed_in_order b a.
Proof.
  unfold Sheets.compare_events, listed_in_order.
  fold (dated a) (dated b) (date_text a) (date_text b) (startTime a) (startTime b).
  unfold str_lt, str_gt.
  destruct (dated a), (dated b); cbn [negb andb]; try (intros; discriminate || reflexivity || exact I).
  rewrite (str_compare_antisym (date_text a) (date_text b)).
  rewrite (str_compare_antisym (startTime a) (startTime b)).
  destruct (str_compare (date_text a) (date_text b)) eqn:Ed; cbn [CompOpp]; try discriminate.
  - intros H. right. split; [symmetry; apply str_compare_eq, Ed |].
    destruct (str_compare (startTime a) (startTime b)); cbn; discriminate.
  - intros _. left. reflexivity.
Qed.

Lemma listed_in_order_trans (a b c : Sheets.event) :
  listed_in_order a b -> listed_in_order b c -> listed_in_order a c.
Proof.
  unfold listed_in_order.
  destruct (dated a), (dated b), (dated c); try (intros; discriminate || exact I || reflexivity || assumption).
  intros [H1 | [E1 T1]] [H2 | [E2 T2]].
  - left. eapply str_compare_lt_trans; eassumption.
  - left. rewrite <- E2. exact H1.
  - left. rewrite E1. exact H2.
  - right. split; [congruence | eapply str_compare_le_trans; eassumption].
Qed.

Lemma sort_insert_perm {A} (cmp : A -> A -> Z) x l :
  Permutation (x :: l) (Sheets.sort_insert cmp x l).
Proof.
  induction l as [|y l IH]; cbn; [reflexivity |].
  destruct (0 <? cmp x y)%Z; [| reflexivity].
  rewrite perm_swap. apply perm_skip, IH.
Qed.

Lemma Array_sort_perm {A} (cmp : A -> A -> Z) l :
  Permutation l (Sheets.Array_sort cmp l).
Proof.
  induction l as [|x l IH]; cbn; [reflexivity |].
  rewrite <- sort_insert_perm. apply perm_skip, IH.
Qed.

Lemma sort_insert_sorted x l :
  StronglySorted listed_in_order l ->
  StronglySorted listed_in_order (Sheets.sort_insert Sheets.compare_events x l).
Proof.
  induction l as [|y l IH]; intros Hs; cbn.
  - repeat constructor.
  - apply StronglySorted_inv in Hs as [Hs Hy].
    destruct (0 <? Sheets.compare_events x y)%Z eqn:E.
    + constructor; [apply IH, Hs |].
      apply compare_events_gt in E.
      rewrite <- (sort_insert_perm Sheets.compare_events x l).
      constructor; assumption.
    + apply compare_events_le in E.
      constructor; [constructor; assumption |].
      constructor; [exact E |].
      eapply Forall_impl; [exact Hy |]. intros z Hz.
      eapply listed_in_order_trans; eassumption.
Qed.

Lemma Array_sort_sorted l :
  StronglySorted listed_in_order (Sheets.Array_sort Sheets.compare_events l).
Proof.
  induction l as [|x l IH]; cbn; [constructor | apply sort_insert_sorted, IH].
Qed.

Lemma list_events_sorted new_Date api evs :
  Sheets.list_events new_Date api = Ok evs ->
  StronglySorted listed_in_order evs
  /\ exists headers values collected,
       Sheets.dataResponse api = Ok values
       /\ Sheets.collect_events new_Date headers 2 (default [] values) 0 = Ok collected
       /\ Permutation collected evs.
Proof.
  unfold Sheets.list_events.
  destruct (Sheets.client api); [| discriminate].
  destruct (Sheets.headerResponse api) as [hv|]; [| discriminate].
  destruct (match hv with
            | Some (h :: _) => Ok (trim <$> h)
            | Some [] => Err (js "Cannot read properties of undefined")
            | None => Ok []
            end) as [headers|]; [| discriminate].
  destruct (length headers =? 0)%nat; [discriminate |].
  destruct (Sheets.dataResponse api) as [dv|]; [| discriminate].
  change (Sheets.HEADER_ROW + 1)%Z with 2%Z.
  destruct (Sheets.collect_events new_Date headers 2 (default [] dv) 0) as [collected|] eqn:E;
    [| discriminate].
  intros [= <-]. split; [apply Array_sort_sorted |].
  exists headers, dv, collected. repeat split; [exact E | apply Array_sort_perm].
Qed.

Lemma list_orders_example :
  exists evs,
    Sheets.list_events host_Date (reads example_rows) = Ok evs
    /\ map Sheets.rowNum evs = [4; 2; 3]%Z
    /\ map Sheets.sortableDate evs
       = [Some (js "2025-01-01"); Some (js "2025-01-02"); None].
Proof. eexists. split; [vm_compute; reflexivity | split; reflexivity]. Qed.

(** *** Date texts and dates *)

Lemma pair_all :
  forallb (fun a => forallb (pair_ok a) (seqZ 0 100)) (seqZ 0 100) = true.
Proof. vm_compute. reflexivity. Qed.

Lemma year_split_all : forallb year_split_ok (seqZ 1901 8099) = true.
Proof. vm_compute. reflexivity. Qed.

Lemma two_digits_compare (a b : Z) :
  (0 <= a < 100)%Z -> (0 <= b < 100)%Z ->
  length (two_digits a) = 2%nat
  /\ str_compare (two_digits a) (two_digits b) = (a ?= b)%Z.
Proof.
  intros Ha Hb.
  pose proof pair_all as H. rewrite forallb_forall in H.
  assert (Hia : In a (seqZ 0 100)) by (apply list_elem_of_In, elem_of_seqZ; lia).
  assert (Hib : In b (seqZ 0 100)) by (apply list_elem_of_In, elem_of_seqZ; lia).
  specialize (H a Hia). rewrite forallb_forall in H. specialize (H b Hib).
  unfold pair_ok in H. apply andb_true_iff in H as [Hl Hc].
  apply Nat.eqb_eq in Hl. split; [exact Hl |].
  destruct (str_compare (two_digits a) (two_digits b)), (a ?= b)%Z;
    try reflexivity; discriminate.
Qed.

Lemma str_compare_app (a b c d : jsstring) :
  length a = length b ->
  str_compare (a ++ c) (b ++ d)
  = match str_compare a b with Eq => str_compare c d | r => r end.
Proof.
  revert b. induction a as [|x a IH]; intros [|y b] Hl; try discriminate Hl.
  - reflexivity.
  - cbn. destruct (x ?= y); [apply IH; injection Hl; auto | reflexivity..].
Qed.

Lemma year_compare (y y' : Z) :
  (1900 < y <= 9999)%Z -> (1900 < y' <= 9999)%Z ->
  length (Number_toString y) = 4%nat
  /\ str_compare (Number_toString y) (Number_toString y') = (y ?= y')%Z.
Proof.
  intros Hy Hy'.
  pose proof year_split_all as H. rewrite forallb_forall in H.
  assert (Hs : forall z, (1900 < z <= 9999)%Z ->
               Number_toString z = two_digits (z / 100) ++ two_digits (z mod 100)).
  { intros z Hz. apply (bool_decide_eq_true_1 _). apply H.
    apply list_elem_of_In, elem_of_seqZ. lia. }
  rewrite (Hs y Hy), (Hs y' Hy').
  assert (Hq : (0 <= y / 100 < 100)%Z) by (split; [apply Z.div_pos; lia | apply Z.div_lt_upper_bound; lia]).
  assert (Hq' : (0 <= y' / 100 < 100)%Z) by (split; [apply Z.div_pos; lia | apply Z.div_lt_upper_bound; lia]).
  assert (Hr : (0 <= y mod 100 < 100)%Z) by (apply Z.mod_pos_bound; lia).
  assert (Hr' : (0 <= y' mod 100 < 100)%Z) by (apply Z.mod_pos_bound; lia).
  destruct (two_digits_compare _ _ Hq Hq') as [L1 C1].
  destruct (two_digits_compare _ _ Hq' Hq) as [L1' _].
  destruct (two_digits_compare _ _ Hr Hr') as [L2 C2].
  split.
  - rewrite length_app, L1, L2. reflexivity.
  - rewrite str_compare_app by congruence. rewrite C1, C2.
    pose proof (Z.div_mod y 100 ltac:(lia)) as E.
    pose proof (Z.div_mod y' 100 ltac:(lia)) as E'.
    destruct (y / 100 ?= y' / 100)%Z eqn:Cq.
    + apply Z.compare_eq in Cq.
      destruct (y mod 100 ?= y' mod 100)%Z eqn:Cr; symmetry.
      * apply Z.compare_eq in Cr. apply Z.compare_eq_iff. lia.
      * rewrite Z.compare_lt_iff in Cr. apply Z.compare_lt_iff. lia.
      * rewrite Z.compare_gt_iff in Cr. apply Z.compare_gt_iff. lia.
    + rewrite Z.compare_lt_iff in Cq. symmetry. apply Z.compare_lt_iff. lia.
    + rewrite Z.compare_gt_iff in Cq. symmetry. apply Z.compare_gt_iff. lia.
Qed.

(** For years of four digits the order of the canonical texts is the
    order of the dates. *)
Lemma canonical_order (y m d y' m' d' : Z) :
  (1900 < y <= 9999)%Z -> (1 <= m <= 12)%Z -> (1 <= d <= 31)%Z ->
  (1900 < y' <= 9999)%Z -> (1 <= m' <= 12)%Z -> (1 <= d' <= 31)%Z ->
  str_compare (canonical y m d) (canonical y' m' d')
  = date_compare (y, m, d) (y', m', d').
Proof.
  intros Hy Hm Hd Hy' Hm' Hd'. unfold canonical, date_compare.
  destruct (year_compare y y' Hy Hy') as [Ly Cy].
  destruct (year_compare y' y Hy' Hy) as [Ly' _].
  destruct (two_digits_compare m m' ltac:(lia) ltac:(lia)) as [Lm Cm].
  destruct (two_digits_compare m' m ltac:(lia) ltac:(lia)) as [Lm' _].
  destruct (two_digits_compare d d' ltac:(lia) ltac:(lia)) as [Ld Cd].
  rewrite str_compare_app by congruence. rewrite Cy.
  destruct (y ?= y')%Z; try reflexivity.
  rewrite (str_compare_app [45] [45]) by reflexivity. cbn [str_compare N.compare].
  change (45 ?= 45) with Eq. cbv iota.
  rewrite str_compare_app by congruence. rewrite Cm.
  destruct (m ?= m')%Z; try reflexivity.
  rewrite (str_compare_app [45] [45]) by reflexivity.
  change (str_compare [45] [45]) with Eq. cbv iota. exact Cd.
Qed.

(** Two events dated through the numeric forms stand in the list in the
    order of their dates. *)
Lemma listed_in_order_calendar (a b : Sheets.event) (y m d y' m' d' : Z) :
  (1900 < y <= 9999)%Z -> (1 <= m <= 12)%Z -> (1 <= d <= 31)%Z ->
  (1900 < y' <= 9999)%Z -> (1 <= m' <= 12)%Z -> (1 <= d' <= 31)%Z ->
  Sheets.sortableDate a = Some (canonical y m d) ->
  Sheets.sortableDate b = Some (canonical y' m' d') ->
  listed_in_order a b ->
  date_compare (y, m, d) (y', m', d') <> Gt.
Proof.
  intros Hy Hm Hd Hy' Hm' Hd' Ha Hb.
  rewrite <- (canonical_order y m d y' m' d') by assumption.
  unfold listed_in_order, dated, date_text. rewrite Ha, Hb. cbn [default from_option id].
  assert (Ta : truthy_opt (Some (canonical y m d)) = true).
  { unfold canonical. destruct (year_compare y y Hy Hy) as [L _].
    destruct (Number_toString y); [discriminate L | reflexivity]. }
  assert (Tb : truthy_opt (Some (canonical y' m' d')) = true).
  { unfold canonical. destruct (year_compare y' y' Hy' Hy') as [L _].
    destruct (Number_toString y'); [discriminate L | reflexivity]. }
  rewrite Ta, Tb. intros [H | [H _]].
  - rewrite H. discriminate.
  - rewrite H, str_compare_refl. discriminate.
Qed.


(** C1.  The list of the spreadsheet revision puts an event of the year
    2025 before an event of the year 500: the generic parser accepts the
    text [0500-01-01] (the year fails the range test of the numeric
    form), the date comes out as [500-01-01], without the leading zero,
    and the comparator compares date texts as strings.  In the sheet the
    two rows stand in the order of their dates; the list reverses them. *)
Theorem list_misorders_early_year :
  exists e1 e2,
    Sheets.list_events host_Date (reads early_rows) = Ok [e1; e2]
    /\ Sheets.rowNum e1 = 3%Z
    /\ Sheets.column Sheets.COL_DATE (Sheets.columns e1) = Some (js "2025-01-01")
    /\ Sheets.sortableDate e1 = Some (js "2025-01-01")
    /\ Sheets.rowNum e2 = 2%Z
    /\ Sheets.column Sheets.COL_DATE (Sheets.columns e2) = Some (js "0500-01-01")
    /\ Sheets.sortableDate e2 = Some (js "500-01-01").
Proof.
  eexists _, _. split; [vm_compute; reflexivity |].
  repeat split.
Qed.

(** * Further properties of the spreadsheet revision *)

(** ** White space around a date *)

Lemma dropWhile_idem {A} (p : A -> bool) (l : list A) :
  dropWhile p (dropWhile p l) = dropWhile p l.
Proof.
  induction l as [|x l IH]; [reflexivity |]. cbn.
  destruct (p x) eqn:E; [exact IH |]. cbn. rewrite E. reflexivity.
Qed.

Lemma dropWhile_app {A} (p : A -> bool) (l k : list A) :
  dropWhile p (l ++ k)
  = if forallb p l then dropWhile p k else dropWhile p l ++ k.
Proof.
  induction l as [|x l IH]; [reflexivity |]. cbn.
  destruct (p x); [exact IH | reflexivity].
Qed.

(** Dropping from the right, read from the left. *)
Lemma dropWhile_right_cons {A} (p : A -> bool) (x : A) (l : list A) :
  rev (dropWhile p (rev (x :: l)))
  = match rev (dropWhile p (rev l)) with
    | [] => if p x then [] else [x]
    | t => x :: t
    end.
Proof.
  cbn [rev]. rewrite dropWhile_app.
  destruct (forallb p (rev l)) eqn:E.
  - assert (H : dropWhile p (rev l) = []).
    { clear - E. induction (rev l) as [|y k IH]; [reflexivity |].
      cbn in *. destruct (p y); [apply IH, E | discriminate]. }
    rewrite H. cbn. destruct (p x); reflexivity.
  - rewrite rev_app_distr. cbn.
    destruct (rev (dropWhile p (rev l))) eqn:H; [| reflexivity].
    exfalso. apply (f_equal (@rev A)) in H. rewrite rev_involutive in H. cbn in H.
    clear - E H. induction (rev l) as [|y k IH]; [discriminate E |].
    cbn in *. destruct (p y); [apply IH; assumption | discriminate H].
Qed.

Lemma dropWhile_left_right {A} (p : A -> bool) (l : list A) :
  dropWhile p (rev (dropWhile p (rev l)))
  = rev (dropWhile p (rev (dropWhile p l))).
Proof.
  induction l as [|x l IH]; [reflexivity |].
  rewrite dropWhile_right_cons.
  destruct (p x) eqn:E.
  - cbn [dropWhile]. rewrite E, <- IH.
    destruct (rev (dropWhile p (rev l))) as [|y t]; [reflexivity |].
    cbn [dropWhile]. rewrite E. reflexivity.
  - replace (dropWhile p (x :: l)) with (x :: l) by (cbn; rewrite E; reflexivity).
    rewrite dropWhile_right_cons, E.
    destruct (rev (dropWhile p (rev l))); cbn; rewrite E; reflexivity.
Qed.

Lemma trim_idem (s : jsstring) : trim (trim s) = trim s.
Proof.
  unfold trim.
  rewrite (dropWhile_left_right isWhiteSpace (dropWhile isWhiteSpace s)).
  rewrite dropWhile_idem, rev_involutive, dropWhile_idem. reflexivity.
Qed.

(** X1.  White space before and after a date text does not matter to
    [parseAndFormatDate]: it returns for a text what it returns for the
    trimmed text, whatever the generic parser of the host does. *)
Theorem parseAndFormatDate_ignores_white_space :
  forall (new_Date : jsstring -> result (option LocalDate)) (dateValue : jsstring),
    Sheets.parseAndFormatDate new_Date dateValue
    = Sheets.parseAndFormatDate new_Date (trim dateValue).
Proof.
  intros new_Date s. rewrite !parseAndFormatDate_normalize. unfold normalize_spec.
  rewrite trim_idem. reflexivity.
Qed.

(** ** A date followed by more text *)

Lemma match_from_bol (r : regex) (s : jsstring) :
  forall i, match_from (RSeq RBol r) (S i) s = None.
Proof.
  induction s as [|c s IH]; intros i; cbn; [reflexivity | apply IH].
Qed.

Lemma String_match_bol (r : regex) (s : jsstring) :
  String_match s (RSeq RBol r) = match_at (RSeq RBol r) 0 s.
Proof.
  unfold String_match. destruct s as [|c s]; cbn [match_from].
  - destruct (match_at _ _ _); reflexivity.
  - rewrite match_from_bol. destruct (match_at _ _ _); reflexivity.
Qed.

Section ShapesWithRest.

Local Opaque isDigit isWhiteSpace N.eqb.

Lemma nomatch_ymd_rest_dmy D M Y rest :
  digit_text 2 2 D -> digit_text 2 2 M -> digit_text 4 4 Y ->
  String_match (Y ++ [45] ++ M ++ [45] ++ D ++ rest) re_dmy = None.
Proof.
  unfold re_dmy. rewrite String_match_bol.
  intros HD HM HY; shape HD D; shape HM M; shape HY Y.
  crunch. reflexivity.
Qed.

Lemma match_ymd_rest D M Y rest :
  digit_text 2 2 D -> digit_text 2 2 M -> digit_text 4 4 Y ->
  exists whole,
    String_match (Y ++ [45] ++ M ++ [45] ++ D ++ rest) re_ymd = Some [whole; Y; M; D].
Proof.
  unfold re_ymd. rewrite String_match_bol.
  intros HD HM HY; shape HD D; shape HM M; shape HY Y.
  crunch. eexists. reflexivity.
Qed.

End ShapesWithRest.

Lemma two_digits_facts (n : Z) :
  (1 <= n <= 31)%Z ->
  digit_text 2 2 (two_digits n) /\ parseInt (two_digits n) = Some n
  /\ Sheets.pad2 (Number_toString n) = two_digits n.
Proof.
  intros Hn.
  assert (HD : two_digits n ∈ renderings n).
  { apply list_elem_of_In. right. left. reflexivity. }
  destruct (small_facts n _ Hn HD) as ([_ Hd] & Hp & Hpad).
  destruct (two_digits_compare n n ltac:(lia) ltac:(lia)) as [Hl _].
  repeat split; try assumption; lia.
Qed.

(** X2.  The pattern of the year-month-day form is not anchored at its
    end: a text that starts, after trimming, with the canonical
    [YYYY-MM-DD] of a date in range is normalized to that date whatever
    follows it, a time of day for instance. *)
Theorem parseAndFormatDate_ignores_what_follows :
  forall (new_Date : jsstring -> result (option LocalDate)) (y m d : Z)
         (dateValue rest : jsstring),
    (1900 < y <= 9999)%Z -> (1 <= m <= 12)%Z -> (1 <= d <= 31)%Z ->
    trim dateValue = canonical y m d ++ rest ->
    Sheets.parseAndFormatDate new_Date dateValue = Return (Some (canonical y m d)).
Proof.
  intros new_Date y m d s rest Hy Hm Hd Htrim.
  destruct (two_digits_facts d Hd) as (HDt & HDp & HDpad).
  destruct (two_digits_facts m ltac:(lia)) as (HMt & HMp & HMpad).
  destruct (year_facts y Hy) as (HYt & HYp).
  assert (Hcanon : Sheets.ymd_text (Some y) (Some m) (Some d) = canonical y m d).
  { unfold Sheets.ymd_text, canonical, num_text. rewrite HDpad, HMpad. reflexivity. }
  assert (Hrange := in_range_true y m d ltac:(lia) Hm Hd).
  rewrite parseAndFormatDate_normalize. unfold normalize_spec. rewrite Htrim.
  unfold canonical. rewrite <- !app_assoc.
  rewrite (digit_text_truthy 3 4 (Number_toString y)) by assumption.
  unfold strategies, first_success, numeric_form.
  rewrite (nomatch_ymd_rest_dmy _ _ _ rest HDt HMt HYt).
  destruct (match_ymd_rest _ _ _ rest HDt HMt HYt) as [whole ->].
  cbn [group nth]. rewrite HDp, HMp, HYp, Hrange, Hcanon. reflexivity.
Qed.

(** A date with its time of day. *)
Lemma parseAndFormatDate_ignores_what_follows_witness :
  Sheets.parseAndFormatDate (fun _ => Ok None) (js " 2025-12-25T10:30:00Z")
  = Return (Some (js "2025-12-25")).
Proof.
  apply (parseAndFormatDate_ignores_what_follows (fun _ => Ok None) 2025 12 25
           (js " 2025-12-25T10:30:00Z") (js "T10:30:00Z")); first [lia | reflexivity].
Defined.

(** ** The rows behind the event list *)

Lemma row_event_fields (new_Date : jsstring -> result (option LocalDate))
    (headers : list jsstring) (row : list Sheets.cell) (n : Z) (e : Sheets.event) :
  e = row_event new_Date headers row n
  <-> Sheets.columns e = Sheets.row_columns headers row
      /\ Sheets.parseAndFormatDate new_Date
           (default [] (Sheets.column Sheets.COL_DATE (Sheets.columns e)))
         = Return (Sheets.sortableDate e)
      /\ Sheets.rowNum e = n.
Proof.
  unfold row_event. split.
  - intros ->. cbn. rewrite parseAndFormatDate_normalize. auto.
  - destruct e as [cols sd k]. cbn. intros (-> & Hd & ->).
    rewrite parseAndFormatDate_normalize in Hd. injection Hd as <-. reflexivity.
Qed.

Section Collect.

Variable new_Date : jsstring -> result (option LocalDate).
Variable headers : list jsstring.

Lemma collect_events_rows (startRow : Z) (values : list (list Sheets.cell)) :
  forall index,
  exists evs,
    Sheets.collect_events new_Date headers startRow values index = Ok evs
    /\ (forall e, In e evs <->
          exists i row,
            values !! i = Some row
            /\ Sheets.hasData (Sheets.row_columns headers row) = true
            /\ e = row_event new_Date headers row (startRow + index + Z.of_nat i))
    /\ Forall (fun e => (startRow + index <= Sheets.rowNum e)%Z) evs
    /\ StronglySorted (fun a b => (Sheets.rowNum a < Sheets.rowNum b)%Z) evs.
Proof.
  induction values as [|row rest IH]; intros index.
  - exists []. repeat split; try constructor.
    + intros [].
    + intros (i & row & H & _). rewrite lookup_nil in H. discriminate.
  - destruct (IH (index + 1)%Z) as (evs & Hc & Hin & Hlo & Hs).
    cbn [Sheets.collect_events]. rewrite Hc.
    assert (Hshift : forall e,
              (exists i row0,
                 rest !! i = Some row0
                 /\ Sheets.hasData (Sheets.row_columns headers row0) = true
                 /\ e = row_event new_Date headers row0
                          (startRow + (index + 1) + Z.of_nat i))
              <-> (exists i row0,
                     (row :: rest) !! S i = Some row0
                     /\ Sheets.hasData (Sheets.row_columns headers row0) = true
                     /\ e = row_event new_Date headers row0
                              (startRow + index + Z.of_nat (S i)))).
    { intros e. split; intros (i & row0 & H1 & H2 & H3); exists i, row0;
        (split; [exact H1 | split; [exact H2 |]]); rewrite H3; f_equal; lia. }
    destruct (Sheets.hasData (Sheets.row_columns headers row)) eqn:Hd.
    + rewrite parseAndFormatDate_normalize. cbn [call].
      eexists. split; [reflexivity |]. split; [| split].
      * intros e. split.
        -- intros [<- | He].
           ++ exists 0%nat, row. split; [reflexivity |]. split; [exact Hd |].
              unfold row_event. f_equal. lia.
           ++ apply Hin, Hshift in He. destruct He as (i & row0 & H).
              exists (S i), row0. exact H.
        -- intros ([|i] & row0 & H1 & H2 & H3).
           ++ left. injection H1 as <-. rewrite H3. unfold row_event. f_equal. lia.
           ++ right. apply Hin, Hshift. exists i, row0. auto.
      * constructor; [cbn; lia |].
        eapply Forall_impl; [exact Hlo |]. cbn. intros; lia.
      * constructor; [exact Hs |].
        eapply Forall_impl; [exact Hlo |]. cbn. intros; lia.
    + exists evs. split; [reflexivity |]. split; [| split].
      * intros e. rewrite Hin, Hshift. split.
        -- intros (i & row0 & H). exists (S i), row0. exact H.
        -- intros ([|i] & row0 & H1 & H2 & H3).
           ++ injection H1 as <-. congruence.
           ++ exists i, row0. auto.
      * eapply Forall_impl; [exact Hlo |]. cbn. intros; lia.
      * exact Hs.
Qed.

End Collect.

Lemma list_events_Ok (new_Date : jsstring -> result (option LocalDate))
    (api : Sheets.SheetsReads) (h : list jsstring) (hs : list (list jsstring))
    (dv : option (list (list Sheets.cell))) :
  Sheets.client api = Ok tt ->
  Sheets.headerResponse api = Ok (Some (h :: hs)) ->
  h <> [] ->
  Sheets.dataResponse api = Ok dv ->
  exists collected,
    Sheets.list_events new_Date api
    = Ok (Sheets.Array_sort Sheets.compare_events collected)
    /\ (forall e, In e collected
                  <-> exists i, read_from new_Date (trim <$> h) (default [] dv) e i)
    /\ StronglySorted (fun a b => (Sheets.rowNum a < Sheets.rowNum b)%Z) collected.
Proof.
  intros Hc Hh Hne Hd.
  destruct (collect_events_rows new_Date (trim <$> h) 2 (default [] dv) 0)
    as (collected & Hcol & Hin & _ & Hs).
  exists collected. split; [| split; [| exact Hs]].
  - unfold Sheets.list_events. rewrite Hc, Hh, Hd. cbv beta iota.
    assert (E : (length (trim <$> h) =? 0)%nat = false).
    { destruct h; [contradiction | reflexivity]. }
    rewrite E. change (Sheets.HEADER_ROW + 1)%Z with 2%Z.
    rewrite Hcol. reflexivity.
  - intros e. rewrite Hin. unfold read_from.
    split; intros (i & row & H1 & H2 & H3).
    + exists i, row. split; [exact H1 |]. split; [exact H2 |].
      apply row_event_fields in H3 as (K1 & K2 & K3). repeat split; try assumption. lia.
    + destruct H3 as (K1 & K2 & K3). exists i, row. split; [exact H1 |].
      split; [exact H2 |]. apply row_event_fields. repeat split; try assumption. lia.
Qed.

(** X3.  When the reads of the sheet succeed and the header row is not
    empty, the list operation succeeds, and the events it lists are the
    data rows that hold data: one event per such row, carrying the
    columns of the row, its normalized date and the number of its sheet
    row, which is above the header row; no row is listed twice. *)
Theorem list_events_rows :
  forall (new_Date : jsstring -> result (option LocalDate)) (api : Sheets.SheetsReads)
         (h : list jsstring) (hs : list (list jsstring))
         (dv : option (list (list Sheets.cell))),
    Sheets.client api = Ok tt ->
    Sheets.headerResponse api = Ok (Some (h :: hs)) ->
    h <> [] ->
    Sheets.dataResponse api = Ok dv ->
    exists evs,
      Sheets.list_events new_Date api = Ok evs
      /\ (forall e, In e evs <->
            exists i, read_from new_Date (trim <$> h) (default [] dv) e i)
      /\ NoDup (Sheets.rowNum <$> evs)
      /\ Forall (fun e => (Sheets.HEADER_ROW < Sheets.rowNum e)%Z) evs.
Proof.
  intros new_Date api h hs dv Hc Hh Hne Hd.
  destruct (list_events_Ok new_Date api h hs dv Hc Hh Hne Hd)
    as (collected & Hl & Hin & Hs).
  pose proof (Array_sort_perm Sheets.compare_events collected) as Hp.
  exists (Sheets.Array_sort Sheets.compare_events collected).
  split; [exact Hl |]. split; [| split].
  - intros e. rewrite <- Hin. split; apply Permutation_in; [symmetry |]; exact Hp.
  - rewrite <- Hp. clear - Hs.
    induction Hs as [|e l Hs IH He]; cbn; constructor.
    + intros Hin. apply list_elem_of_fmap in Hin as (e' & Heq & Hin').
      rewrite Forall_forall in He. specialize (He e' Hin'). lia.
    + exact IH.
  - rewrite <- Hp. apply Forall_forall. intros e He.
    apply list_elem_of_In, Hin in He. destruct He as (i & row & _ & _ & _ & _ & ->).
    unfold Sheets.HEADER_ROW. lia.
Qed.

Lemma list_events_rows_witness :
  exists evs,
    Sheets.list_events host_Date (reads example_rows) = Ok evs
    /\ NoDup (Sheets.rowNum <$> evs).
Proof.
  destruct (list_events_rows host_Date (reads example_rows) Sheets.COLUMN_ORDER []
              (Some example_rows) eq_refl eq_refl ltac:(discriminate) eq_refl)
    as (evs & H & _ & Hnd & _).
  exists evs. split; assumption.
Defined.

(** ** Equal events keep the order of the sheet *)

Lemma compare_events_gt_strict (a b : Sheets.event) :
  (0 <? Sheets.compare_events a b)%Z = true -> ~ listed_in_order a b.
Proof.
  unfold Sheets.compare_events, listed_in_order.
  fold (dated a) (dated b) (date_text a) (date_text b) (startTime a) (startTime b).
  unfold str_lt, str_gt.
  destruct (dated a), (dated b); cbn [negb andb]; try discriminate.
  destruct (str_compare (date_text a) (date_text b)) eqn:Ed; try discriminate.
  - destruct (str_compare (startTime a) (startTime b)) eqn:Es; try discriminate.
    intros _ [H | [_ H]]; [discriminate H | apply H; reflexivity].
  - intros _ [H | [H _]]; [discriminate H |].
    rewrite H, str_compare_refl in Ed. discriminate Ed.
Qed.

Lemma sort_insert_stable x l :
  StronglySorted listed_before l ->
  Forall (fun y => (Sheets.rowNum x < Sheets.rowNum y)%Z) l ->
  StronglySorted listed_before (Sheets.sort_insert Sheets.compare_events x l).
Proof.
  induction l as [|y l IH]; intros Hs Hx; cbn.
  - repeat constructor.
  - apply StronglySorted_inv in Hs as [Hs Hy].
    apply Forall_cons in Hx as [Hxy Hx].
    destruct (0 <? Sheets.compare_events x y)%Z eqn:E.
    + constructor; [apply IH; assumption |].
      rewrite <- (sort_insert_perm Sheets.compare_events x l).
      constructor; [| exact Hy].
      split; [apply compare_events_gt, E |].
      intros H. destruct (compare_events_gt_strict _ _ E H).
    + apply compare_events_le in E.
      constructor; [constructor; assumption |].
      constructor; [split; [exact E | intros _; exact Hxy] |].
      rewrite Forall_forall in Hy, Hx. apply Forall_forall. intros z Hz.
      split; [| intros _; apply Hx, Hz].
      eapply listed_in_order_trans; [exact E | apply (Hy z Hz)].
Qed.

Lemma Array_sort_stable l :
  StronglySorted (fun a b => (Sheets.rowNum a < Sheets.rowNum b)%Z) l ->
  StronglySorted listed_before (Sheets.Array_sort Sheets.compare_events l).
Proof.
  induction l as [|x l IH]; intros Hs; cbn; [constructor |].
  apply StronglySorted_inv in Hs as [Hs Hx].
  apply sort_insert_stable; [apply IH, Hs |].
  rewrite <- (Array_sort_perm Sheets.compare_events l). exact Hx.
Qed.

(** X4.  Whatever the list operation returns stands in the order of the
    comparator: by date text, then by start time, as strings, with the
    undated events last; and events that the comparator does not tell
    apart stand in the order of their rows in the sheet. *)
Theorem list_events_stable :
  forall (new_Date : jsstring -> result (option LocalDate)) (api : Sheets.SheetsReads)
         (evs : list Sheets.event),
    Sheets.list_events new_Date api = Ok evs ->
    StronglySorted listed_before evs.
Proof.
  intros new_Date api evs. unfold Sheets.list_events.
  destruct (Sheets.client api); [| discriminate].
  destruct (Sheets.headerResponse api) as [hv|]; [| discriminate].
  destruct (match hv with
            | Some (h :: _) => Ok (trim <$> h)
            | Some [] => Err (js "Cannot read properties of undefined")
            | None => Ok []
            end) as [headers|]; [| discriminate].
  destruct (length headers =? 0)%nat; [discriminate |].
  destruct (Sheets.dataResponse api) as [dv|]; [| discriminate].
  destruct (collect_events_rows new_Date headers (Sheets.HEADER_ROW + 1) (default [] dv) 0)
    as (collected & Hcol & _ & _ & Hs).
  rewrite Hcol. intros [= <-]. apply Array_sort_stable, Hs.
Qed.

Lemma list_events_stable_witness :
  exists evs,
    Sheets.list_events host_Date (reads example_rows) = Ok evs
    /\ StronglySorted listed_before evs.
Proof.
  eexists. split; [vm_compute; reflexivity |].
  apply (list_events_stable host_Date (reads example_rows)).
  vm_compute. reflexivity.
Defined.

(** ** The appended row *)

Lemma new_row_eq (eventData : jsvalue) (isoNow : jsstring) :
  Sheets.new_row eventData isoNow
  = (column_cell eventData <$> take 9 Sheets.COLUMN_ORDER) ++ [JStr isoNow].
Proof. reflexivity. Qed.

(** X5.  The append handler changes the sheet only when it answers 201,
    and then by one row of ten cells: the first nine are the values of
    the body under the column names, the empty text where the body has
    none, and the tenth is the time of the server, whatever the body
    gives under the name of the time stamp column. *)
Theorem append_row_shape :
  forall (client append : result unit) (isoNow : jsstring) (eventData : jsvalue)
         (sheet : list (list json)),
    let out := Sheets.post_events client append isoNow eventData sheet in
    (status (fst out) = 201%Z ->
     exists row,
       snd out = sheet ++ [row]
       /\ length row = 10%nat
       /\ row !! 9%nat = Some (JStr isoNow)
       /\ forall (i : nat) (header : jsstring),
            (i < 9)%nat -> Sheets.COLUMN_ORDER !! i = Some header ->
            row !! i = Some (column_cell eventData header))
    /\ (status (fst out) <> 201%Z -> snd out = sheet).
Proof.
  intros client append isoNow body sheet out. subst out.
  unfold Sheets.post_events.
  destruct (_ || _); [split; [discriminate | reflexivity] |].
  destruct client; [| split; [discriminate | reflexivity]].
  destruct append; [| split; [discriminate | reflexivity]].
  cbn [fst snd status res_status_json]. split; [| congruence].
  intros _. exists (Sheets.new_row body isoNow). split; [reflexivity |].
  rewrite new_row_eq. split; [reflexivity |]. split; [reflexivity |].
  intros i header Hi Hh.
  rewrite lookup_app_l by (rewrite length_fmap, length_take; cbn; lia).
  rewrite list_lookup_fmap, lookup_take_lt by exact Hi. rewrite Hh. reflexivity.
Qed.

(** A body with a time stamp of its own gets the time of the server. *)
Lemma append_row_shape_witness :
  exists row,
    snd (Sheets.post_events (Ok tt) (Ok tt) (js "2025-06-01T08:00:00.000Z")
           forged_time_stamp [])
    = [row]
    /\ row !! 1%nat = Some (JStr (js "Meeting"))
    /\ row !! 9%nat = Some (JStr (js "2025-06-01T08:00:00.000Z")).
Proof.
  destruct (proj1 (append_row_shape (Ok tt) (Ok tt) (js "2025-06-01T08:00:00.000Z")
                     forged_time_stamp []))
    as (row & Hs & _ & Ht & Hc).
  - reflexivity.
  - exists row. split; [exact Hs |]. split; [| exact Ht].
    rewrite (Hc 1%nat Sheets.COL_TITLE); [reflexivity | lia | reflexivity].
Defined.

(** ** Updating a row *)

Lemma valuesToWrite_eq (eventData : jsvalue) :
  Sheets.valuesToWrite eventData
  = List.filter Sheets.not_null (column_cell eventData <$> take 9 Sheets.COLUMN_ORDER).
Proof. reflexivity. Qed.

Lemma filter_all {A} (p : A -> bool) (l : list A) :
  Forall (fun x => p x = true) l -> List.filter p l = l.
Proof.
  induction 1 as [|x l Hx _ IH]; cbn; [reflexivity |]. rewrite Hx, IH. reflexivity.
Qed.

(** X6.  For a row number that a JavaScript number holds exactly (up
    to 2^53), whatever the update handler of the spreadsheet revision
    sends to the sheet is one [values.update] for one row below the
    header row:
    the range runs from column A to column I of that row, so the time
    stamp column J is never written, the row holds at most nine cells,
    none of them [null]; and unless the body holds a [null] under a
    column name, the cells are the nine column values of the body in the
    order of the columns. *)
Theorem put_event_request :
  forall (client update : result unit) (rowNum_param : jsstring) (eventData : jsvalue)
         (rq : Sheets.write_request),
    exact_rowNum rowNum_param = true ->
    In rq (snd (Sheets.put_event client update rowNum_param eventData)) ->
    exists (n : Z) (cells : list json),
      parseInt rowNum_param = Some n
      /\ (Sheets.HEADER_ROW < n <= 9007199254740992)%Z
      /\ snd (Sheets.put_event client update rowNum_param eventData) = [rq]
      /\ rq = Sheets.ValuesUpdate
                (js "Formularantworten 1!A" ++ Number_toString n ++ js ":I"
                 ++ Number_toString n) [cells]
      /\ (length cells <= 9)%nat
      /\ Forall (fun v => v <> JNull) cells
      /\ (no_null_column eventData ->
          cells = column_cell eventData <$> take 9 Sheets.COLUMN_ORDER).
Proof.
  intros client update p body rq Hexact. unfold Sheets.put_event.
  unfold exact_rowNum in Hexact.
  destruct (parseInt p) as [n|]; [| intros []].
  apply Z.leb_le in Hexact.
  destruct (n <=? Sheets.HEADER_ROW)%Z eqn:Hn; [intros [] |].
  apply Z.leb_gt in Hn.
  destruct (_ || _); [intros [] |].
  destruct client; [| intros []].
  assert (H : forall l : list Sheets.write_request,
            l = [Sheets.ValuesUpdate (Sheets.update_range n) [Sheets.valuesToWrite body]] ->
            In rq l ->
            exists n0 cells, Some n = Some n0
              /\ (Sheets.HEADER_ROW < n0 <= 9007199254740992)%Z /\ l = [rq]
              /\ rq = Sheets.ValuesUpdate
                (js "Formularantworten 1!A" ++ Number_toString n0 ++ js ":I"
                 ++ Number_toString n0) [cells]
              /\ (length cells <= 9)%nat
              /\ Forall (fun v => v <> JNull) cells
              /\ (no_null_column body ->
                  cells = column_cell body <$> take 9 Sheets.COLUMN_ORDER)).
  { intros l -> [<- | []]. exists n, (Sheets.valuesToWrite body).
    repeat split; try assumption.
    - rewrite valuesToWrite_eq.
      etransitivity; [apply List.filter_length_le |]. reflexivity.
    - rewrite valuesToWrite_eq. apply Forall_forall. intros v Hv.
      apply list_elem_of_In, List.filter_In in Hv as [_ Hv].
      intros ->. discriminate Hv.
    - intros Hnn. rewrite valuesToWrite_eq. apply filter_all.
      apply Forall_forall. intros v Hv.
      apply list_elem_of_fmap in Hv as (h & -> & Hh).
      assert (Hin : In h Sheets.COLUMN_ORDER).
      { apply list_elem_of_In. eapply (subseteq_take 9). exact Hh. }
      specialize (Hnn h Hin). unfold column_cell.
      destruct (prop body h) as [[]|]; try reflexivity. congruence. }
  destruct update; apply H; reflexivity.
Qed.

Lemma put_event_request_witness :
  snd (Sheets.put_event (Ok tt) (Ok tt) (js "4") forged_time_stamp)
  = [Sheets.ValuesUpdate (js "Formularantworten 1!A4:I4")
       [[JStr []; JStr (js "Meeting"); JStr []; JStr []; JStr []; JStr []; JStr [];
         JStr []; JStr []]]].
Proof.
  destruct (put_event_request (Ok tt) (Ok tt) (js "4") forged_time_stamp
              (Sheets.ValuesUpdate (js "Formularantworten 1!A4:I4")
                 [Sheets.valuesToWrite forged_time_stamp]))
    as (n & cells & _ & _ & Hs & _).
  - reflexivity.
  - left. reflexivity.
  - exact Hs.
Defined.

(** ** Deleting a row *)

(** X7.  For a row number that a JavaScript number holds exactly (up
    to 2^53), whatever the delete handler of the spreadsheet revision
    sends to the sheet is one deletion of exactly one row, the row whose
    number the request names, on the first sheet with the configured
    title; the header row, at index 0, is never deleted. *)
Theorem delete_event_request :
  forall (client : result unit) (metadata : result (list Sheets.sheet_properties))
         (batchUpdate : result unit) (rowNum_param : jsstring)
         (rq : Sheets.write_request),
    exact_rowNum rowNum_param = true ->
    In rq (snd (Sheets.delete_event client metadata batchUpdate rowNum_param)) ->
    exists (n id : Z) (sheets : list Sheets.sheet_properties)
           (sheet : Sheets.sheet_properties),
      parseInt rowNum_param = Some n
      /\ (n <= 9007199254740992)%Z
      /\ snd (Sheets.delete_event client metadata batchUpdate rowNum_param) = [rq]
      /\ rq = Sheets.DeleteRows id (n - 1) n
      /\ (1 <= n - 1)%Z
      /\ metadata = Ok sheets
      /\ List.find (fun s => bool_decide (Sheets.title s = Sheets.SHEET_NAME)) sheets
         = Some sheet
      /\ Sheets.sheetId sheet = Some id.
Proof.
  intros client metadata batch p rq Hexact. unfold Sheets.delete_event.
  unfold exact_rowNum in Hexact.
  destruct (parseInt p) as [n|]; [| intros []].
  apply Z.leb_le in Hexact.
  destruct (n <=? Sheets.HEADER_ROW)%Z eqn:Hn; [intros [] |].
  apply Z.leb_gt in Hn. unfold Sheets.HEADER_ROW in Hn.
  destruct client; [| intros []].
  destruct metadata as [sheets|]; [| intros []].
  destruct (List.find _ sheets) as [sheet|] eqn:Hf; [| intros []].
  destruct (Sheets.sheetId sheet) as [id|] eqn:Hid; [| intros []].
  destruct batch; intros [<- | []]; exists n, id, sheets, sheet;
    repeat split; try assumption; try reflexivity; lia.
Qed.

Lemma delete_event_request_witness :
  snd (Sheets.delete_event (Ok tt) (Ok example_sheets) (Ok tt) (js "4"))
  = [Sheets.DeleteRows 0 3 4].
Proof.
  destruct (delete_event_request (Ok tt) (Ok example_sheets) (Ok tt) (js "4")
              (Sheets.DeleteRows 0 3 4))
    as (n & id & sheets & sheet & _ & _ & Hs & _).
  - reflexivity.
  - left. reflexivity.
  - exact Hs.
Defined.

(** ** The number of a listed row, sent back *)

Lemma read_digits_acc (u : Decimal.uint) (acc : positive) :
  read_digits (uint_chars u) (Zpos acc) = Zpos (Pos.of_uint_acc u acc).
Proof.
  revert acc. induction u; intros acc; cbn [uint_chars Pos.of_uint_acc];
    [reflexivity | ..];
    unfold read_digits in *; cbn [fold_left];
    match goal with
    | |- fold_left _ _ ?z = Zpos (Pos.of_uint_acc _ ?p) =>
        replace z with (Zpos p) by (unfold digit_value; cbn; lia)
    end; apply IHu.
Qed.

Lemma read_digits_zero (u : Decimal.uint) :
  read_digits (uint_chars u) 0 = Z.of_N (Pos.of_uint u).
Proof.
  induction u; cbn [uint_chars Pos.of_uint]; [reflexivity | ..];
    unfold read_digits in *; cbn [fold_left];
    first [ exact IHu
          | match goal with
            | |- fold_left _ _ ?z = _ =>
                let p := eval cbv in z in change z with p
            end; apply read_digits_acc ].
Qed.

Lemma takeWhile_all {A} (p : A -> bool) (l : list A) :
  forallb p l = true -> takeWhile p l = l.
Proof.
  induction l as [|x l IH]; cbn; [reflexivity |].
  destruct (p x); [intros H; f_equal; apply IH, H | discriminate].
Qed.

Lemma parseInt_digits (ds : jsstring) :
  ds <> [] -> forallb isDigit ds = true ->
  parseInt ds = Some (read_digits ds 0).
Proof.
  intros Hne Hd. unfold parseInt.
  destruct ds as [|c r]; [contradiction |].
  cbn [forallb] in Hd. apply andb_true_iff in Hd as [Hc Hr].
  cbn [dropWhile]. rewrite (digit_not_space c Hc).
  assert (H45 : c <> 45) by (intros ->; discriminate Hc).
  assert (H43 : c <> 43) by (intros ->; discriminate Hc).
  assert (E : match c :: r with
              | 45 :: r0 => ((-1)%Z, r0)
              | 43 :: r0 => (1%Z, r0)
              | _ => (1%Z, c :: r)
              end = (1%Z, c :: r)).
  { destruct c as [|p]; [reflexivity |].
    do 6 (destruct p as [p|p|]; try reflexivity); try congruence. }
  rewrite E. cbn [takeWhile]. rewrite Hc, (takeWhile_all _ _ Hr).
  unfold read_digits. f_equal. lia.
Qed.

(** The decimal text of a number is read back as the number. *)
Lemma parseInt_Number_toString (n : Z) :
  (0 <= n)%Z -> parseInt (Number_toString n) = Some n.
Proof.
  intros Hn. destruct n as [|p|p]; [reflexivity | | lia].
  unfold Number_toString. rewrite parseInt_digits.
  - rewrite read_digits_zero, Unsigned.of_to. reflexivity.
  - intros E. pose proof (Unsigned.of_to p) as H.
    destruct (Pos.to_uint p); try discriminate E. discriminate H.
  - apply uint_chars_digits.
Qed.

(** X8.  The row number the list reports for an event addresses the row
    the event was read from: sent back as decimal text, it makes the
    delete handler delete the grid row of index [i + 1], the data row of
    index [i] below the header, and the update handler write row
    [i + 2]. *)
Theorem listed_row_number_round_trip :
  forall (new_Date : jsstring -> result (option LocalDate)) (headers : list jsstring)
         (values : list (list Sheets.cell)) (e : Sheets.event) (i : nat),
    read_from new_Date headers values e i ->
    let rowNum_param := Number_toString (Sheets.rowNum e) in
    (forall (batchUpdate : result unit) (sheets : list Sheets.sheet_properties)
            (sheet : Sheets.sheet_properties) (id : Z),
        List.find (fun s => bool_decide (Sheets.title s = Sheets.SHEET_NAME)) sheets
        = Some sheet ->
        Sheets.sheetId sheet = Some id ->
        snd (Sheets.delete_event (Ok tt) (Ok sheets) batchUpdate rowNum_param)
        = [Sheets.DeleteRows id (Z.of_nat i + 1) (Z.of_nat i + 2)])
    /\ (forall (update : result unit) (eventData : jsvalue),
          body_accepted eventData = true ->
          snd (Sheets.put_event (Ok tt) update rowNum_param eventData)
          = [Sheets.ValuesUpdate (Sheets.update_range (Z.of_nat i + 2))
               [Sheets.valuesToWrite eventData]]).
Proof.
  intros new_Date headers values e i (row & _ & _ & _ & _ & Hn) p. subst p.
  assert (Hp : parseInt (Number_toString (Sheets.rowNum e)) = Some (Z.of_nat i + 2)%Z).
  { rewrite Hn. apply parseInt_Number_toString. lia. }
  assert (Hh : (Z.of_nat i + 2 <=? Sheets.HEADER_ROW)%Z = false).
  { apply Z.leb_gt. unfold Sheets.HEADER_ROW. lia. }
  split.
  - intros batch sheets sheet id Hf Hid. unfold Sheets.delete_event.
    rewrite Hp, Hh, Hf, Hid.
    replace (Z.of_nat i + 2 - 1)%Z with (Z.of_nat i + 1)%Z by lia.
    destruct batch; reflexivity.
  - intros update body Hb. unfold Sheets.put_event. rewrite Hp, Hh.
    unfold body_accepted in Hb. rewrite !andb_true_iff in Hb. destruct Hb as [[H1 H2] H3].
    rewrite H1, H2. apply negb_true_iff in H3. rewrite H3. cbn [negb orb].
    destruct update; reflexivity.
Qed.

(** The third data row is row 4 of the sheet and row 3 of the grid. *)
Lemma listed_row_number_round_trip_witness :
  exists e,
    read_from host_Date Sheets.COLUMN_ORDER example_rows e 2
    /\ Number_toString (Sheets.rowNum e) = js "4"
    /\ snd (Sheets.delete_event (Ok tt) (Ok example_sheets) (Ok tt)
              (Number_toString (Sheets.rowNum e)))
       = [Sheets.DeleteRows 0 3 4].
Proof.
  assert (H : read_from host_Date Sheets.COLUMN_ORDER example_rows
                (row_event host_Date Sheets.COLUMN_ORDER
                   [Some (js "2025-01-01"); Some (js "First")] 4) 2).
  { eexists. split; [reflexivity |]. split; [reflexivity |].
    split; [reflexivity |]. split; [vm_compute; reflexivity | reflexivity]. }
  eexists. split; [exact H |]. split; [reflexivity |].
  apply (proj1 (listed_row_number_round_trip host_Date Sheets.COLUMN_ORDER example_rows
                  _ 2 H) (Ok tt) example_sheets
           {| Sheets.title := js "Formularantworten 1"; Sheets.sheetId := Some 0%Z |} 0%Z);
    reflexivity.
Defined.

(** ** The range checks of the date normalizer *)

Section MoreShapes.

Local Opaque isDigit isWhiteSpace N.eqb.

Ltac shapes' :=
  intros D M Y HD HM HY; shape HD D; shape HM M; shape HY Y; crunch; reflexivity.

Lemma nomatch_dmy_ymd D M Y :
  digit_text 1 2 D -> digit_text 1 2 M -> digit_text 4 4 Y ->
  String_match (D ++ [46] ++ M ++ [46] ++ Y) re_ymd = None.
Proof. revert D M Y. shapes'. Qed.

Lemma nomatch_dmy_mdy D M Y :
  digit_text 1 2 D -> digit_text 1 2 M -> digit_text 4 4 Y ->
  String_match (D ++ [46] ++ M ++ [46] ++ Y) re_mdy = None.
Proof. revert D M Y. shapes'. Qed.

Lemma nomatch_ymd_mdy D M Y :
  digit_text 1 2 D -> digit_text 1 2 M -> digit_text 4 4 Y ->
  String_match (Y ++ [45] ++ M ++ [45] ++ D) re_mdy = None.
Proof. revert D M Y. shapes'. Qed.

End MoreShapes.

Lemma digit_text_denoted (lo hi : nat) (ds : jsstring) :
  digit_text (S lo) hi ds -> parseInt ds = Some (denoted ds).
Proof.
  intros [[Hl _] Hd]. apply parseInt_digits; [| exact Hd].
  destruct ds; [cbn in Hl; lia | discriminate].
Qed.

Lemma in_range_checks (y m d : Z) :
  Sheets.in_range (Some y) (Some m) (Some d) = true <-> range_checks y m d.
Proof.
  unfold Sheets.in_range, num_gt, num_ge, num_le, range_checks.
  rewrite !andb_true_iff, Z.ltb_lt, !Z.leb_le. lia.
Qed.

Lemma in_range_Some (y m d : option Z) :
  Sheets.in_range y m d = true ->
  exists y' m' d', y = Some y' /\ m = Some m' /\ d = Some d' /\ range_checks y' m' d'.
Proof.
  destruct y as [y'|], m as [m'|], d as [d'|]; intros H;
    try (unfold Sheets.in_range, num_gt, num_ge, num_le in H;
         rewrite ?andb_false_r in H; cbn in H; discriminate H).
  exists y', m', d'. do 3 (split; [reflexivity |]). apply in_range_checks, H.
Qed.

Lemma ymd_text_canonical (y m d : Z) :
  range_checks y m d -> Sheets.ymd_text (Some y) (Some m) (Some d) = canonical y m d.
Proof.
  intros (Hy & Hm & Hd).
  destruct (two_digits_facts m ltac:(lia)) as (_ & _ & Hpm).
  destruct (two_digits_facts d Hd) as (_ & _ & Hpd).
  unfold Sheets.ymd_text, canonical, num_text. rewrite Hpm, Hpd. reflexivity.
Qed.

Lemma numeric_form_canonical (re : regex) (iy im id : nat) (s text : jsstring) :
  numeric_form re iy im id s = Some text ->
  exists y m d, range_checks y m d /\ text = canonical y m d.
Proof.
  unfold numeric_form. destruct (String_match s re) as [parts|]; [| discriminate].
  destruct (Sheets.in_range _ _ _) eqn:Hr; [| discriminate].
  apply in_range_Some in Hr as (y & m & d & -> & -> & -> & Hr).
  intros [= <-]. exists y, m, d. split; [exact Hr |]. apply ymd_text_canonical, Hr.
Qed.

Lemma numeric_form_fails (re : regex) (iy im id : nat) (s : jsstring)
    (parts : list jsstring) :
  String_match s re = Some parts ->
  digit_text 1 4 (group parts iy) -> digit_text 1 4 (group parts im) ->
  digit_text 1 4 (group parts id) ->
  ~ range_checks (denoted (group parts iy)) (denoted (group parts im))
      (denoted (group parts id)) ->
  numeric_form re iy im id s = None.
Proof.
  intros Hm Hy Hmo Hd Hr. unfold numeric_form. rewrite Hm.
  rewrite (digit_text_denoted _ _ _ Hy), (digit_text_denoted _ _ _ Hmo),
    (digit_text_denoted _ _ _ Hd).
  destruct (Sheets.in_range _ _ _) eqn:E; [| reflexivity].
  apply in_range_checks in E. contradiction.
Qed.

Lemma digit_text_wider (lo hi lo' hi' : nat) (s : jsstring) :
  (lo' <= lo)%nat -> (hi <= hi')%nat -> digit_text lo hi s -> digit_text lo' hi' s.
Proof. intros Hl Hh [[H1 H2] Hd]. split; [lia | exact Hd]. Qed.

(** C7.  [parseAndFormatDate] returns on every string, whatever the
    generic parser of the host does (it may even throw): it never throws
    and never runs off its end.  What it returns other than [null] is
    the canonical text of a date that passes the range checks
    [1900 < year], [1 <= month <= 12], [1 <= day <= 31], or the date of
    the generic parser.  A text in one of the three numeric forms whose
    numbers fail these checks counts as not parsed: the next strategies
    are tried, so the result is what the generic parser gives for the
    text, and [null] when that fails too.  When no numeric pattern
    matches the trimmed text and the generic parser fails, the result is
    [null].  In all, the result is that of the first strategy, in the
    fixed order, that succeeds on the trimmed text, and [null] when none
    does or the text is blank. *)
Theorem parseAndFormatDate_total :
  forall (new_Date : jsstring -> result (option LocalDate)) (dateValue : jsstring),
    (exists r, Sheets.parseAndFormatDate new_Date dateValue = Return r)
    /\ (forall text,
          Sheets.parseAndFormatDate new_Date dateValue = Return (Some text) ->
          (exists y m d, range_checks y m d /\ text = canonical y m d)
          \/ generic_form new_Date (trim dateValue) = Some text)
    /\ (forall D M Y,
          digit_text 1 2 D -> digit_text 1 2 M -> digit_text 4 4 Y ->
          ~ range_checks (denoted Y) (denoted M) (denoted D) ->
          dateValue = D ++ [46] ++ M ++ [46] ++ Y
          \/ dateValue = Y ++ [45] ++ M ++ [45] ++ D
          \/ dateValue = M ++ [47] ++ D ++ [47] ++ Y ->
          Sheets.parseAndFormatDate new_Date dateValue
          = Return (generic_form new_Date dateValue))
    /\ (String_match (trim dateValue) re_dmy = None ->
        String_match (trim dateValue) re_ymd = None ->
        String_match (trim dateValue) re_mdy = None ->
        generic_form new_Date (trim dateValue) = None ->
        Sheets.parseAndFormatDate new_Date dateValue = Return None)
    /\ Sheets.parseAndFormatDate new_Date dateValue
       = Return (normalize_spec new_Date dateValue).
Proof.
  intros new_Date dateValue.
  split; [eexists; apply parseAndFormatDate_normalize |].
  split; [| split; [| split; [| apply parseAndFormatDate_normalize]]].
  - intros text. rewrite parseAndFormatDate_normalize. intros [= H].
    unfold normalize_spec in H.
    destruct (truthy_str (trim dateValue)); [| discriminate H].
    unfold strategies in H. cbn [first_success] in H.
    destruct (numeric_form re_dmy 3 2 1 _) eqn:E1;
      [injection H as ->; left; exact (numeric_form_canonical _ _ _ _ _ _ E1) |].
    destruct (numeric_form re_ymd 1 2 3 _) eqn:E2;
      [injection H as ->; left; exact (numeric_form_canonical _ _ _ _ _ _ E2) |].
    destruct (numeric_form re_mdy 3 1 2 _) eqn:E3;
      [injection H as ->; left; exact (numeric_form_canonical _ _ _ _ _ _ E3) |].
    destruct (generic_form new_Date _) eqn:E4; [| discriminate H].
    right. exact H.
  - intros D M Y HD HM HY Hr Hs.
    pose proof (digit_text_wider 1 2 1 4 D ltac:(lia) ltac:(lia) HD) as HD'.
    pose proof (digit_text_wider 1 2 1 4 M ltac:(lia) ltac:(lia) HM) as HM'.
    pose proof (digit_text_wider 4 4 1 4 Y ltac:(lia) ltac:(lia) HY) as HY'.
    rewrite parseAndFormatDate_normalize. unfold normalize_spec, strategies.
    cbn [first_success].
    destruct Hs as [-> | [-> | ->]].
    + rewrite trim_dmy by assumption.
      rewrite (digit_text_truthy 0 2 D) by assumption.
      rewrite (numeric_form_fails re_dmy 3 2 1 _ _ (match_dmy D M Y HD HM HY))
        by assumption.
      unfold numeric_form at 1 2.
      rewrite nomatch_dmy_ymd, nomatch_dmy_mdy by assumption.
      destruct (generic_form new_Date _); reflexivity.
    + rewrite trim_ymd by assumption.
      rewrite (digit_text_truthy 3 4 Y) by assumption.
      unfold numeric_form at 1. rewrite nomatch_ymd_dmy by assumption.
      rewrite (numeric_form_fails re_ymd 1 2 3 _ _ (match_ymd D M Y HD HM HY))
        by assumption.
      unfold numeric_form at 1. rewrite nomatch_ymd_mdy by assumption.
      destruct (generic_form new_Date _); reflexivity.
    + rewrite trim_mdy by assumption.
      rewrite (digit_text_truthy 0 2 M) by assumption.
      unfold numeric_form at 1 2.
      rewrite nomatch_mdy_dmy, nomatch_mdy_ymd by assumption.
      rewrite (numeric_form_fails re_mdy 3 1 2 _ _ (match_mdy D M Y HD HM HY))
        by assumption.
      destruct (generic_form new_Date _); reflexivity.
  - intros H1 H2 H3 H4. rewrite parseAndFormatDate_normalize.
    unfold normalize_spec, strategies. cbn [first_success].
    unfold numeric_form. rewrite H1, H2, H3, H4.
    destruct (truthy_str _); reflexivity.
Qed.

(** The thirteenth month: not a date, and a generic parser that throws. *)
Lemma parseAndFormatDate_total_witness :
  Sheets.parseAndFormatDate (fun _ => Err (js "RangeError")) (js "31.13.2025")
  = Return None.
Proof.
  apply (proj1 (proj2 (proj2 (parseAndFormatDate_total (fun _ => Err (js "RangeError"))
                                (js "31.13.2025")))) (js "31") (js "13") (js "2025")).
  - split; [cbn; lia | reflexivity].
  - split; [cbn; lia | reflexivity].
  - split; [cbn; lia | reflexivity].
  - unfold range_checks. vm_compute. intros (_ & [_ H] & _). apply H. reflexivity.
  - left. reflexivity.
Defined.

(** * Further properties of the document-store revisions *)

(** ** Uploads *)

Lemma startsWith_app (p s : jsstring) : startsWith (p ++ s) p = true.
Proof.
  induction p as [|c p IH]; [destruct s; reflexivity |].
  cbn. rewrite N.eqb_refl. exact IH.
Qed.

Lemma substring_app (p s : jsstring) : substring (p ++ s) (length p) = s.
Proof. unfold substring. apply drop_app_length. Qed.

Lemma uniqueFilename_truthy (t : Z) (n : jsstring) :
  truthy_str (uniqueFilename t n) = true.
Proof. unfold uniqueFilename. destruct (Number_toString t); reflexivity. Qed.

(** X9.  [uploadToGcs] has three outcomes, and none of them touches the
    records or the sessions.  When the write fails, the promise is
    rejected with the upload message and the bucket is as it was.  When
    the write succeeds and making the object public fails, it is rejected
    with the finalizing message and the object stays in the bucket, not
    public.  Otherwise it resolves with the URL of the object, which is
    in the bucket, public, under the generated name, in place of any
    object of that name. *)
Theorem uploadToGcs_outcomes :
  forall (env : Env) (f : File) (w : World),
    let name := uniqueFilename (now env) (originalname f) in
    let out := uploadToGcs env f w in
    events (snd out) = events w
    /\ sessions (snd out) = sessions w
    /\ match file_write_error env, file_makePublic_error env with
       | Some e, _ =>
           fst out = Err (js "Error uploading to GCS: " ++ e)
           /\ bucket (snd out) = bucket w
       | None, Some e =>
           fst out = Err (js "Error finalizing GCS upload: " ++ e)
           /\ bucket (snd out) = <[name := Blob (buffer f) (mimetype f) false]> (bucket w)
       | None, None =>
           fst out = Ok (js "https://storage.googleapis.com/ebaplanner_event_images/" ++ name)
           /\ bucket (snd out) = <[name := Blob (buffer f) (mimetype f) true]> (bucket w)
       end.
Proof.
  intros env f w name out. subst out.
  unfold uploadToGcs, file_write, file_makePublic.
  unfold bind, catch, backend, ret, throw, console_log, console_error.
  fold name.
  destruct (file_write_error env) as [e|]; [cbn; auto |].
  destruct (file_makePublic_error env) as [e|]; [cbn; auto |].
  cbn [bucket set_bucket add_issued add_console].
  rewrite lookup_insert_eq. cbn. rewrite insert_insert_eq. auto.
Qed.

Lemma uploadToGcs_done (env : Env) (f : File) (w : World) :
  upload_succeeds env ->
  exists w',
    uploadToGcs env f w
    = (Ok (gcsPrefix ++ uniqueFilename (now env) (originalname f)), w')
    /\ events w' = events w
    /\ sessions w' = sessions w
    /\ bucket w'
       = <[uniqueFilename (now env) (originalname f)
           := Blob (buffer f) (mimetype f) true]> (bucket w).
Proof.
  intros [Hw Hp]. unfold uploadToGcs, file_write, file_makePublic.
  unfold bind, catch, backend, ret, throw, console_log, console_error.
  rewrite Hw, Hp. cbn [bucket set_bucket add_issued add_console].
  rewrite lookup_insert_eq. eexists. split; [reflexivity |].
  cbn. rewrite insert_insert_eq. auto.
Qed.

(** X10.  An object that was uploaded is deleted again by handing the
    URL that [uploadToGcs] returned to [deleteFromGcs]: after the upload
    the object is in the bucket, after the deletion it is not, and a
    bucket that held no object of the generated name is as it was. *)
Theorem upload_then_delete :
  forall (env env' : Env) (f : File) (w : World),
    upload_succeeds env -> file_delete_error env' = None ->
    let name := uniqueFilename (now env) (originalname f) in
    exists url w1 w2,
      uploadToGcs env f w = (Ok url, w1)
      /\ bucket w1 !! name = Some (Blob (buffer f) (mimetype f) true)
      /\ deleteFromGcs env' (Some (VJson (JStr url))) w1 = (Ok tt, w2)
      /\ bucket w2 = delete name (bucket w)
      /\ (bucket w !! name = None -> bucket w2 = bucket w).
Proof.
  intros env env' f w Hup Hd name.
  destruct (uploadToGcs_done env f w Hup) as (w1 & Hu & _ & _ & Hb). fold name in Hu, Hb.
  assert (Hin : bucket w1 !! name = Some (Blob (buffer f) (mimetype f) true)).
  { rewrite Hb. apply lookup_insert_eq. }
  exists (gcsPrefix ++ name), w1.
  destruct (deleteFromGcs env' (Some (VJson (JStr (gcsPrefix ++ name)))) w1)
    as [r2 w2] eqn:Hdel.
  unfold deleteFromGcs in Hdel.
  assert (Ht : truthy_field (Some (VJson (JStr (gcsPrefix ++ name)))) = true) by reflexivity.
  assert (Hn : truthy_str name = true) by apply uniqueFilename_truthy.
  rewrite Ht, startsWith_app, substring_app, Hn in Hdel.
  cbn [negb] in Hdel.
  unfold catch, bind, console_log, file_delete, backend in Hdel. rewrite Hd in Hdel.
  cbn [bucket add_issued add_console] in Hdel. rewrite Hin in Hdel.
  injection Hdel as <- <-.
  eexists.
  split; [exact Hu |]. split; [exact Hin |].
  split; [reflexivity |].
  cbn [bucket set_bucket add_console add_issued]. rewrite Hb.
  split; [apply delete_insert_eq |].
  intros Hfresh. rewrite delete_insert_eq. apply delete_id. exact Hfresh.
Qed.

Lemma upload_then_delete_witness :
  exists url w1 w2,
    uploadToGcs (quiet_env 5 []) upload_a empty_world = (Ok url, w1)
    /\ bucket w1 !! js "5-a_b.png" = Some (Blob [1; 2; 3] (js "image/png") true)
    /\ deleteFromGcs (quiet_env 6 []) (Some (VJson (JStr url))) w1 = (Ok tt, w2)
    /\ bucket w2 = ∅.
Proof.
  destruct (upload_then_delete (quiet_env 5 []) (quiet_env 6 []) upload_a empty_world)
    as (url & w1 & w2 & Hu & Hb & Hd & _ & Hfresh).
  - split; reflexivity.
  - reflexivity.
  - exists url, w1, w2. split; [exact Hu |]. split; [exact Hb |]. split; [exact Hd |].
    apply Hfresh. reflexivity.
Defined.

(** ** Object names *)

Lemma replace_spaces_no_space (s : jsstring) : ~ In 32 (replace_spaces s).
Proof.
  unfold replace_spaces. induction s as [|c s IH]; [intros [] |].
  cbn [fmap list_fmap]. intros [H | H]; [| exact (IH H)].
  destruct (c =? 32) eqn:E; [discriminate H |].
  apply N.eqb_neq in E. congruence.
Qed.

(** X11.  A generated object name holds no space, and two generated
    names coincide exactly when the uploads happen in the same
    millisecond with file names that are equal once their spaces are
    replaced; uploads at different times never get the same name. *)
Theorem object_name_collisions :
  forall (t t' : Z) (n n' : jsstring),
    (0 <= t)%Z -> (0 <= t')%Z ->
    ~ In 32 (uniqueFilename t n)
    /\ (uniqueFilename t n = uniqueFilename t' n'
        <-> t = t' /\ replace_spaces n = replace_spaces n').
Proof.
  intros t t' n n' Ht Ht'. split; [| apply uniqueFilename_eq; assumption].
  unfold uniqueFilename. intros Hin.
  apply in_app_or in Hin as [Hin | Hin].
  - pose proof (Number_toString_digits t Ht) as Hd. rewrite forallb_forall in Hd.
    specialize (Hd _ Hin). discriminate Hd.
  - destruct Hin as [H | Hin]; [discriminate H |].
    exact (replace_spaces_no_space n Hin).
Qed.

(** One file name, one millisecond apart. *)
Lemma object_name_collisions_witness :
  uniqueFilename 1748736000000 (js "a b.png") <> uniqueFilename 1748736000001 (js "a b.png").
Proof.
  intros E.
  destruct (proj1 (proj2 (object_name_collisions 1748736000000 1748736000001
                            (js "a b.png") (js "a b.png") ltac:(lia) ltac:(lia))) E)
    as [H _].
  discriminate H.
Defined.

(** ** Creating a record *)

Lemma write_fields_defined (env : Env) (payload : list (jsstring * pvalue)) :
  Forall (fun kv => snd kv <> PUndefined) payload ->
  forall doc, exists doc', write_fields env doc payload = Ok doc'.
Proof.
  unfold write_fields.
  induction 1 as [|[k v] l Hv _ IH]; intros doc; [exists doc; reflexivity |].
  cbn [fold_left]. unfold write_field at 2. cbn [fst snd] in *.
  destruct v; [contradiction | apply IH..].
Qed.

Lemma newEvent_NoDup (env : Env) (req : Request) (ts : fvalue) :
  NoDup (fst <$> newEvent env req ts).
Proof.
  unfold newEvent. rewrite fmap_app, text_fields_keys.
  apply (bool_decide_unpack _). vm_compute. reflexivity.
Qed.

Section Create.

Variable Date_parse : jsstring -> option Z.
Variables (env : Env) (req : Request) (w : World) (ts : fvalue).
Hypothesis Htitle : truthy (prop (req_body req) FIELD_TITLE) = true.
Hypothesis Hdate : truthy (prop (req_body req) FIELD_DATE) = true.
Hypothesis Hts :
  Firestore.eventDate_timestamp Date_parse (prop (req_body req) FIELD_DATE) = Ok ts.
Hypothesis Hup : forall f, req_file req = Some f -> upload_succeeds env.
Hypothesis Hadd : add_error env = None.
Hypothesis Hfresh : events w !! auto_id env = None.

Lemma newEvent_doc :
  exists doc, write_fields env ∅ (newEvent env req ts) = Ok doc.
Proof.
  apply write_fields_defined. unfold newEvent, text_fields.
  repeat (constructor; [discriminate |]). constructor.
Qed.

Lemma post_events_created :
  exists doc w1 w2,
    write_fields env ∅ (newEvent env req ts) = Ok doc
    /\ Firestore.post_events Date_parse env req w = (created env, w1)
    /\ Session.post_events Date_parse env req w = (created env, w2)
    /\ events w1 = <[auto_id env := doc]> (events w)
    /\ events w2 = <[auto_id env := doc]> (events w)
    /\ bucket w1 = bucket_with_image env req (bucket w)
    /\ bucket w2 = bucket_with_image env req (bucket w)
    /\ sessions w1 = sessions w /\ sessions w2 = sessions w.
Proof.
  destruct newEvent_doc as [doc Hdoc]. exists doc.
  destruct (truthy_prop _ _ Htitle) as [Hb _].
  unfold Firestore.post_events, Session.post_events.
  change (Session.eventDate_timestamp Date_parse) with
    (Firestore.eventDate_timestamp Date_parse).
  rewrite Htitle, Hdate, Hts, Hb. cbn [negb orb].
  unfold newEvent, stored_imageUrl, bucket_with_image in *.
  destruct (req_file req) as [f|].
  - unfold handle, bind, console_log, ret.
    destruct (uploadToGcs_done env f
                (add_console LLog (js "Processing uploaded file:")
                   (add_console LLog (js "API POST /api/events called") w))
                (Hup f eq_refl)) as (w1 & Hu1 & He1 & Hs1 & Hb1).
    destruct (uploadToGcs_done env f
                (add_console LLog (js "API POST /api/events called") w)
                (Hup f eq_refl)) as (w2 & Hu2 & He2 & Hs2 & Hb2).
    rewrite Hu1, Hu2. unfold collection_add, backend. rewrite Hadd.
    cbn [events add_issued add_console]. rewrite He1, He2. cbn [events add_console].
    rewrite Hfresh, Hdoc.
    eexists _, _. split; [reflexivity |]. split; [reflexivity |]. split; [reflexivity |].
    cbn [events bucket sessions set_events add_issued add_console].
    rewrite He1, He2, Hb1, Hb2, Hs1, Hs2. cbn. auto 10.
  - unfold handle, bind, console_log, ret, collection_add, backend. rewrite Hadd.
    cbn [events add_issued add_console]. rewrite Hfresh, Hdoc.
    eexists _, _. split; [reflexivity |]. split; [reflexivity |]. split; [reflexivity |].
    cbn. auto 10.
Qed.

End Create.

Lemma create_record_run :
  forall (Date_parse : jsstring -> option Z) (env : Env) (req : Request) (w : World)
         (ts : fvalue),
    truthy (prop (req_body req) FIELD_TITLE) = true ->
    truthy (prop (req_body req) FIELD_DATE) = true ->
    Firestore.eventDate_timestamp Date_parse (prop (req_body req) FIELD_DATE) = Ok ts ->
    (forall f, req_file req = Some f -> upload_succeeds env) ->
    add_error env = None ->
    events w !! auto_id env = None ->
    forall out,
      out = Firestore.post_events Date_parse env req w
      \/ out = Session.post_events Date_parse env req w ->
      fst out = created env
      /\ bucket (snd out) = bucket_with_image env req (bucket w)
      /\ exists doc,
           events (snd out) = <[auto_id env := doc]> (events w)
           /\ (forall k v, In (k, PVal v) (text_fields (req_body req) ts) ->
               doc !! k = Some v)
           /\ doc !! js "eventDate" = Some ts
           /\ doc !! js "imageUrl" = Some (VJson (stored_imageUrl env req))
           /\ doc !! js "createdAt" = Some (server_timestamp env)
           /\ (forall k, ~ In k record_fields -> doc !! k = None).
Proof.
  intros Date_parse env req w ts Htitle Hdate Hts Hup Hadd Hfresh out Hout.
  destruct (post_events_created Date_parse env req w ts Htitle Hdate Hts Hup Hadd Hfresh)
    as (doc & w1 & w2 & Hdoc & H1 & H2 & He1 & He2 & Hb1 & Hb2 & _).
  assert (Hfields :
            (forall k v, In (k, PVal v) (text_fields (req_body req) ts) ->
                         doc !! k = Some v)
            /\ doc !! js "eventDate" = Some ts
            /\ doc !! js "imageUrl" = Some (VJson (stored_imageUrl env req))
            /\ doc !! js "createdAt" = Some (server_timestamp env)
            /\ (forall k, ~ In k record_fields -> doc !! k = None)).
  { pose proof (newEvent_NoDup env req ts) as Hnd.
    assert (Hl : forall k pv, In (k, pv) (newEvent env req ts) ->
                              doc !! k = written env pv).
    { intros k pv Hin. exact (write_fields_lookup env _ _ _ k pv Hnd Hin Hdoc). }
    split; [| split; [| split; [| split]]].
    - intros k v Hin. apply (Hl k (PVal v)). apply in_or_app. left. exact Hin.
    - apply (Hl _ (PVal ts)). cbn. auto.
    - apply (Hl _ (PVal _)). apply in_or_app. right. left. reflexivity.
    - apply (Hl _ PServerTimestamp). apply in_or_app. right. right. left. reflexivity.
    - intros k Hk. rewrite (write_fields_frame env _ _ _ k Hdoc); [apply lookup_empty |].
      unfold newEvent. rewrite fmap_app, text_fields_keys. exact Hk. }
  destruct Hout as [-> | ->]; [rewrite H1 | rewrite H2]; cbn [fst snd];
    (split; [reflexivity |]); (split; [assumption |]); exists doc; split; assumption.
Qed.

(** X12.  A create request with a title and a date that can be
    converted, whose upload, if it brings an image, succeeds, and whose
    write the store accepts under an id that was free, is answered 201
    with that id and stores one new record under it: the nine text fields
    from the body, with the empty text and the default type where the
    body has none, the converted date, the URL of the uploaded image or
    [null], and the time of the server as [createdAt]; no other field.
    The image is in the bucket under its generated name. *)
Theorem create_stores_record :
  forall (Date_parse : jsstring -> option Z) (env : Env) (req : Request) (w : World)
         (ts : fvalue),
    truthy (prop (req_body req) FIELD_TITLE) = true ->
    truthy (prop (req_body req) FIELD_DATE) = true ->
    Firestore.eventDate_timestamp Date_parse (prop (req_body req) FIELD_DATE) = Ok ts ->
    (forall f, req_file req = Some f -> upload_succeeds env) ->
    add_error env = None ->
    events w !! auto_id env = None ->
    forall out,
      out = Firestore.post_events Date_parse env req w
      \/ out = Session.post_events Date_parse env req w ->
      fst out = created env
      /\ bucket (snd out) = bucket_with_image env req (bucket w)
      /\ exists doc,
           events (snd out) = <[auto_id env := doc]> (events w)
           /\ (forall k v, In (k, PVal v) (text_fields (req_body req) ts) ->
               doc !! k = Some v)
           /\ doc !! js "eventDate" = Some ts
           /\ doc !! js "imageUrl" = Some (VJson (stored_imageUrl env req))
           /\ doc !! js "createdAt" = Some (server_timestamp env)
           /\ (forall k, ~ In k record_fields -> doc !! k = None).
Proof. exact create_record_run. Qed.

Lemma create_stores_record_witness :
  exists doc,
    events (snd (Session.post_events sample_Date_parse (quiet_env 5 (js "e7"))
                   meeting_request empty_world))
    = {[ js "e7" := doc ]}
    /\ doc !! js "title" = Some (VJson (JStr (js "Meeting")))
    /\ doc !! js "eventDate" = Some (VTimestamp 1748736000 0)
    /\ doc !! js "eventType" = Some (VJson default_eventType)
    /\ doc !! js "createdAt" = Some (VTimestamp 0 5000000).
Proof.
  destruct (create_stores_record sample_Date_parse (quiet_env 5 (js "e7"))
              meeting_request empty_world (VTimestamp 1748736000 0))
    with (out := Session.post_events sample_Date_parse (quiet_env 5 (js "e7"))
                   meeting_request empty_world)
    as (_ & _ & doc & Hev & Hset & Hd & _ & Hc & _).
  - reflexivity.
  - reflexivity.
  - vm_compute. reflexivity.
  - intros f _. split; reflexivity.
  - reflexivity.
  - reflexivity.
  - right. reflexivity.
  - exists doc. split; [exact Hev |]. split; [| split; [exact Hd | split; [| exact Hc]]].
    + apply Hset. left. reflexivity.
    + apply Hset. do 7 right. left. reflexivity.
Defined.

(** ** The order of the checks of a create request *)

(** X13.  A create request is checked for its title and date before
    anything is stored, and for the form of its date only after its image
    is uploaded.  Without a title or a date it is answered 400 and the
    world is as it was but for one console line, also when it brings an
    image.  With both and a date that cannot be converted it is answered
    with the 400 of the date, no record is written, and the image it
    brought stays in the bucket. *)
Theorem create_uploads_before_date_check :
  forall (Date_parse : jsstring -> option Z) (env : Env) (req : Request) (w : World)
         (out : response * World),
    out = Firestore.post_events Date_parse env req w
    \/ out = Session.post_events Date_parse env req w ->
    (truthy (prop (req_body req) FIELD_TITLE) = false
     \/ truthy (prop (req_body req) FIELD_DATE) = false ->
     out = (fields_required, add_console LLog (js "API POST /api/events called") w))
    /\ (forall f,
        truthy (prop (req_body req) FIELD_TITLE) = true ->
        truthy (prop (req_body req) FIELD_DATE) = true ->
        unparseable Date_parse (prop (req_body req) FIELD_DATE) ->
        req_file req = Some f ->
        upload_succeeds env ->
        fst out = invalid_date
        /\ events (snd out) = events w
        /\ bucket (snd out)
           = <[uniqueFilename (now env) (originalname f)
               := Blob (buffer f) (mimetype f) true]> (bucket w)).
Proof.
  intros Date_parse env req w out Hout. split.
  - intros Hmiss.
    assert (E : (negb (truthy (req_body req))
                 || negb (truthy (prop (req_body req) FIELD_TITLE))
                 || negb (truthy (prop (req_body req) FIELD_DATE))) = true).
    { destruct Hmiss as [-> | ->]; cbn; rewrite ?orb_true_r; reflexivity. }
    destruct Hout as [-> | ->];
      unfold Firestore.post_events, Session.post_events; rewrite E; reflexivity.
  - intros f Htitle Hdate [e He] Hf Hup.
    destruct (truthy_prop _ _ Htitle) as [Hb _].
    destruct Hout as [-> | ->];
      unfold Firestore.post_events, Session.post_events;
      change (Session.eventDate_timestamp Date_parse) with
        (Firestore.eventDate_timestamp Date_parse);
      rewrite Htitle, Hdate, He, Hb, Hf; cbn [negb orb];
      unfold handle, bind, console_log, console_warn, ret;
      match goal with
      | |- context [uploadToGcs env f ?w0] =>
          destruct (uploadToGcs_done env f w0 Hup) as (w2 & Hu & Hev & _ & Hbu);
            rewrite Hu
      end;
      cbn [fst snd events bucket add_console] in *; auto.
Qed.

(** The image of a request with a bad date is left in the bucket. *)
Lemma create_uploads_before_date_check_witness :
  fst (Firestore.post_events sample_Date_parse (quiet_env 5 (js "e7"))
         bad_date_with_image empty_world) = invalid_date
  /\ events (snd (Firestore.post_events sample_Date_parse (quiet_env 5 (js "e7"))
                    bad_date_with_image empty_world)) = ∅
  /\ bucket (snd (Firestore.post_events sample_Date_parse (quiet_env 5 (js "e7"))
                    bad_date_with_image empty_world))
     = {[ js "5-a_b.png" := Blob [1; 2; 3] (js "image/png") true ]}.
Proof.
  apply (proj2 (create_uploads_before_date_check sample_Date_parse
                  (quiet_env 5 (js "e7")) bad_date_with_image empty_world _
                  (or_introl eq_refl)) upload_a).
  - reflexivity.
  - reflexivity.
  - eexists. vm_compute. reflexivity.
  - reflexivity.
  - split; reflexivity.
Defined.

(** ** Deleting a record *)

Lemma deleteFromGcs_bucket (env : Env) (url : jsstring) (w : World) :
  file_delete_error env = None ->
  exists w',
    deleteFromGcs env (Some (VJson (JStr url))) w = (Ok tt, w')
    /\ events w' = events w /\ sessions w' = sessions w
    /\ bucket w' = bucket_without url (bucket w).
Proof.
  intros Hd. unfold deleteFromGcs, bucket_without.
  unfold catch, bind, console_log, console_warn, console_error, file_delete, backend, ret.
  rewrite Hd.
  destruct (truthy_field (Some (VJson (JStr url)))) eqn:Ht; cbn [negb].
  2:{ destruct url; [| discriminate Ht]. eexists; split; [reflexivity |]. cbn. auto. }
  destruct (startsWith url gcsPrefix); cbn [negb andb];
    [| eexists; split; [reflexivity | cbn; auto]].
  destruct (truthy_str (substring url (length gcsPrefix))) eqn:Hn; cbn [negb];
    [| eexists; split; [reflexivity | cbn; auto]].
  cbn [bucket add_issued add_console].
  destruct (bucket w !! substring url (length gcsPrefix)) eqn:Hb;
    eexists; (split; [reflexivity |]); cbn; repeat split.
  symmetry. apply delete_id. exact Hb.
Qed.

Lemma image_step (env : Env) (doc : gmap jsstring fvalue) (w : World) :
  file_delete_error env = None ->
  image_reference_ok doc ->
  exists w',
    (if truthy_field (doc !! js "imageUrl")
     then deleteFromGcs env (doc !! js "imageUrl")
     else ret tt) w = (Ok tt, w')
    /\ events w' = events w /\ sessions w' = sessions w
    /\ (truthy_field (doc !! js "imageUrl") = true ->
        bucket w' = bucket_without_image doc (bucket w))
    /\ (truthy_field (doc !! js "imageUrl") = false -> bucket w' = bucket w).
Proof.
  intros Hd Hok. unfold bucket_without_image.
  destruct (truthy_field (doc !! js "imageUrl")) eqn:Ht.
  - destruct (Hok Ht) as [url Hurl]. rewrite Hurl.
    destruct (deleteFromGcs_bucket env url w Hd) as (w' & H1 & H2 & H3 & H4).
    exists w'. repeat split; auto. discriminate.
  - exists w. repeat split; auto. discriminate.
Qed.

Lemma bucket_without_falsy (doc : gmap jsstring fvalue) (b : gmap jsstring blob) :
  truthy_field (doc !! js "imageUrl") = false -> bucket_without_image doc b = b.
Proof.
  unfold bucket_without_image, bucket_without.
  destruct (doc !! js "imageUrl") as [[[| | |[|c url]| |]|]|]; try reflexivity.
  discriminate.
Qed.

Lemma delete_event_run :
  forall (env : Env) (req : Request) (w : World) (out : response * World),
    out = Firestore.delete_event env req w \/ out = Session.delete_event env req w ->
    truthy_str (params_id req) = true ->
    doc_get_error env = None ->
    (events w !! params_id req = None ->
     fst out = not_found
     /\ events (snd out) = events w /\ bucket (snd out) = bucket w
     /\ issued (snd out) = issued w ++ [CDocGet (params_id req)])
    /\ (forall doc,
        events w !! params_id req = Some doc ->
        doc_delete_error env = None -> file_delete_error env = None ->
        image_reference_ok doc ->
        fst out = deleted
        /\ events (snd out) = delete (params_id req) (events w)
        /\ bucket (snd out) = bucket_without_image doc (bucket w)).
Proof.
  intros env req w out Hout Hid Hget.
  assert (E : out = Firestore.delete_event env req w).
  { destruct Hout as [-> | ->]; reflexivity. }
  subst out. clear Hout.
  destruct (Firestore.delete_event env req w) as [r w'] eqn:E. cbn [fst snd].
  unfold Firestore.delete_event in E. rewrite Hid in E. cbn [negb] in E.
  unfold handle, bind at 1, doc_get, backend in E. rewrite Hget in E.
  cbn [events add_issued add_console] in E.
  split.
  - intros Hdoc. rewrite Hdoc in E.
    unfold bind, console_log, ret in E. injection E as <- <-. cbn. auto.
  - intros doc Hdoc Hdel Hfile Hok. rewrite Hdoc in E. unfold bind at 1 in E.
    match type of E with
    | context [(if truthy_field _ then _ else _) ?w1] =>
        destruct (image_step env doc w1 Hfile Hok) as (w2 & Hrun & Hev & _ & Hb1 & Hb2)
    end.
    rewrite Hrun in E. unfold bind, doc_delete, backend, console_log, ret in E.
    rewrite Hdel in E. injection E as <- <-.
    cbn [fst snd events bucket set_events add_issued add_console] in *.
    split; [reflexivity |]. split; [rewrite Hev; reflexivity |].
    destruct (truthy_field (doc !! js "imageUrl")) eqn:Ht.
    + apply Hb1. reflexivity.
    + rewrite (Hb2 eq_refl), (bucket_without_falsy doc _ Ht). reflexivity.
Qed.

(** X14.  The delete handler, given an id and a store that answers the
    read: when the id names no record, it answers 404, the records and
    the bucket are as they were, and the one call issued is the read;
    when it names a record and the deletions succeed, it answers 200, the
    record is gone, and so is the object its image reference names, when
    that reference is a URL of this bucket. *)
Theorem delete_event_outcomes :
  forall (env : Env) (req : Request) (w : World) (out : response * World),
    out = Firestore.delete_event env req w \/ out = Session.delete_event env req w ->
    truthy_str (params_id req) = true ->
    doc_get_error env = None ->
    (events w !! params_id req = None ->
     fst out = not_found
     /\ events (snd out) = events w /\ bucket (snd out) = bucket w
     /\ issued (snd out) = issued w ++ [CDocGet (params_id req)])
    /\ (forall doc,
        events w !! params_id req = Some doc ->
        doc_delete_error env = None -> file_delete_error env = None ->
        image_reference_ok doc ->
        fst out = deleted
        /\ events (snd out) = delete (params_id req) (events w)
        /\ bucket (snd out) = bucket_without_image doc (bucket w)).
Proof. exact delete_event_run. Qed.

Lemma delete_event_outcomes_witness :
  fst (Firestore.delete_event (quiet_env 5 []) bad_date_update stored_world) = deleted
  /\ events (snd (Firestore.delete_event (quiet_env 5 []) bad_date_update stored_world))
     = delete (js "e1") (events stored_world)
  /\ bucket (snd (Firestore.delete_event (quiet_env 5 []) bad_date_update stored_world))
     = bucket_without_image stored_event (bucket stored_world).
Proof.
  apply (proj2 (delete_event_outcomes (quiet_env 5 []) bad_date_update stored_world
                  (Firestore.delete_event (quiet_env 5 []) bad_date_update stored_world)
                  (or_introl eq_refl) eq_refl eq_refl) stored_event).
  - reflexivity.
  - reflexivity.
  - reflexivity.
  - intros _. eexists. vm_compute. reflexivity.
Defined.

(** X15.  Creating a record and then deleting it under the id it got
    leaves the records and the bucket as they were before the two
    requests, when the id and the generated object name were free and
    the stores accept every call. *)
Theorem create_then_delete :
  forall (Date_parse : jsstring -> option Z) (env env' : Env) (req del : Request)
         (w : World) (ts : fvalue),
    truthy (prop (req_body req) FIELD_TITLE) = true ->
    truthy (prop (req_body req) FIELD_DATE) = true ->
    Firestore.eventDate_timestamp Date_parse (prop (req_body req) FIELD_DATE) = Ok ts ->
    (forall f, req_file req = Some f ->
       upload_succeeds env
       /\ bucket w !! uniqueFilename (now env) (originalname f) = None) ->
    add_error env = None ->
    events w !! auto_id env = None ->
    truthy_str (auto_id env) = true ->
    params_id del = auto_id env ->
    doc_get_error env' = None -> doc_delete_error env' = None ->
    file_delete_error env' = None ->
    forall w1 out,
      w1 = snd (Firestore.post_events Date_parse env req w)
      \/ w1 = snd (Session.post_events Date_parse env req w) ->
      out = Firestore.delete_event env' del w1 \/ out = Session.delete_event env' del w1 ->
      events w1 !! auto_id env <> None
      /\ fst out = deleted
      /\ events (snd out) = events w
      /\ bucket (snd out) = bucket w.
Proof.
  intros Date_parse env env' req del w ts Htitle Hdate Hts Hup Hadd Hfresh Hid Hdel
    Hget Hdd Hfd w1 out Hw1 Hout.
  assert (Hup' : forall f, req_file req = Some f -> upload_succeeds env).
  { intros f Hf. apply (Hup f Hf). }
  assert (H : exists doc,
            events w1 = <[auto_id env := doc]> (events w)
            /\ bucket w1 = bucket_with_image env req (bucket w)
            /\ doc !! js "imageUrl" = Some (VJson (stored_imageUrl env req))).
  { destruct Hw1 as [-> | ->].
    - destruct (create_record_run Date_parse env req w ts Htitle Hdate Hts Hup' Hadd Hfresh
                  (Firestore.post_events Date_parse env req w) (or_introl eq_refl))
        as (_ & Hb & doc & He & _ & _ & Hi & _). eauto.
    - destruct (create_record_run Date_parse env req w ts Htitle Hdate Hts Hup' Hadd Hfresh
                  (Session.post_events Date_parse env req w) (or_intror eq_refl))
        as (_ & Hb & doc & He & _ & _ & Hi & _). eauto. }
  destruct H as (doc & He & Hb & Hi).
  assert (Hlook : events w1 !! params_id del = Some doc).
  { rewrite Hdel, He. apply lookup_insert_eq. }
  assert (Hok : image_reference_ok doc).
  { intros Ht. rewrite Hi in Ht |- *. unfold stored_imageUrl in *.
    destruct (req_file req); [eexists; reflexivity | discriminate Ht]. }
  rewrite <- Hdel in Hid.
  destruct (proj2 (delete_event_run env' del w1 out Hout Hid Hget) doc Hlook Hdd Hfd Hok)
    as (Hr & Hev & Hbu).
  split; [rewrite <- Hdel, Hlook; discriminate |].
  split; [exact Hr |]. split.
  - rewrite Hev, He, Hdel, delete_insert_eq. apply delete_id, Hfresh.
  - rewrite Hbu, Hb. unfold bucket_without_image, bucket_with_image, stored_imageUrl in *.
    rewrite Hi. destruct (req_file req) as [f|] eqn:Hf; [| reflexivity].
    destruct (Hup f eq_refl) as [_ Hnone].
    unfold bucket_without. rewrite startsWith_app, substring_app, uniqueFilename_truthy.
    cbn [andb]. rewrite delete_insert_eq. apply delete_id, Hnone.
Qed.

Lemma create_then_delete_witness :
  let w1 :=
    snd (Firestore.post_events sample_Date_parse (quiet_env 5 (js "e7")) meeting_request
           empty_world) in
  events w1 !! js "e7" <> None
  /\ fst (Firestore.delete_event (quiet_env 6 []) delete_e7 w1) = deleted
  /\ events (snd (Firestore.delete_event (quiet_env 6 []) delete_e7 w1)) = ∅
  /\ bucket (snd (Firestore.delete_event (quiet_env 6 []) delete_e7 w1)) = ∅.
Proof.
  cbn zeta.
  assert (Hts : Firestore.eventDate_timestamp sample_Date_parse
                  (prop (req_body meeting_request) FIELD_DATE)
                = Ok (VTimestamp 1748736000 0)) by (vm_compute; reflexivity).
  assert (Hup : forall f, req_file meeting_request = Some f ->
                  upload_succeeds (quiet_env 5 (js "e7"))
                  /\ bucket empty_world
                       !! uniqueFilename (now (quiet_env 5 (js "e7"))) (originalname f)
                     = None).
  { intros f _. split; [split; reflexivity | reflexivity]. }
  exact (create_then_delete sample_Date_parse (quiet_env 5 (js "e7")) (quiet_env 6 [])
           meeting_request delete_e7 empty_world (VTimestamp 1748736000 0)
           eq_refl eq_refl Hts Hup eq_refl eq_refl eq_refl eq_refl eq_refl eq_refl eq_refl
           _ _ (or_introl eq_refl) (or_introl eq_refl)).
Defined.

(** ** The event list of the document store *)

Lemma assoc_map_to_list (o : gmap jsstring json) (k : jsstring) :
  assoc k (map_to_list o) = o !! k.
Proof.
  pose proof (NoDup_fst_map_to_list o) as Hnd.
  assert (H : forall l : list (jsstring * json),
            NoDup l.*1 ->
            forall v, assoc k l = Some v <-> (k, v) ∈ l).
  { induction l as [|[k' v'] l IH]; intros Hl v; cbn [assoc].
    - split; [discriminate | intros Hin; inversion Hin].
    - cbn [fmap list_fmap fst] in Hl. apply NoDup_cons in Hl as [Hk Hl].
      destruct (decide (k' = k)) as [-> | Hne].
      + split.
        * intros [= ->]. left.
        * intros Hin. apply elem_of_cons in Hin as [[= ->] | Hin]; [reflexivity |].
          exfalso. apply Hk. apply list_elem_of_fmap. exists (k, v). auto.
      + rewrite (IH Hl v). split.
        * intros Hin. right. exact Hin.
        * intros Hin. apply elem_of_cons in Hin as [[= -> ->] | Hin]; [congruence | exact Hin]. }
  destruct (o !! k) as [v|] eqn:E.
  - apply (H _ Hnd). apply elem_of_map_to_list. exact E.
  - destruct (assoc k (map_to_list o)) as [v|] eqn:E'; [| reflexivity].
    apply (H _ Hnd), elem_of_map_to_list in E'. congruence.
Qed.

Section Listing.

Variable toISOString : Z -> jsstring.

Lemma toDate_toISOString_Ok (v : option fvalue) :
  date_field_ok v = true ->
  exists t, Firestore.toDate_toISOString toISOString v = Ok t
            /\ or_null t = shown_date toISOString v
            /\ or_null (before_T <$> t) = shown_date (fun ms => before_T (toISOString ms)) v.
Proof.
  destruct v as [[[]|]|]; try discriminate; intros _; eexists; repeat split.
Qed.

Lemma toDate_toISOString_Err (v : option fvalue) :
  date_field_ok v = false ->
  exists e, Firestore.toDate_toISOString toISOString v = Err e.
Proof.
  destruct v as [[[]|]|]; try discriminate; intros _; eexists; reflexivity.
Qed.

Lemma event_object_Ok (id : jsstring) (data : gmap jsstring fvalue) :
  listable_doc data = true ->
  exists o,
    Firestore.event_object toISOString id data = Ok o
    /\ o !! js "id"
       = Some (match data !! js "id" with Some v => fvalue_json v | None => JStr id end)
    /\ o !! js "eventDate"
       = Some (shown_date (fun ms => before_T (toISOString ms)) (data !! js "eventDate"))
    /\ o !! js "createdAt" = Some (shown_date toISOString (data !! js "createdAt"))
    /\ (forall k, k <> js "id" -> k <> js "eventDate" -> k <> js "createdAt" ->
        o !! k = fvalue_json <$> data !! k).
Proof.
  unfold listable_doc. rewrite andb_true_iff. intros [H1 H2].
  destruct (toDate_toISOString_Ok _ H1) as (t1 & E1 & _ & S1).
  destruct (toDate_toISOString_Ok _ H2) as (t2 & E2 & S2 & _).
  unfold Firestore.event_object. rewrite E1, E2. eexists. split; [reflexivity |].
  split; [| split; [| split]].
  - rewrite !lookup_insert_ne by discriminate.
    rewrite lookup_union, lookup_fmap, lookup_singleton_eq.
    destruct (data !! js "id"); reflexivity.
  - rewrite lookup_insert_ne by discriminate. rewrite lookup_insert_eq, S1. reflexivity.
  - rewrite lookup_insert_eq, S2. reflexivity.
  - intros k K1 K2 K3. rewrite !lookup_insert_ne by congruence.
    rewrite lookup_union, lookup_fmap, lookup_singleton_ne by congruence.
    destruct (data !! k); reflexivity.
Qed.

Lemma event_object_Err (id : jsstring) (data : gmap jsstring fvalue) :
  listable_doc data = false ->
  exists e, Firestore.event_object toISOString id data = Err e.
Proof.
  unfold listable_doc, Firestore.event_object. intros H.
  destruct (date_field_ok (data !! js "eventDate")) eqn:H1.
  - destruct (toDate_toISOString_Ok _ H1) as (t1 & -> & _).
    destruct (toDate_toISOString_Err _ H) as (e & ->). eauto.
  - destruct (toDate_toISOString_Err _ H1) as (e & ->). eauto.
Qed.

Lemma event_objects_Ok (docs : list (jsstring * gmap jsstring fvalue)) :
  Forall (fun d => listable_doc (snd d) = true) docs ->
  exists os,
    Firestore.event_objects toISOString docs = Ok os
    /\ Forall2 (fun d o => Firestore.event_object toISOString (fst d) (snd d) = Ok o) docs os.
Proof.
  induction 1 as [|[id data] docs Hd _ IH].
  - exists []. split; [reflexivity | constructor].
  - destruct IH as (os & E & F). destruct (event_object_Ok id data Hd) as (o & Ho & _).
    exists (o :: os). cbn [Firestore.event_objects]. rewrite Ho, E.
    split; [reflexivity | constructor; assumption].
Qed.

Lemma event_objects_Err (docs : list (jsstring * gmap jsstring fvalue)) :
  Exists (fun d => listable_doc (snd d) = false) docs ->
  exists e, Firestore.event_objects toISOString docs = Err e.
Proof.
  induction 1 as [[id data] docs Hd | [id data] docs _ IH]; cbn [Firestore.event_objects].
  - destruct (event_object_Err id data Hd) as (e & ->). eauto.
  - destruct (Firestore.event_object toISOString id data); [| eauto].
    destruct IH as (e & ->). eauto.
Qed.

End Listing.

Lemma get_events_run :
  forall (toISOString : Z -> jsstring) (docs : list (jsstring * gmap jsstring fvalue)),
    (Forall (fun d => listable_doc (snd d) = true) docs ->
     exists items,
       Firestore.get_events toISOString (Ok docs) = Response 200 (JArr items)
       /\ Forall2
            (fun d item =>
               let '(id, data) := d in
               prop (Some item) (js "id")
               = Some (match data !! js "id" with
                       | Some v => fvalue_json v
                       | None => JStr id
                       end)
               /\ prop (Some item) (js "eventDate")
                  = Some (shown_date (fun ms => before_T (toISOString ms))
                            (data !! js "eventDate"))
               /\ prop (Some item) (js "createdAt")
                  = Some (shown_date toISOString (data !! js "createdAt"))
               /\ (forall k,
                     k <> js "id" -> k <> js "eventDate" -> k <> js "createdAt" ->
                     prop (Some item) k = fvalue_json <$> data !! k))
            docs items)
    /\ (Exists (fun d => listable_doc (snd d) = false) docs ->
        Firestore.get_events toISOString (Ok docs) = load_failed)
    /\ (forall e, Firestore.get_events toISOString (Err e) = load_failed).
Proof.
  intros toISOString docs. split; [| split].
  - intros Hall. destruct (event_objects_Ok toISOString docs Hall) as (os & E & F).
    exists ((fun o => JObj (map_to_list o)) <$> os).
    unfold Firestore.get_events. rewrite E. split; [reflexivity |].
    apply Forall2_fmap_r.
    clear E. induction F as [|[id data] o docs os Ho F IH]; constructor.
    + apply Forall_cons in Hall as [Hd _]. cbn [fst snd] in *.
      destruct (event_object_Ok toISOString id data Hd) as (o' & Ho' & K1 & K2 & K3 & K4).
      assert (o' = o) by congruence. subst o'.
      cbv beta iota delta [prop compose]. rewrite !assoc_map_to_list.
      repeat split; try assumption.
      intros k ? ? ?. rewrite assoc_map_to_list. apply K4; assumption.
    + apply IH. apply Forall_cons in Hall as [_ Hall]. exact Hall.
  - intros Hex. destruct (event_objects_Err toISOString docs Hex) as (e & E).
    unfold Firestore.get_events. rewrite E. reflexivity.
  - reflexivity.
Qed.

(** X16.  The list of the document store answers 200 exactly when every
    document of the snapshot has date fields it can read, each missing,
    [null] or a [Timestamp]: it then shows one object per document, in
    the order of the snapshot, with the id of the document, unless the
    document holds a field of that name, which wins, the day of
    [eventDate] and the instant of [createdAt] as texts, or [null], and
    every other field as stored.  One document with another value in a
    date field, or a failing query, makes the whole list a 500. *)
Theorem get_events_outcomes :
  forall (toISOString : Z -> jsstring) (docs : list (jsstring * gmap jsstring fvalue)),
    (Forall (fun d => listable_doc (snd d) = true) docs ->
     exists items,
       Firestore.get_events toISOString (Ok docs) = Response 200 (JArr items)
       /\ Forall2
            (fun d item =>
               let '(id, data) := d in
               prop (Some item) (js "id")
               = Some (match data !! js "id" with
                       | Some v => fvalue_json v
                       | None => JStr id
                       end)
               /\ prop (Some item) (js "eventDate")
                  = Some (shown_date (fun ms => before_T (toISOString ms))
                            (data !! js "eventDate"))
               /\ prop (Some item) (js "createdAt")
                  = Some (shown_date toISOString (data !! js "createdAt"))
               /\ (forall k,
                     k <> js "id" -> k <> js "eventDate" -> k <> js "createdAt" ->
                     prop (Some item) k = fvalue_json <$> data !! k))
            docs items)
    /\ (Exists (fun d => listable_doc (snd d) = false) docs ->
        Firestore.get_events toISOString (Ok docs) = load_failed)
    /\ (forall e, Firestore.get_events toISOString (Err e) = load_failed).
Proof. exact get_events_run. Qed.

Lemma get_events_outcomes_witness :
  exists item,
    Firestore.get_events sample_toISOString (Ok [(js "e1", stored_event)])
    = Response 200 (JArr [item])
    /\ prop (Some item) (js "id") = Some (JStr (js "e1"))
    /\ prop (Some item) (js "eventDate") = Some (JStr (js "2025-06-01"))
    /\ prop (Some item) (js "title") = Some (JStr (js "Meeting")).
Proof.
  destruct (proj1 (get_events_outcomes sample_toISOString [(js "e1", stored_event)]))
    as (items & Hg & F).
  - constructor; [vm_compute; reflexivity | constructor].
  - apply Forall2_cons_inv_l in F as (item & rest & (K1 & K2 & _ & K4) & F & ->).
    apply Forall2_nil_inv_l in F as ->.
    exists item. split; [exact Hg |]. split; [exact K1 |]. split; [exact K2 |].
    rewrite K4 by discriminate. reflexivity.
Defined.

(** ** Time stamps read back *)

Lemma Timestamp_round_trip (ms : Z) (ts : fvalue) :
  Timestamp_fromDate (Some ms) = Ok ts ->
  exists s n, ts = VTimestamp s n /\ Timestamp_toMillis s n = ms.
Proof.
  unfold Timestamp_fromDate. destruct (_ || _); [discriminate |]. intros [= <-].
  eexists _, _. split; [reflexivity |]. unfold Timestamp_toMillis.
  pose proof (Z.div_mod ms 1000 ltac:(lia)) as E.
  pose proof (Z.mod_pos_bound ms 1000 ltac:(lia)) as B.
  replace (ms - ms / 1000 * 1000)%Z with (ms mod 1000)%Z by lia.
  replace ((ms mod 1000) * 1000000 + 500000)%Z
    with (500000 + (ms mod 1000) * 1000000)%Z by lia.
  rewrite Z.div_add by lia. change (500000 / 1000000)%Z with 0%Z. lia.
Qed.

Lemma server_timestamp_millis (env : Env) :
  exists s n, server_timestamp env = VTimestamp s n /\ Timestamp_toMillis s n = now env.
Proof.
  unfold server_timestamp, Timestamp_toMillis. eexists _, _. split; [reflexivity |].
  pose proof (Z.div_mod (now env) 1000 ltac:(lia)) as E.
  replace ((now env mod 1000) * 1000000 + 500000)%Z
    with (500000 + (now env mod 1000) * 1000000)%Z by lia.
  rewrite Z.div_add by lia. change (500000 / 1000000)%Z with 0%Z. lia.
Qed.

(** X17.  A record that a create request stored is listed with the id
    the answer gave, the title of the request, the reference of its
    image, the day of the instant its date text was read as, and the time
    of the server at its creation: the conversion to a [Timestamp] and
    back loses nothing. *)
Theorem created_record_listed :
  forall (Date_parse : jsstring -> option Z) (toISOString : Z -> jsstring)
         (env : Env) (req : Request) (w : World) (ms : Z) (ts : fvalue),
    truthy (prop (req_body req) FIELD_TITLE) = true ->
    truthy (prop (req_body req) FIELD_DATE) = true ->
    Date_parse (ToString_value (prop (req_body req) FIELD_DATE) ++ js "T00:00:00Z")
    = Some ms ->
    Timestamp_fromDate (Some ms) = Ok ts ->
    (forall f, req_file req = Some f -> upload_succeeds env) ->
    add_error env = None ->
    events w !! auto_id env = None ->
    forall out,
      out = Firestore.post_events Date_parse env req w
      \/ out = Session.post_events Date_parse env req w ->
      exists doc item,
        events (snd out) !! auto_id env = Some doc
        /\ Firestore.get_events toISOString (Ok [(auto_id env, doc)])
           = Response 200 (JArr [item])
        /\ prop (Some item) (js "id") = Some (JStr (auto_id env))
        /\ prop (Some item) (js "eventDate")
           = Some (or_null (Some (before_T (toISOString ms))))
        /\ prop (Some item) (js "createdAt")
           = Some (or_null (Some (toISOString (now env))))
        /\ prop (Some item) (js "title")
           = Some (or_else (prop (req_body req) FIELD_TITLE) (JStr []))
        /\ prop (Some item) (js "imageUrl") = Some (stored_imageUrl env req).
Proof.
  intros Date_parse toISOString env req w ms ts Htitle Hdate Hms Hts Hup Hadd Hfresh
    out Hout.
  assert (Hts' : Firestore.eventDate_timestamp Date_parse (prop (req_body req) FIELD_DATE)
                 = Ok ts).
  { unfold Firestore.eventDate_timestamp. rewrite Hms. exact Hts. }
  destruct (create_record_run Date_parse env req w ts Htitle Hdate Hts' Hup Hadd Hfresh
              out Hout) as (_ & _ & doc & Hev & Hset & Hd & Hi & Hc & Hnone).
  destruct (Timestamp_round_trip ms ts Hts) as (s & n & -> & Hsn).
  destruct (server_timestamp_millis env) as (s' & n' & Hst & Hsn').
  rewrite Hst in Hc.
  assert (Hl : listable_doc doc = true).
  { unfold listable_doc. rewrite Hd, Hc. reflexivity. }
  destruct (proj1 (get_events_run toISOString [(auto_id env, doc)]))
    as (items & Hg & F).
  { constructor; [exact Hl | constructor]. }
  apply Forall2_cons_inv_l in F as (item & rest & (K1 & K2 & K3 & K4) & F & ->).
  apply Forall2_nil_inv_l in F as ->.
  exists doc, item.
  split; [rewrite Hev; apply lookup_insert_eq |]. split; [exact Hg |].
  split; [| split; [| split; [| split]]].
  - rewrite K1, (Hnone (js "id")); [reflexivity |].
    vm_compute. intuition discriminate.
  - rewrite K2, Hd. cbn [shown_date]. rewrite Hsn. reflexivity.
  - rewrite K3, Hc. cbn [shown_date]. rewrite Hsn'. reflexivity.
  - rewrite K4 by discriminate.
    rewrite (Hset (js "title") (VJson (or_else (prop (req_body req) FIELD_TITLE) (JStr []))));
      [reflexivity | left; reflexivity].
  - rewrite K4 by discriminate. rewrite Hi. reflexivity.
Qed.

Lemma created_record_listed_witness :
  exists doc item,
    events (snd (Session.post_events sample_Date_parse (quiet_env 5 (js "e7"))
                   meeting_request empty_world)) !! js "e7" = Some doc
    /\ Firestore.get_events sample_toISOString (Ok [(js "e7", doc)])
       = Response 200 (JArr [item])
    /\ prop (Some item) (js "id") = Some (JStr (js "e7"))
    /\ prop (Some item) (js "eventDate") = Some (JStr (js "2025-06-01"))
    /\ prop (Some item) (js "title") = Some (JStr (js "Meeting")).
Proof.
  destruct (created_record_listed sample_Date_parse sample_toISOString
              (quiet_env 5 (js "e7")) meeting_request empty_world 1748736000000
              (VTimestamp 1748736000 0))
    with (out := Session.post_events sample_Date_parse (quiet_env 5 (js "e7"))
                   meeting_request empty_world)
    as (doc & item & H1 & H2 & H3 & H4 & _ & H6 & _).
  - reflexivity.
  - reflexivity.
  - vm_compute. reflexivity.
  - vm_compute. reflexivity.
  - intros f _. split; reflexivity.
  - reflexivity.
  - reflexivity.
  - right. reflexivity.
  - exists doc, item. repeat split; assumption.
Defined.

(** ** Records the list can read *)

Lemma keeps_events_listable {A} (m : M A) : keeps_events m -> keeps_listable m.
Proof. intros H w r w' E. rewrite (H _ _ _ E). auto. Qed.

Lemma keeps_listable_bind {A B} (m : M A) (k : A -> M B) :
  keeps_listable m -> (forall a, keeps_listable (k a)) -> keeps_listable (bind m k).
Proof.
  intros Hm Hk w r w'. unfold bind.
  destruct (m w) as [[a|e] w1] eqn:E; intros H Hl.
  - eapply Hk; [exact H |]. eapply Hm; eassumption.
  - injection H as <- <-. eapply Hm; eassumption.
Qed.

Lemma listable_doc_insert (doc : gmap jsstring fvalue) (k : jsstring) (v : fvalue) :
  listable_doc doc = true ->
  (k = js "eventDate" \/ k = js "createdAt" -> date_field_ok (Some v) = true) ->
  listable_doc (<[k := v]> doc) = true.
Proof.
  unfold listable_doc. rewrite !andb_true_iff. intros [H1 H2] Hv.
  destruct (decide (k = js "eventDate")) as [-> | Hk1].
  - rewrite lookup_insert_eq, lookup_insert_ne by discriminate. auto.
  - destruct (decide (k = js "createdAt")) as [-> | Hk2].
    + rewrite lookup_insert_eq, lookup_insert_ne by discriminate. auto.
    + rewrite !lookup_insert_ne by congruence. auto.
Qed.

Lemma listable_doc_delete (doc : gmap jsstring fvalue) (k : jsstring) :
  listable_doc doc = true -> listable_doc (delete k doc) = true.
Proof.
  unfold listable_doc. rewrite !andb_true_iff. intros [H1 H2].
  destruct (decide (k = js "eventDate")) as [-> | Hk1].
  - rewrite lookup_delete_eq, lookup_delete_ne by discriminate. auto.
  - destruct (decide (k = js "createdAt")) as [-> | Hk2].
    + rewrite lookup_delete_eq, lookup_delete_ne by discriminate. auto.
    + rewrite !lookup_delete_ne by congruence. auto.
Qed.

Lemma write_fields_listable (env : Env) (payload : list (jsstring * pvalue)) :
  dates_payload payload ->
  forall doc doc',
    listable_doc doc = true ->
    write_fields env doc payload = Ok doc' ->
    listable_doc doc' = true.
Proof.
  unfold write_fields.
  induction payload as [|[k v] l IH]; intros Hp doc doc' Hd Hw.
  - injection Hw as <-. exact Hd.
  - cbn [fold_left] in Hw. unfold write_field at 2 in Hw. cbn [fst snd] in Hw.
    assert (Hl : dates_payload l).
    { intros k' pv Hin. apply Hp. right. exact Hin. }
    specialize (Hp k v (or_introl eq_refl)).
    destruct v.
    + rewrite write_fields_Err in Hw. discriminate.
    + refine (IH Hl _ _ _ Hw). apply listable_doc_insert; assumption.
    + refine (IH Hl _ _ _ Hw). apply listable_doc_insert; [assumption | reflexivity].
    + refine (IH Hl _ _ _ Hw). apply listable_doc_delete; assumption.
Qed.

Lemma listable_insert (evs : gmap jsstring (gmap jsstring fvalue)) (id : jsstring)
    (doc : gmap jsstring fvalue) :
  listable evs -> listable_doc doc = true -> listable (<[id := doc]> evs).
Proof.
  intros Hl Hd id' doc'. destruct (decide (id = id')) as [-> | Hne].
  - rewrite lookup_insert_eq. intros [= <-]. exact Hd.
  - rewrite lookup_insert_ne by exact Hne. apply Hl.
Qed.

Lemma listable_delete (evs : gmap jsstring (gmap jsstring fvalue)) (id : jsstring) :
  listable evs -> listable (delete id evs).
Proof.
  intros Hl id' doc'. destruct (decide (id = id')) as [-> | Hne].
  - rewrite lookup_delete_eq. discriminate.
  - rewrite lookup_delete_ne by exact Hne. apply Hl.
Qed.

Lemma keeps_listable_add (env : Env) (payload : list (jsstring * pvalue)) :
  dates_payload payload -> keeps_listable (collection_add env payload).
Proof.
  intros Hp w r w'. unfold collection_add, backend.
  destruct (add_error env); [intros [= <- <-]; exact id |].
  cbn [events add_issued].
  destruct (events w !! auto_id env); [intros [= <- <-]; exact id |].
  destruct (write_fields env ∅ payload) as [doc|] eqn:Hw; intros [= <- <-]; [| exact id].
  intros Hl. cbn. apply listable_insert; [exact Hl |].
  exact (write_fields_listable env payload Hp ∅ doc eq_refl Hw).
Qed.

Lemma keeps_listable_update (env : Env) (id : jsstring)
    (payload : list (jsstring * pvalue)) :
  dates_payload payload -> keeps_listable (doc_update env id payload).
Proof.
  intros Hp w r w'. unfold doc_update, backend.
  destruct (doc_update_error env); [intros [= <- <-]; exact (fun x => x) |].
  cbn [events add_issued].
  destruct (events w !! id) as [doc|] eqn:Hd; [| intros [= <- <-]; exact (fun x => x)].
  destruct (write_fields env doc payload) as [doc'|] eqn:Hw; intros [= <- <-];
    [| exact (fun x => x)].
  intros Hl. cbn. apply listable_insert; [exact Hl |].
  exact (write_fields_listable env payload Hp doc doc' (Hl _ _ Hd) Hw).
Qed.

Lemma keeps_listable_delete (env : Env) (id : jsstring) :
  keeps_listable (doc_delete env id).
Proof.
  intros w r w'. unfold doc_delete, backend.
  destruct (doc_delete_error env); intros [= <- <-]; [exact (fun x => x) |].
  cbn. apply listable_delete.
Qed.

Lemma eventDate_timestamp_shape (Date_parse : jsstring -> option Z) (raw : jsvalue)
    (ts : fvalue) :
  Firestore.eventDate_timestamp Date_parse raw = Ok ts ->
  exists s n, ts = VTimestamp s n.
Proof.
  unfold Firestore.eventDate_timestamp, Timestamp_fromDate.
  destruct (Date_parse _) as [ms|]; [| discriminate].
  destruct (_ || _); [discriminate |]. intros [= <-]. eauto.
Qed.

Lemma dates_payload_text (eventData : jsvalue) (s n : Z)
    (extra : list (jsstring * pvalue)) :
  dates_payload extra -> dates_payload (text_fields eventData (VTimestamp s n) ++ extra).
Proof.
  intros He k pv Hin Hk. apply in_app_or in Hin as [Hin | Hin]; [| exact (He k pv Hin Hk)].
  unfold text_fields in Hin. cbn [In] in Hin.
  destruct Hk as [-> | ->];
    repeat (destruct Hin as [[= <-] | Hin]; try discriminate; try reflexivity);
    destruct Hin.
Qed.

Lemma handle_listable (body : M response) (where_ : jsstring) (failure : json)
    (w : World) :
  keeps_listable body -> listable (events w) ->
  listable (events (snd (handle body where_ failure w))).
Proof.
  intros Hb Hl. unfold handle. destruct (body w) as [[r|e] w1] eqn:E; cbn.
  - eapply Hb; eassumption.
  - eapply Hb; eassumption.
Qed.

Section Handlers.

Variable Date_parse : jsstring -> option Z.
Variables (env : Env) (req : Request) (w : World).
Hypothesis Hl : listable (events w).

Lemma firestore_post_listable :
  listable (events (snd (Firestore.post_events Date_parse env req w))).
Proof.
  unfold Firestore.post_events. apply handle_listable; [| exact Hl].
  destruct (_ || _); [apply keeps_events_listable; keeps_all |].
  apply keeps_listable_bind; [apply keeps_events_listable; keeps_all | intros imageUrl].
  destruct (truthy _); [| apply keeps_events_listable; keeps_all].
  destruct (Firestore.eventDate_timestamp _ _) as [ts|e] eqn:Hts;
    [| apply keeps_events_listable; keeps_all].
  destruct (eventDate_timestamp_shape _ _ _ Hts) as (s & n & ->).
  apply keeps_listable_bind; [| intros ?; apply keeps_events_listable; keeps_all].
  apply keeps_listable_add, dates_payload_text.
  intros k pv [[= <- <-] | [[= <- <-] | []]] [Hk | Hk]; try discriminate Hk; reflexivity.
Qed.

Lemma session_post_listable :
  listable (events (snd (Session.post_events Date_parse env req w))).
Proof.
  unfold Session.post_events.
  change (Session.eventDate_timestamp Date_parse) with
    (Firestore.eventDate_timestamp Date_parse).
  apply handle_listable; [| exact Hl].
  destruct (_ || _); [apply keeps_events_listable; keeps_all |].
  apply keeps_listable_bind; [apply keeps_events_listable; keeps_all | intros imageUrl].
  destruct (truthy _); [| apply keeps_events_listable; keeps_all].
  destruct (Firestore.eventDate_timestamp _ _) as [ts|e] eqn:Hts;
    [| apply keeps_events_listable; keeps_all].
  destruct (eventDate_timestamp_shape _ _ _ Hts) as (s & n & ->).
  apply keeps_listable_bind; [| intros ?; apply keeps_events_listable; keeps_all].
  apply keeps_listable_add, dates_payload_text.
  intros k pv [[= <- <-] | [[= <- <-] | []]] [Hk | Hk]; try discriminate Hk; reflexivity.
Qed.

Lemma firestore_put_listable :
  listable (events (snd (Firestore.put_event Date_parse env req w))).
Proof.
  unfold Firestore.put_event.
  destruct (negb (truthy_str (params_id req))); [exact Hl |].
  match goal with |- context [if ?b then _ else _] => destruct b end; [exact Hl |].
  apply handle_listable; [| exact Hl].
  apply keeps_listable_bind; [apply keeps_events_listable; keeps_all | intros doc].
  destruct doc; [| apply keeps_events_listable; keeps_all].
  destruct (truthy _); [| apply keeps_events_listable; keeps_all].
  destruct (Firestore.eventDate_timestamp _ _) as [ts|e] eqn:Hts;
    [| apply keeps_events_listable; keeps_all].
  destruct (eventDate_timestamp_shape _ _ _ Hts) as (s & n & ->).
  apply keeps_listable_bind; [| intros ?; apply keeps_events_listable; keeps_all].
  apply keeps_listable_update.
  rewrite <- (app_nil_r (text_fields _ _)). apply dates_payload_text.
  intros k pv [].
Qed.

Lemma session_put_listable :
  listable (events (snd (Session.put_event Date_parse env req w))).
Proof.
  unfold Session.put_event.
  change (Session.eventDate_timestamp Date_parse) with
    (Firestore.eventDate_timestamp Date_parse).
  destruct (negb (truthy_str (params_id req))); [exact Hl |].
  match goal with |- context [if ?b then _ else _] => destruct b end; [exact Hl |].
  apply handle_listable; [| exact Hl].
  apply keeps_listable_bind; [apply keeps_events_listable; keeps_all | intros doc].
  destruct doc; [| apply keeps_events_listable; keeps_all].
  apply keeps_listable_bind; [apply keeps_events_listable; keeps_all | intros img].
  destruct (truthy _); [| apply keeps_events_listable; keeps_all].
  destruct (Firestore.eventDate_timestamp _ _) as [ts|e] eqn:Hts;
    [| apply keeps_events_listable; keeps_all].
  destruct (eventDate_timestamp_shape _ _ _ Hts) as (s & n & ->).
  apply keeps_listable_bind; [| intros ?; apply keeps_events_listable; keeps_all].
  apply keeps_listable_update. cbv zeta. rewrite clean_payload_eq.
  apply dates_payload_text.
  intros k pv Hin Hk. unfold image_entry in Hin.
  destruct img as [v|]; [| destruct Hin].
  destruct (truthy_field (Some v)); destruct Hin as [[= <- <-] | []];
    destruct Hk as [Hk | Hk]; discriminate Hk.
Qed.

Lemma delete_listable :
  listable (events (snd (Firestore.delete_event env req w))).
Proof.
  unfold Firestore.delete_event.
  destruct (negb (truthy_str (params_id req))); [exact Hl |].
  apply handle_listable; [| exact Hl].
  apply keeps_listable_bind; [apply keeps_events_listable; keeps_all | intros doc].
  destruct doc; [| apply keeps_events_listable; keeps_all].
  apply keeps_listable_bind; [apply keeps_events_listable; keeps_all | intros ?].
  apply keeps_listable_bind; [apply keeps_listable_delete | intros ?].
  apply keeps_events_listable; keeps_all.
Qed.

Lemma delete_image_listable :
  listable (events (snd (Session.delete_event_image env req w))).
Proof.
  unfold Session.delete_event_image.
  destruct (negb (truthy_str (params_id req))); [exact Hl |].
  apply handle_listable; [| exact Hl].
  apply keeps_listable_bind; [apply keeps_events_listable; keeps_all | intros doc].
  destruct doc; [| apply keeps_events_listable; keeps_all].
  destruct (negb _); [apply keeps_events_listable; keeps_all |].
  apply keeps_listable_bind; [apply keeps_events_listable; keeps_all | intros ?].
  apply keeps_listable_bind; [| intros ?; apply keeps_events_listable; keeps_all].
  apply keeps_listable_update.
  intros k pv [[= <- <-] | []] _. reflexivity.
Qed.

Lemma route_listable (m : Session.mutation) :
  listable (events (snd (Session.route Date_parse m env req w))).
Proof.
  unfold Session.route, Session.isAuthenticated.
  destruct (req_session req) as [s|]; [| exact Hl].
  destruct (isAuthenticated s); [| exact Hl].
  destruct m; unfold Session.with_multer, Session.without_multer.
  - destruct (multer_single req) as [req'|] eqn:Hm; [| exact Hl].
    apply multer_single_same in Hm. subst req'.
    pose proof session_post_listable as H.
    destruct (Session.post_events Date_parse env req w). exact H.
  - destruct (multer_single req) as [req'|] eqn:Hm; [| exact Hl].
    apply multer_single_same in Hm. subst req'.
    pose proof session_put_listable as H.
    destruct (Session.put_event Date_parse env req w). exact H.
  - pose proof delete_listable as H.
    change (Firestore.delete_event env req w) with (Session.delete_event env req w) in H.
    destruct (Session.delete_event env req w). exact H.
  - pose proof delete_image_listable as H.
    destruct (Session.delete_event_image env req w). exact H.
Qed.

End Handlers.

(** X18.  The records stay readable for the list: the empty store is,
    and every create, update and delete request of the document-store
    revision and every mutating route of the session revision, whatever
    its outcome, leaves the store so when it found it so; the list over a
    snapshot of documents of such a store answers 200. *)
Theorem handlers_keep_records_listable :
  listable ∅
  /\ forall (Date_parse : jsstring -> option Z) (env : Env) (req : Request) (w : World),
       listable (events w) ->
       listable (events (snd (Firestore.post_events Date_parse env req w)))
       /\ listable (events (snd (Firestore.put_event Date_parse env req w)))
       /\ listable (events (snd (Firestore.delete_event env req w)))
       /\ (forall m, listable (events (snd (Session.route Date_parse m env req w))))
       /\ (forall (toISOString : Z -> jsstring)
                  (docs : list (jsstring * gmap jsstring fvalue)),
             (forall d, In d docs -> events w !! fst d = Some (snd d)) ->
             status (Firestore.get_events toISOString (Ok docs)) = 200%Z).
Proof.
  split; [intros id doc H; rewrite lookup_empty in H; discriminate |].
  intros Date_parse env req w Hl.
  split; [apply firestore_post_listable, Hl |].
  split; [apply firestore_put_listable, Hl |].
  split; [apply delete_listable, Hl |].
  split; [intros m; apply route_listable, Hl |].
  intros toISOString docs Hdocs.
  assert (Hall : Forall (fun d => listable_doc (snd d) = true) docs).
  { apply Forall_forall. intros d Hd. apply (Hl (fst d)). apply Hdocs, list_elem_of_In, Hd. }
  destruct (event_objects_Ok toISOString docs Hall) as (os & E & _).
  unfold Firestore.get_events. rewrite E. reflexivity.
Qed.

Lemma handlers_keep_records_listable_witness :
  listable
    (events (snd (Session.route sample_Date_parse Session.UpdateEvent (quiet_env 5 [])
                    (update_request None) stored_world)))
  /\ status (Firestore.get_events sample_toISOString (Ok [(js "e1", stored_event)]))
     = 200%Z.
Proof.
  assert (H : listable (events stored_world)).
  { intros id doc. unfold stored_world. cbn [events].
    destruct (decide (id = js "e1")) as [-> | Hne].
    - rewrite lookup_singleton_eq. intros [= <-]. vm_compute. reflexivity.
    - rewrite lookup_singleton_ne by congruence. discriminate. }
  destruct (proj2 handlers_keep_records_listable sample_Date_parse (quiet_env 5 [])
              (update_request None) stored_world H) as (_ & _ & _ & Hr & Hg).
  split; [apply Hr |]. apply Hg.
  intros d [<- | []]. reflexivity.
Defined.

(** * Further properties of the session revision *)

(** ** Replacing the image of a record *)

Section Replace.

Variable Date_parse : jsstring -> option Z.
Variables (env : Env) (req : Request) (w : World).
Variables (doc : gmap jsstring fvalue) (f : File).
Hypothesis Hid : truthy_str (params_id req) = true.
Hypothesis Htitle : truthy (prop (req_body req) FIELD_TITLE) = true.
Hypothesis Hdate : truthy (prop (req_body req) FIELD_DATE) = true.
Hypothesis Hget : doc_get_error env = None.
Hypothesis Hdoc : events w !! params_id req = Some doc.
Hypothesis Hok : image_reference_ok doc.
Hypothesis Hfile : req_file req = Some f.
Hypothesis Hup : upload_succeeds env.
Hypothesis Hfd : file_delete_error env = None.

Lemma put_event_new_image :
  exists w2,
    events w2 = events w
    /\ bucket w2
       = <[uniqueFilename (now env) (originalname f)
           := Blob (buffer f) (mimetype f) true]>
           (bucket_without_image doc (bucket w))
    /\ Session.put_event Date_parse env req w
       = handle
           (fun w2 =>
              (if truthy (prop (req_body req) FIELD_DATE) then
                 match Session.eventDate_timestamp Date_parse
                         (prop (req_body req) FIELD_DATE) with
                 | Err _ =>
                     ret (res_status_json 400
                            (message false "Invalid date format. Please use YYYY-MM-DD."))
                 | Ok eventDateTimestamp =>
                     let img :=
                       Some (VJson (JStr (gcsPrefix
                                          ++ uniqueFilename (now env) (originalname f)))) in
                     doc_update env (params_id req)
                       (Session.clean_payload img
                          (text_fields (req_body req) eventDateTimestamp
                           ++ [(js "imageUrl", Session.pvalue_of img)])) ;;;
                     console_log (js "Event successfully updated.") ;;;
                     ret (res_json (message true "Event updated successfully."))
                 end
               else ret (res_status_json 400 (message false "Date is a required field.")))
                w2)
           (js "Error in PUT /api/events/:id:")
           (message false "Error updating event.")
           w2.
Proof.
  destruct (truthy_prop _ _ Htitle) as [Hb Ho].
  unfold Session.put_event. rewrite Hid, Htitle, Hdate, Hb, Ho, Hfile. cbn [negb orb].
  unfold handle at 1, bind at 1, doc_get, backend. rewrite Hget.
  cbn [events add_issued add_console]. rewrite Hdoc.
  unfold bind at 1, bind at 1, console_log at 1, bind at 1.
  match goal with
  | |- context [(if truthy_field _ then _ else _) ?w1] =>
      destruct (image_step env doc w1 Hfd Hok) as (w2 & Hrun & Hev & _ & Hb1 & Hb2)
  end.
  rewrite Hrun. unfold bind at 1.
  destruct (uploadToGcs_done env f w2 Hup) as (w3 & Hu & Hev3 & _ & Hbu3).
  rewrite Hu. unfold bind at 1, console_log at 1, ret at 1.
  exists (add_console LLog (js "New image uploaded, URL:") w3).
  cbn [events bucket add_console add_issued] in *.
  split; [congruence |]. split.
  - rewrite Hbu3. f_equal.
    destruct (truthy_field (doc !! js "imageUrl")) eqn:Ht.
    + apply Hb1. reflexivity.
    + rewrite (Hb2 eq_refl), (bucket_without_falsy doc _ Ht). reflexivity.
  - reflexivity.
Qed.

Lemma put_event_new_image_bucket :
  bucket (snd (Session.put_event Date_parse env req w))
  = <[uniqueFilename (now env) (originalname f)
      := Blob (buffer f) (mimetype f) true]>
      (bucket_without_image doc (bucket w)).
Proof.
  destruct put_event_new_image as (w2 & Hev & Hbu & ->).
  rewrite Hdate. unfold handle.
  destruct (Session.eventDate_timestamp Date_parse (prop (req_body req) FIELD_DATE))
    as [ts|e]; [| exact Hbu].
  cbv zeta. unfold bind, doc_update, backend, console_log, ret.
  destruct (doc_update_error env); [exact Hbu |].
  cbn [events add_issued]. rewrite Hev, Hdoc.
  destruct (write_fields env doc _); exact Hbu.
Qed.

Lemma put_event_new_image_bad_date :
  unparseable Date_parse (prop (req_body req) FIELD_DATE) ->
  fst (Session.put_event Date_parse env req w) = invalid_date
  /\ events (snd (Session.put_event Date_parse env req w)) = events w
  /\ bucket (snd (Session.put_event Date_parse env req w))
     = <[uniqueFilename (now env) (originalname f)
         := Blob (buffer f) (mimetype f) true]>
         (bucket_without_image doc (bucket w)).
Proof.
  intros [e He]. destruct put_event_new_image as (w2 & Hev & Hbu & ->).
  change (Session.eventDate_timestamp Date_parse) with
    (Firestore.eventDate_timestamp Date_parse).
  rewrite Hdate, He. cbn. auto.
Qed.

Lemma put_event_new_image_done (ts : fvalue) :
  Firestore.eventDate_timestamp Date_parse (prop (req_body req) FIELD_DATE) = Ok ts ->
  doc_update_error env = None ->
  exists doc',
    fst (Session.put_event Date_parse env req w) = updated
    /\ events (snd (Session.put_event Date_parse env req w))
       = <[params_id req := doc']> (events w)
    /\ doc' !! js "imageUrl"
       = Some (VJson (JStr (gcsPrefix ++ uniqueFilename (now env) (originalname f))))
    /\ bucket (snd (Session.put_event Date_parse env req w))
       = <[uniqueFilename (now env) (originalname f)
           := Blob (buffer f) (mimetype f) true]>
           (bucket_without_image doc (bucket w)).
Proof.
  intros Hts Hupd. destruct put_event_new_image as (w2 & Hev & Hbu & ->).
  change (Session.eventDate_timestamp Date_parse) with
    (Firestore.eventDate_timestamp Date_parse).
  rewrite Hdate, Hts. cbv zeta. rewrite clean_payload_eq.
  set (img := Some (VJson (JStr (gcsPrefix ++ uniqueFilename (now env) (originalname f))))).
  assert (Hw : exists doc', write_fields env doc (text_fields (req_body req) ts ++ image_entry img)
                            = Ok doc').
  { apply write_fields_defined. unfold text_fields, image_entry, img. cbn.
    repeat (constructor; [discriminate |]). constructor. }
  destruct Hw as [doc' Hw]. exists doc'.
  unfold handle, bind, doc_update, backend, console_log, ret. rewrite Hupd.
  cbn [events add_issued]. rewrite Hev, Hdoc, Hw.
  cbn [fst snd events bucket set_events add_console add_issued].
  rewrite Hev, Hbu. repeat split.
  apply (write_fields_lookup env _ doc doc' _ (PVal (VJson (JStr (gcsPrefix ++ uniqueFilename (now env) (originalname f)))))
           (text_fields_NoDup (req_body req) ts img)); [| exact Hw].
  apply in_or_app. right. left. reflexivity.
Qed.

End Replace.

(** X19.  An update of the session revision that brings a new image
    deletes the old image and uploads the new one before it looks at the
    date: the bucket loses the object the stored reference names and
    gains the new one whatever becomes of the request.  With a date that
    cannot be converted the answer is the 400 of the date and the record
    is unchanged, so it still refers to the image that is gone; with a
    date that can be converted and an update the store accepts, the
    record refers to the new image. *)
Theorem update_replaces_image_first :
  forall (Date_parse : jsstring -> option Z) (env : Env) (req : Request) (w : World)
         (doc : gmap jsstring fvalue) (f : File),
    truthy_str (params_id req) = true ->
    truthy (prop (req_body req) FIELD_TITLE) = true ->
    truthy (prop (req_body req) FIELD_DATE) = true ->
    doc_get_error env = None ->
    events w !! params_id req = Some doc ->
    image_reference_ok doc ->
    req_file req = Some f ->
    upload_succeeds env ->
    file_delete_error env = None ->
    let out := Session.put_event Date_parse env req w in
    let name := uniqueFilename (now env) (originalname f) in
    bucket (snd out)
    = <[name := Blob (buffer f) (mimetype f) true]> (bucket_without_image doc (bucket w))
    /\ (unparseable Date_parse (prop (req_body req) FIELD_DATE) ->
        fst out = invalid_date /\ events (snd out) = events w)
    /\ (forall ts,
        Firestore.eventDate_timestamp Date_parse (prop (req_body req) FIELD_DATE) = Ok ts ->
        doc_update_error env = None ->
        fst out = updated
        /\ exists doc',
             events (snd out) = <[params_id req := doc']> (events w)
             /\ doc' !! js "imageUrl" = Some (VJson (JStr (gcsPrefix ++ name)))).
Proof.
  intros Date_parse env req w doc f Hid Htitle Hdate Hget Hdoc Hok Hfile Hup Hfd out name.
  subst out name. split; [| split].
  - apply put_event_new_image_bucket; assumption.
  - intros Hbad.
    destruct (put_event_new_image_bad_date Date_parse env req w doc f Hid Htitle Hdate
                Hget Hdoc Hok Hfile Hup Hfd Hbad) as (Hr & Hev & _).
    auto.
  - intros ts Hts Hupd.
    destruct (put_event_new_image_done Date_parse env req w doc f Hid Htitle Hdate Hget
                Hdoc Hok Hfile Hup Hfd ts Hts Hupd) as (doc' & Hr & Hev & Hi & _).
    eauto.
Qed.

(** The old image is gone, the record still refers to it. *)
Lemma update_replaces_image_first_witness :
  let out := Session.put_event sample_Date_parse (quiet_env 5 []) replace_bad_date
               stored_world in
  fst out = invalid_date
  /\ events (snd out) = events stored_world
  /\ bucket (snd out) !! js "1-old.png" = None
  /\ events stored_world !! js "e1" ≫= (fun doc => doc !! js "imageUrl")
     = Some (VJson (JStr old_image)).
Proof.
  cbn zeta.
  destruct (update_replaces_image_first sample_Date_parse (quiet_env 5 []) replace_bad_date
              stored_world stored_event upload_b)
    as (Hb & Hbad & _).
  - reflexivity.
  - reflexivity.
  - reflexivity.
  - reflexivity.
  - reflexivity.
  - intros _. eexists. vm_compute. reflexivity.
  - reflexivity.
  - split; reflexivity.
  - reflexivity.
  - destruct Hbad as [Hr Hev]; [eexists; vm_compute; reflexivity |].
    split; [exact Hr |]. split; [exact Hev |]. split; [| vm_compute; reflexivity].
    cbn zeta in Hb. rewrite Hb. vm_compute. reflexivity.
Defined.

(** ** Deleting the image of a record *)

Lemma delete_event_image_none (env : Env) (req : Request) (w : World)
    (doc : gmap jsstring fvalue) :
  truthy_str (params_id req) = true ->
  doc_get_error env = None ->
  events w !! params_id req = Some doc ->
  truthy_field (doc !! js "imageUrl") = false ->
  fst (Session.delete_event_image env req w) = no_image
  /\ events (snd (Session.delete_event_image env req w)) = events w
  /\ bucket (snd (Session.delete_event_image env req w)) = bucket w
  /\ issued (snd (Session.delete_event_image env req w))
     = issued w ++ [CDocGet (params_id req)].
Proof.
  intros Hid Hget Hdoc Ht. unfold Session.delete_event_image. rewrite Hid. cbn [negb].
  unfold handle, bind, doc_get, backend, console_log, ret. rewrite Hget.
  cbn [events add_issued add_console]. rewrite Hdoc, Ht. cbn. auto.
Qed.

Lemma delete_event_image_some (env : Env) (req : Request) (w : World)
    (doc : gmap jsstring fvalue) :
  truthy_str (params_id req) = true ->
  doc_get_error env = None ->
  events w !! params_id req = Some doc ->
  truthy_field (doc !! js "imageUrl") = true ->
  image_reference_ok doc ->
  file_delete_error env = None -> doc_update_error env = None ->
  fst (Session.delete_event_image env req w) = image_deleted
  /\ events (snd (Session.delete_event_image env req w))
     = <[params_id req := delete (js "imageUrl") doc]> (events w)
  /\ bucket (snd (Session.delete_event_image env req w))
     = bucket_without_image doc (bucket w).
Proof.
  intros Hid Hget Hdoc Ht Hok Hfd Hupd.
  destruct (Session.delete_event_image env req w) as [r w'] eqn:E. cbn [fst snd].
  unfold Session.delete_event_image in E. rewrite Hid in E. cbn [negb] in E.
  unfold handle, bind at 1, doc_get, backend in E. rewrite Hget in E.
  cbn [events add_issued add_console] in E. rewrite Hdoc, Ht in E. cbn [negb] in E.
  unfold bind at 1 in E.
  match type of E with
  | context [deleteFromGcs env _ ?w1] =>
      destruct (image_step env doc w1 Hfd Hok) as (w2 & Hrun & Hev & _ & Hb1 & _)
  end.
  rewrite Ht in Hrun. rewrite Hrun in E.
  unfold bind, doc_update, backend, console_log, ret in E. rewrite Hupd in E.
  cbn [events add_issued] in E. rewrite Hev in E. cbn [events add_issued add_console] in E.
  rewrite Hdoc in E. cbn in E. injection E as <- <-.
  cbn [events bucket set_events add_console add_issued] in *.
  rewrite Hev, (Hb1 Ht). auto.
Qed.

(** X20.  Deleting the image of a record: when the record has no image
    reference, the answer is 200 with the no-image message and nothing is
    changed or written; when it has one and the calls succeed, the answer
    is 200, the [imageUrl] field is removed and every other field of the
    record keeps its value, the object the reference names is gone from
    the bucket, and the same request sent again finds no image. *)
Theorem delete_event_image_outcomes :
  forall (env env' : Env) (req : Request) (w : World) (doc : gmap jsstring fvalue),
    truthy_str (params_id req) = true ->
    doc_get_error env = None ->
    events w !! params_id req = Some doc ->
    let out := Session.delete_event_image env req w in
    (truthy_field (doc !! js "imageUrl") = false ->
     fst out = no_image /\ events (snd out) = events w /\ bucket (snd out) = bucket w
     /\ issued (snd out) = issued w ++ [CDocGet (params_id req)])
    /\ (truthy_field (doc !! js "imageUrl") = true ->
        image_reference_ok doc ->
        file_delete_error env = None -> doc_update_error env = None ->
        fst out = image_deleted
        /\ (exists doc',
              events (snd out) = <[params_id req := doc']> (events w)
              /\ doc' !! js "imageUrl" = None
              /\ forall k, k <> js "imageUrl" -> doc' !! k = doc !! k)
        /\ bucket (snd out) = bucket_without_image doc (bucket w)
        /\ (doc_get_error env' = None ->
            fst (Session.delete_event_image env' req (snd out)) = no_image)).
Proof.
  intros env env' req w doc Hid Hget Hdoc out. subst out. split.
  - apply delete_event_image_none; assumption.
  - intros Ht Hok Hfd Hupd.
    destruct (delete_event_image_some env req w doc Hid Hget Hdoc Ht Hok Hfd Hupd)
      as (Hr & Hev & Hb).
    split; [exact Hr |]. split; [| split; [exact Hb |]].
    + exists (delete (js "imageUrl") doc). split; [exact Hev |].
      split; [apply lookup_delete_eq |].
      intros k Hk. apply lookup_delete_ne. congruence.
    + intros Hget'.
      apply (delete_event_image_none env' req _ (delete (js "imageUrl") doc)
               Hid Hget').
      * rewrite Hev. apply lookup_insert_eq.
      * rewrite lookup_delete_eq. reflexivity.
Qed.

Lemma delete_event_image_outcomes_witness :
  let out := Session.delete_event_image (quiet_env 5 []) bad_date_update stored_world in
  fst out = image_deleted
  /\ bucket (snd out) = ∅
  /\ fst (Session.delete_event_image (quiet_env 6 []) bad_date_update (snd out)) = no_image.
Proof.
  cbn zeta.
  destruct (proj2 (delete_event_image_outcomes (quiet_env 5 []) (quiet_env 6 [])
                     bad_date_update stored_world stored_event eq_refl eq_refl eq_refl))
    as (Hr & _ & Hb & Hagain).
  - reflexivity.
  - intros _. eexists. vm_compute. reflexivity.
  - reflexivity.
  - reflexivity.
  - split; [exact Hr |]. split; [| apply Hagain; reflexivity].
    rewrite Hb. vm_compute. reflexivity.
Defined.

(** ** The cleaned payload *)

(** X21.  The clean-up of the update payload does what its comment
    says: whatever the payload and the image reference, no entry of the
    cleaned payload is [undefined], so the store accepts it as far as its
    values go; and every defined entry other than [imageUrl] is still in
    it. *)
Theorem clean_payload_defined :
  forall (env : Env) (img : option fvalue) (updatePayload : list (jsstring * pvalue))
         (doc : gmap jsstring fvalue),
    Forall (fun kv => snd kv <> PUndefined) (Session.clean_payload img updatePayload)
    /\ (exists doc', write_fields env doc (Session.clean_payload img updatePayload) = Ok doc')
    /\ (forall k pv, In (k, pv) updatePayload -> pv <> PUndefined -> k <> js "imageUrl" ->
        In (k, pv) (Session.clean_payload img updatePayload)).
Proof.
  intros env img payload doc.
  assert (H1 : Forall (fun kv => snd kv <> PUndefined)
                 (omap (fun kv : jsstring * pvalue =>
                          match snd kv with
                          | PUndefined =>
                              if bool_decide (fst kv = js "imageUrl") && is_null img
                              then Some (fst kv, PDelete)
                              else None
                          | _ => Some kv
                          end) payload)).
  { induction payload as [|[k v] l IH]; [constructor |].
    cbn [omap list_omap fst snd].
    destruct v; try (constructor; [discriminate | exact IH]).
    destruct (_ && _); [constructor; [discriminate | exact IH] | exact IH]. }
  assert (H : Forall (fun kv => snd kv <> PUndefined) (Session.clean_payload img payload)).
  { unfold Session.clean_payload. destruct (negb (truthy_field img)); [| exact H1].
    apply Forall_fmap. eapply Forall_impl; [exact H1 |].
    intros [k v] Hv. cbn in *. destruct (bool_decide _); [discriminate | exact Hv]. }
  split; [exact H |]. split; [apply write_fields_defined, H |].
  intros k pv Hin Hpv Hk.
  assert (Hin1 : In (k, pv)
                   (omap (fun kv : jsstring * pvalue =>
                            match snd kv with
                            | PUndefined =>
                                if bool_decide (fst kv = js "imageUrl") && is_null img
                                then Some (fst kv, PDelete)
                                else None
                            | _ => Some kv
                            end) payload)).
  { apply list_elem_of_In, list_elem_of_omap. exists (k, pv).
    split; [apply list_elem_of_In, Hin |]. cbn. destruct pv; try reflexivity. contradiction. }
  unfold Session.clean_payload. destruct (negb (truthy_field img)); [| exact Hin1].
  apply list_elem_of_In, list_elem_of_fmap. exists (k, pv).
  split; [| apply list_elem_of_In, Hin1].
  cbn. rewrite bool_decide_eq_false_2 by exact Hk. reflexivity.
Qed.

(** ** The session gate and the status endpoint *)

Lemma answers_ret {A} (P : A -> Prop) (a : A) : P a -> answers P (ret a).
Proof. intros H w a' w' [= <- <-]. exact H. Qed.

Lemma answers_throw {A} (P : A -> Prop) (e : jsstring) : answers P (throw e).
Proof. intros w a w' [=]. Qed.

Lemma answers_bind {A B} (P : B -> Prop) (m : M A) (k : A -> M B) :
  (forall a, answers P (k a)) -> answers P (bind m k).
Proof.
  intros Hk w b w'. unfold bind. destruct (m w) as [[a|e] w1]; [apply Hk | discriminate].
Qed.

Ltac answers :=
  repeat first
    [ apply answers_ret; discriminate
    | apply answers_throw
    | apply answers_bind; intros ?
    | match goal with
      | |- answers _ (if ?b then _ else _) => destruct b
      | |- answers _ (match ?x with _ => _ end) => destruct x
      end ].

Lemma handle_answers (P : response -> Prop) (body : M response) where_ failure w :
  answers P body -> P (res_status_json 500 failure) ->
  P (fst (handle body where_ failure w)).
Proof.
  intros Hb Hf. unfold handle. destruct (body w) as [[r|e] w1] eqn:E; cbn [fst].
  - eapply Hb, E.
  - exact Hf.
Qed.

Lemma handlers_not_401 (Date_parse : jsstring -> option Z) (env : Env) (req : Request)
    (w : World) :
  not_401 (fst (Session.post_events Date_parse env req w))
  /\ not_401 (fst (Session.put_event Date_parse env req w))
  /\ not_401 (fst (Session.delete_event env req w))
  /\ not_401 (fst (Session.delete_event_image env req w)).
Proof.
  repeat split.
  - unfold Session.post_events. apply handle_answers; [answers | discriminate].
  - unfold Session.put_event.
    destruct (negb (truthy_str (params_id req))); [discriminate |].
    match goal with |- context [if ?b then _ else _] => destruct b end; [discriminate |].
    apply handle_answers; [answers | discriminate].
  - unfold Session.delete_event.
    destruct (negb (truthy_str (params_id req))); [discriminate |].
    apply handle_answers; [answers | discriminate].
  - unfold Session.delete_event_image.
    destruct (negb (truthy_str (params_id req))); [discriminate |].
    apply handle_answers; [answers | discriminate].
Qed.

Lemma route_401 (Date_parse : jsstring -> option Z) (m : Session.mutation) (env : Env)
    (req : Request) (w : World) :
  (exists r, fst (Session.route Date_parse m env req w) = Ok r /\ status r = 401%Z)
  <-> authenticated req = false.
Proof.
  unfold Session.route, Session.isAuthenticated, authenticated.
  destruct (handlers_not_401 Date_parse env req w) as (H1 & H2 & H3 & H4).
  destruct (req_session req) as [s|]; [| split; [reflexivity | intros _; eexists; split; reflexivity]].
  destruct (isAuthenticated s); [| split; [reflexivity | intros _; eexists; split; reflexivity]].
  split; [| discriminate]. intros (r & Hr & Hs). exfalso.
  destruct m; unfold Session.with_multer, Session.without_multer in Hr.
  - destruct (multer_single req) as [req'|] eqn:Hm; [| discriminate Hr].
    apply multer_single_same in Hm. subst req'.
    destruct (Session.post_events Date_parse env req w) as [r0 w0].
    injection Hr as ->. exact (H1 Hs).
  - destruct (multer_single req) as [req'|] eqn:Hm; [| discriminate Hr].
    apply multer_single_same in Hm. subst req'.
    destruct (Session.put_event Date_parse env req w) as [r0 w0].
    injection Hr as ->. exact (H2 Hs).
  - destruct (Session.delete_event env req w) as [r0 w0].
    injection Hr as ->. exact (H3 Hs).
  - destruct (Session.delete_event_image env req w) as [r0 w0].
    injection Hr as ->. exact (H4 Hs).
Qed.

(** X22.  The status endpoint and the gate of the mutating routes agree:
    the endpoint answers 200 with [loggedIn] true, and the user of the
    session, exactly for the requests with an authenticated session, and
    with [loggedIn] false for the others, without touching the stores;
    and a mutating route answers 401 exactly for the requests without an
    authenticated session, no handler behind the gate ever answering
    401. *)
Theorem auth_status_agrees_with_gate :
  forall (Date_parse : jsstring -> option Z) (m : Session.mutation) (env : Env)
         (req : Request) (w w0 : World),
    (exists body,
       fst (Session.auth_status req w0) = Ok (Response 200 body)
       /\ prop (Some body) (js "loggedIn") = Some (JBool (authenticated req))
       /\ prop (Some body) (js "user")
          = (if authenticated req then req_session req ≫= user else None))
    /\ events (snd (Session.auth_status req w0)) = events w0
    /\ sessions (snd (Session.auth_status req w0)) = sessions w0
    /\ issued (snd (Session.auth_status req w0)) = issued w0
    /\ ((exists r, fst (Session.route Date_parse m env req w) = Ok r /\ status r = 401%Z)
        <-> authenticated req = false).
Proof.
  intros Date_parse m env req w w0.
  split; [| split; [| split; [| split; [| apply route_401]]]];
    unfold Session.auth_status, authenticated;
    destruct (req_session req) as [[[] [u|]]|]; cbn; try reflexivity;
    eexists; (split; [reflexivity |]); split; reflexivity.
Qed.

(** * Further properties of the import script *)

Lemma Forall_removelast {A} (P : A -> Prop) (l : list A) :
  Forall P l -> Forall P (removelast l).
Proof.
  induction 1 as [|x l Hx Hl IH]; [constructor |].
  cbn [removelast]. destruct l; [constructor | constructor; assumption].
Qed.

Section ImportRows.

Variable Date_UTC : Z -> Z -> Z -> option Z.
Variable Date_parse : jsstring -> option Z.
Variable commit_error : nat -> option jsstring.
Variable headers : list jsstring.

Lemma import_rows_run (dataRows : list (list Sheets.cell)) :
  forall (p : Migrate.progress) (E : list (list (jsstring * pvalue))),
    concat (Migrate.committed p) ++ Migrate.batch p = E ->
    Migrate.batchCounter p = length (Migrate.batch p) ->
    (length (Migrate.batch p) < 400)%nat ->
    Forall full_batch (Migrate.committed p) ->
    Migrate.writeCounter p = length E ->
    match Migrate.import_rows Date_UTC Date_parse commit_error headers p dataRows with
    | (p', None) =>
        concat (Migrate.committed p') ++ Migrate.batch p'
        = E ++ eventObjects Date_UTC Date_parse headers dataRows
        /\ Migrate.batchCounter p' = length (Migrate.batch p')
        /\ (length (Migrate.batch p') < 400)%nat
        /\ Forall full_batch (Migrate.committed p')
        /\ Migrate.writeCounter p'
           = length (E ++ eventObjects Date_UTC Date_parse headers dataRows)
    | (p', Some _) =>
        Forall full_batch (Migrate.committed p')
        /\ concat (Migrate.committed p')
             `prefix_of` E ++ eventObjects Date_UTC Date_parse headers dataRows
        /\ (length (concat (Migrate.committed p')) <= Migrate.writeCounter p')%nat
    end.
Proof.
  induction dataRows as [|row rest IH]; intros p E HE Hc Hlt Hfull Hw.
  - cbn [Migrate.import_rows eventObjects]. rewrite app_nil_r. auto.
  - cbn [Migrate.import_rows eventObjects]. unfold Migrate.import_row.
    destruct (Migrate.blank_row row); [apply IH; assumption |].
    destruct (Migrate.row_fields Date_UTC Date_parse row headers 0)
      as [[fields [|]]|e].
    + set (eventObject := fields ++ [(js "createdAt", PServerTimestamp)]).
      cbn [Migrate.batchCounter].
      destruct (Migrate.batchSize <=? S (Migrate.batchCounter p))%nat eqn:Hsize.
      * apply Nat.leb_le in Hsize. unfold Migrate.batchSize in Hsize.
        assert (Hlen : length (Migrate.batch p ++ [eventObject]) = 400%nat).
        { rewrite length_app. cbn [length]. lia. }
        unfold Migrate.commit. cbn [Migrate.committed Migrate.batch Migrate.writeCounter].
        destruct (commit_error _).
        -- cbn [Migrate.committed Migrate.writeCounter]. split; [exact Hfull |]. split.
           ++ exists (Migrate.batch p ++ eventObject
                        :: eventObjects Date_UTC Date_parse headers rest).
              rewrite <- HE, <- app_assoc. reflexivity.
           ++ rewrite Hw, <- HE, length_app. lia.
        -- replace (E ++ eventObject :: eventObjects Date_UTC Date_parse headers rest)
             with ((E ++ [eventObject]) ++ eventObjects Date_UTC Date_parse headers rest)
             by (rewrite <- app_assoc; reflexivity).
           apply IH; cbn [Migrate.committed Migrate.batch Migrate.writeCounter
                          Migrate.batchCounter length].
           ++ rewrite concat_app. cbn [concat]. rewrite !app_nil_r, <- HE, app_assoc.
              reflexivity.
           ++ reflexivity.
           ++ lia.
           ++ apply Forall_app. split; [exact Hfull |]. constructor; [exact Hlen | constructor].
           ++ rewrite length_app. cbn [length]. lia.
      * apply Nat.leb_gt in Hsize. unfold Migrate.batchSize in Hsize.
        replace (E ++ eventObject :: eventObjects Date_UTC Date_parse headers rest)
          with ((E ++ [eventObject]) ++ eventObjects Date_UTC Date_parse headers rest)
          by (rewrite <- app_assoc; reflexivity).
        apply IH; cbn [Migrate.committed Migrate.batch Migrate.writeCounter
                       Migrate.batchCounter].
        -- rewrite <- HE, !app_assoc. reflexivity.
        -- rewrite length_app. cbn [length]. lia.
        -- rewrite length_app. cbn [length]. lia.
        -- exact Hfull.
        -- rewrite length_app. cbn [length]. lia.
    + apply IH; assumption.
    + rewrite app_nil_r. split; [exact Hfull |]. split.
      * exists (Migrate.batch p). symmetry. exact HE.
      * rewrite Hw, <- HE, length_app. lia.
Qed.

End ImportRows.

Lemma importData_run (Date_UTC : Z -> Z -> Z -> option Z)
    (Date_parse : jsstring -> option Z) (commit_error : nat -> option jsstring)
    (rows : list (list Sheets.cell)) :
  let '(batches, written, failure) :=
    Migrate.importData Date_UTC Date_parse commit_error (Ok (Some rows)) in
  let expected :=
    eventObjects Date_UTC Date_parse (import_headers rows) (drop 1 rows) in
  concat batches `prefix_of` expected
  /\ Forall (fun b => (0 < length b <= 400)%nat) batches
  /\ Forall full_batch (removelast batches)
  /\ (length (concat batches) <= written)%nat
  /\ (failure = None -> concat batches = expected /\ written = length expected)
  /\ (failure <> None -> Forall full_batch batches).
Proof.
  unfold Migrate.importData, Migrate.HEADER_ROW.
  destruct (length rows <=? 1)%nat eqn:Hrows.
  { apply Nat.leb_le in Hrows.
    assert (Hd : drop 1 rows = []).
    { destruct rows as [|h [|r rest]]; [reflexivity | reflexivity | cbn in Hrows; lia]. }
    cbv zeta. rewrite Hd. cbn [eventObjects concat removelast length].
    repeat split; try constructor; try reflexivity. }
  change (1 - 1)%nat with 0%nat. fold (import_headers rows).
  assert (Hsub : forall l : list (list (list (jsstring * pvalue))),
             Forall full_batch l ->
             Forall (fun b => (0 < length b <= 400)%nat) l).
  { intros l Hl. eapply Forall_impl; [exact Hl |].
    intros b Hb. unfold full_batch in Hb. lia. }
  pose proof (import_rows_run Date_UTC Date_parse commit_error (import_headers rows)
                (drop 1 rows)
                {| Migrate.batch := []; Migrate.writeCounter := 0;
                   Migrate.batchCounter := 0; Migrate.committed := [] |}
                [] eq_refl eq_refl ltac:(cbn; lia) ltac:(constructor) eq_refl) as H.
  cbn [app] in H.
  destruct (Migrate.import_rows _ _ _ _ _ _) as [p [e|]].
  - destruct H as (Hfull & Hpre & Hlen). cbv zeta.
    split; [exact Hpre |]. split; [apply Hsub, Hfull |].
    split; [apply Forall_removelast, Hfull |]. split; [exact Hlen |].
    split; [discriminate | intros _; exact Hfull].
  - destruct H as (HE & Hc & Hlt & Hfull & Hw).
    destruct (0 <? Migrate.batchCounter p)%nat eqn:Hpos.
    + apply Nat.ltb_lt in Hpos. unfold Migrate.commit.
      destruct (commit_error _); cbn [Migrate.committed Migrate.writeCounter]; cbv zeta.
      * split; [exists (Migrate.batch p); symmetry; exact HE |].
        split; [apply Hsub, Hfull |]. split; [apply Forall_removelast, Hfull |].
        split; [rewrite Hw, <- HE, length_app; lia |].
        split; [discriminate | intros _; exact Hfull].
      * rewrite concat_app. cbn [concat]. rewrite app_nil_r, HE.
        split; [reflexivity |]. split.
        { apply Forall_app. split; [apply Hsub, Hfull |].
          constructor; [lia | constructor]. }
        split; [rewrite removelast_last; exact Hfull |].
        split; [rewrite Hw; lia |].
        split; [auto | intros H; contradiction].
    + apply Nat.ltb_ge in Hpos.
      assert (Hb : Migrate.batch p = []).
      { destruct (Migrate.batch p); [reflexivity | cbn in Hc; lia]. }
      rewrite Hb, app_nil_r in HE. cbv zeta. rewrite HE.
      split; [reflexivity |]. split; [apply Hsub, Hfull |].
      split; [apply Forall_removelast, Hfull |]. split; [rewrite Hw; lia |].
      split; [auto | intros H; contradiction].
Qed.

(** ** Which rows are imported *)

Lemma blank_row_empty (row : list Sheets.cell) :
  Migrate.blank_row row = true <-> Forall empty_cell row.
Proof.
  unfold Migrate.blank_row. induction row as [|c row IH]; cbn [forallb].
  - split; [constructor | reflexivity].
  - rewrite andb_true_iff, IH, Forall_cons. apply and_iff_compat_r.
    destruct c as [s|]; cbn [empty_cell]; [| tauto].
    destruct (trim s); cbn; split; congruence.
Qed.

Lemma sheetValue_at_cell_text (row : list Sheets.cell) (index : nat) :
  Migrate.sheetValue_at row index = cell_text row index.
Proof.
  unfold Migrate.sheetValue_at, cell_text.
  destruct (row !! index) as [[s|]|]; reflexivity.
Qed.

Lemma field_of_own (header : jsstring) (f : Migrate.mapping) :
  Migrate.field_of header = Some f ->
  (exists name, f = Migrate.Field name /\ In (header, name) Migrate.fieldMapping)
  \/ (exists key, f = Migrate.Inherited key
                  /\ In (header, key) Migrate.Object_prototype
                  /\ forall name, ~ In (header, name) Migrate.fieldMapping).
Proof.
  unfold Migrate.field_of.
  destruct (List.find _ Migrate.fieldMapping) as [[h name]|] eqn:Hown.
  - intros [= <-]. left. exists name. split; [reflexivity |].
    apply find_some in Hown as [Hin Hh]. apply bool_decide_eq_true in Hh.
    cbn [fst] in Hh. subst h. exact Hin.
  - destruct (List.find _ Migrate.Object_prototype) as [[h key]|] eqn:Hproto;
      [| discriminate].
    intros [= <-]. right. exists key. split; [reflexivity |].
    apply find_some in Hproto as [Hin Hh]. apply bool_decide_eq_true in Hh.
    cbn [fst] in Hh. subst h. split; [exact Hin |].
    intros name Hn. apply (find_none _ _ Hown) in Hn.
    apply bool_decide_eq_false in Hn. apply Hn. reflexivity.
Qed.

Ltac each_entry H :=
  cbn in H; repeat (destruct H as [H | H]; [injection H as <- <- |]);
  try destruct H.

Lemma field_of_date (header : jsstring) (f : Migrate.mapping) :
  Migrate.field_of header = Some f ->
  (Migrate.strict_eq_mapping f (js "eventDate") = true
   <-> header = js "Wann findet der Event statt?")
  /\ (Migrate.strict_eq_mapping f (js "title") = true
      <-> header = js "Event Titel")
  /\ Migrate.truthy_mapping f = true
  /\ Migrate.property_key f <> js "createdAt"
  /\ (Migrate.strict_eq_mapping f (js "eventDate") = true
      <-> Migrate.property_key f = js "eventDate").
Proof.
  intros [(name & -> & Hin) | (key & -> & Hin & Hown)]%field_of_own.
  - each_entry Hin;
      (split; [split; [intros H; try discriminate H; vm_compute in H; try discriminate H;
                       reflexivity
                      | intros H; try discriminate H; reflexivity] |]);
      (split; [split; [intros H; try discriminate H; vm_compute in H; try discriminate H;
                       reflexivity
                      | intros H; try discriminate H; reflexivity] |]);
      (split; [reflexivity |]); (split; [discriminate |]);
      (split; [intros H; try (vm_compute in H; discriminate H); reflexivity
              | intros H; try discriminate H; reflexivity]).
  - cbn [Migrate.strict_eq_mapping Migrate.truthy_mapping Migrate.property_key].
    split; [split; [discriminate |] |].
    { intros ->. exfalso. apply (Hown (js "eventDate")). cbn. tauto. }
    split; [split; [discriminate |] |].
    { intros ->. exfalso. apply (Hown (js "title")). cbn. tauto. }
    split; [reflexivity |].
    each_entry Hin; (split; [discriminate |]); split; discriminate.
Qed.

Section RequiredData.

Variable Date_UTC : Z -> Z -> Z -> option Z.
Variable Date_parse : jsstring -> option Z.
Variable row : list Sheets.cell.

Lemma parseSheetDate_returns (s : jsstring) :
  exists r, Migrate.parseSheetDate Date_UTC Date_parse s = Return r
            /\ call None (Migrate.parseSheetDate Date_UTC Date_parse s) = Ok r.
Proof.
  unfold Migrate.parseSheetDate, Migrate.utc_date.
  repeat first
    [ match goal with
      | |- context [match ?x with _ => _ end] => destruct x
      | |- context [if ?x then _ else _] => destruct x
      end; cbn [then_ negb]
    | eexists; split; reflexivity ].
Qed.

Lemma row_fields_required (headers : list jsstring) :
  forall (index : nat) (fields : list (jsstring * pvalue)) (has : bool),
    Migrate.row_fields Date_UTC Date_parse row headers index = Ok (fields, has) ->
    has = true
    <-> exists j,
          (index + j < length row)%nat
          /\ ((headers !! j = Some (js "Event Titel")
               /\ cell_text row (index + j) <> [])
              \/ (headers !! j = Some (js "Wann findet der Event statt?")
                  /\ exists t,
                       Migrate.parseSheetDate Date_UTC Date_parse
                         (cell_text row (index + j))
                       = Return (Some t))).
Proof.
  induction headers as [|header rest IH]; intros index fields has H.
  - injection H as _ <-. split; [discriminate |].
    intros (j & _ & [[Hj _] | [Hj _]]); discriminate Hj.
  - cbn [Migrate.row_fields] in H.
    destruct (Migrate.row_fields Date_UTC Date_parse row rest (S index))
      as [[entries h]|e] eqn:Hrest.
    2:{ destruct (Migrate.field_of header); [| discriminate H].
        destruct (_ && _); [| discriminate H].
        destruct (Migrate.strict_eq_mapping _ _); [| discriminate H].
        destruct (call None _) as [[t|]|]; try discriminate H.
        destruct (Timestamp_fromDate _); discriminate H. }
    specialize (IH _ _ _ Hrest).
    assert (Hshift : forall here : Prop,
               (here <-> (index + 0 < length row)%nat
                         /\ ((Some header = Some (js "Event Titel")
                              /\ cell_text row (index + 0) <> [])
                             \/ (Some header = Some (js "Wann findet der Event statt?")
                                 /\ exists t,
                                      Migrate.parseSheetDate Date_UTC Date_parse
                                        (cell_text row (index + 0))
                                      = Return (Some t)))) ->
               forall b, (b = true <-> here) ->
               (b || h = true
                <-> exists j,
                      (index + j < length row)%nat
                      /\ (((header :: rest) !! j = Some (js "Event Titel")
                           /\ cell_text row (index + j) <> [])
                          \/ ((header :: rest) !! j
                              = Some (js "Wann findet der Event statt?")
                              /\ exists t,
                                   Migrate.parseSheetDate Date_UTC Date_parse
                                     (cell_text row (index + j))
                                   = Return (Some t))))).
    { intros here Hhere b Hb. rewrite orb_true_iff, Hb, IH, Hhere. split.
      - intros [H0 | (j & Hj & Hcase)].
        + exists 0%nat. exact H0.
        + exists (S j). replace (index + S j)%nat with (S index + j)%nat by lia.
          split; [exact Hj | exact Hcase].
      - intros ([|j] & Hj & Hcase).
        + left. split; [exact Hj | exact Hcase].
        + right. exists j. replace (S index + j)%nat with (index + S j)%nat by lia.
          split; [exact Hj | exact Hcase]. }
    replace (index + 0)%nat with index in Hshift by lia.
    destruct (Migrate.field_of header) as [f|] eqn:Hf.
    2:{ injection H as _ <-. refine (Hshift False _ false ltac:(split; [discriminate | tauto])).
        split; [tauto |]. intros (_ & [[[= ->] _] | [[= ->] _]]); discriminate Hf. }
    destruct (field_of_date _ _ Hf) as (Hdate & Htitle & Htruthy & _ & _).
    rewrite Htruthy in H. cbn [andb] in H.
    destruct (index <? length row)%nat eqn:Hlen.
    2:{ injection H as _ <-. apply Nat.ltb_ge in Hlen.
        refine (Hshift False _ false ltac:(split; [discriminate | tauto])).
        split; [tauto |]. intros (Hlt & _). lia. }
    apply Nat.ltb_lt in Hlen. rewrite sheetValue_at_cell_text in H.
    destruct (Migrate.strict_eq_mapping f (js "eventDate")) eqn:Hd.
    + pose proof (proj1 Hdate eq_refl) as ->.
      destruct (parseSheetDate_returns (cell_text row index)) as (r & Hret & Hcall).
      rewrite Hcall in H. destruct r as [t|].
      * destruct (Timestamp_fromDate (Some t)); [| discriminate H].
        injection H as _ <-.
        refine (Hshift True _ true ltac:(tauto)).
        split; [| tauto]. intros _. split; [exact Hlen |]. right.
        split; [reflexivity |]. exists t. exact Hret.
      * injection H as _ <-.
        refine (Hshift False _ false ltac:(split; [discriminate | tauto])).
        split; [tauto |]. intros (_ & [[Hh _] | [_ (t & Ht)]]).
        -- discriminate Hh.
        -- rewrite Hret in Ht. discriminate Ht.
    + injection H as _ <-.
      refine (Hshift (header = js "Event Titel" /\ cell_text row index <> []) _
                (Migrate.strict_eq_mapping f (js "title")
                 && truthy_str (cell_text row index)) _).
      * split.
        -- intros [-> Hne]. split; [exact Hlen |]. left. split; [reflexivity | exact Hne].
        -- intros (_ & [[[= ->] Hne] | [[= ->] _]]); [split; [reflexivity | exact Hne] |].
           pose proof (proj2 Hdate eq_refl) as Hd'. congruence.
      * rewrite andb_true_iff, Htitle.
        apply and_iff_compat_l. destruct (cell_text row index); cbn; split; congruence.
Qed.

End RequiredData.

(** X23.  The import script takes the rows that are not blank (a blank
    row holds only empty cells) and hold, under the header of the title,
    a text, or under the header of the date, a date it can read; it
    writes their records in the order of the sheet.  It commits them in
    batches of 400 with one smaller batch at the end and never an empty
    one.  When a commit fails or a date cannot be stored the import
    stops, and what is stored by then are the first records in whole
    batches of 400, none is taken back. *)
Theorem import_batches :
  forall (Date_UTC : Z -> Z -> Z -> option Z) (Date_parse : jsstring -> option Z)
         (commit_error : nat -> option jsstring) (rows : list (list Sheets.cell)),
    (let '(batches, written, failure) :=
       Migrate.importData Date_UTC Date_parse commit_error (Ok (Some rows)) in
     let expected :=
       eventObjects Date_UTC Date_parse (import_headers rows) (drop 1 rows) in
     concat batches `prefix_of` expected
     /\ Forall (fun b => (0 < length b <= 400)%nat) batches
     /\ Forall full_batch (removelast batches)
     /\ (length (concat batches) <= written)%nat
     /\ (failure = None -> concat batches = expected /\ written = length expected)
     /\ (failure <> None -> Forall full_batch batches))
    /\ (forall row, Migrate.blank_row row = true <-> Forall empty_cell row)
    /\ (forall row fields has,
          Migrate.row_fields Date_UTC Date_parse row (import_headers rows) 0
          = Ok (fields, has) ->
          has = true
          <-> holds_title (import_headers rows) row
              \/ holds_date Date_UTC Date_parse (import_headers rows) row).
Proof.
  intros Date_UTC Date_parse commit_error rows.
  split; [exact (importData_run Date_UTC Date_parse commit_error rows) |].
  split; [exact blank_row_empty |].
  intros row fields has H.
  rewrite (row_fields_required Date_UTC Date_parse row _ _ _ _ H).
  unfold holds_title, holds_date. cbn [Nat.add]. split.
  - intros (j & Hj & [[Hh Hc] | [Hh (t & Ht)]]).
    + left. exists j. auto.
    + right. exists j, t. auto.
  - intros [(j & Hh & Hj & Hc) | (j & t & Hh & Hj & Ht)].
    + exists j. split; [exact Hj |]. left. auto.
    + exists j. split; [exact Hj |]. right. split; [exact Hh |]. exists t. exact Ht.
Qed.

(** ** What the import script stores *)

Lemma row_fields_entries (Date_UTC : Z -> Z -> Z -> option Z)
    (Date_parse : jsstring -> option Z) (row : list Sheets.cell)
    (headers : list jsstring) :
  forall index fields has,
    Migrate.row_fields Date_UTC Date_parse row headers index = Ok (fields, has) ->
    Forall import_entry fields.
Proof.
  induction headers as [|header rest IH]; intros index fields has H.
  - injection H as <- _. constructor.
  - cbn [Migrate.row_fields] in H.
    destruct (Migrate.row_fields Date_UTC Date_parse row rest (S index))
      as [[entries h]|e] eqn:Hrest.
    2:{ destruct (Migrate.field_of header); [| discriminate H].
        destruct (_ && _); [| discriminate H].
        destruct (Migrate.strict_eq_mapping _ _); [| discriminate H].
        destruct (call None _) as [[t|]|]; try discriminate H.
        destruct (Timestamp_fromDate _); discriminate H. }
    specialize (IH _ _ _ Hrest).
    destruct (Migrate.field_of header) as [f|] eqn:Hf.
    2:{ injection H as <- _. exact IH. }
    destruct (field_of_date _ _ Hf) as (_ & _ & _ & Hc & Hkey).
    destruct (_ && _).
    2:{ injection H as <- _. exact IH. }
    destruct (Migrate.strict_eq_mapping f (js "eventDate")) eqn:Hd.
    + pose proof (proj1 Hkey eq_refl) as Hk.
      destruct (call None _) as [[t|]|]; try discriminate H.
      * destruct (Timestamp_fromDate (Some t)) as [ts|] eqn:Hts; [| discriminate H].
        injection H as <- _. constructor; [| exact IH].
        unfold Timestamp_fromDate in Hts.
        destruct (_ || _); [discriminate Hts |]. injection Hts as <-.
        split; [exact Hc | exact Hk].
      * injection H as <- _. constructor; [| exact IH]. split; [exact Hc | exact Hk].
    + injection H as <- _. constructor; [| exact IH]. split; [exact Hc |].
      cbn [fst snd]. intros Hk. apply Hkey in Hk. discriminate Hk.
Qed.

Lemma eventObjects_payloads (Date_UTC : Z -> Z -> Z -> option Z)
    (Date_parse : jsstring -> option Z) (headers : list jsstring)
    (dataRows : list (list Sheets.cell)) (payload : list (jsstring * pvalue)) :
  In payload (eventObjects Date_UTC Date_parse headers dataRows) ->
  exists fields,
    payload = fields ++ [(js "createdAt", PServerTimestamp)]
    /\ Forall import_entry fields.
Proof.
  induction dataRows as [|row rest IH]; cbn [eventObjects]; [intros [] |].
  destruct (Migrate.blank_row row); [exact IH |].
  destruct (Migrate.row_fields Date_UTC Date_parse row headers 0)
    as [[fields [|]]|e] eqn:Hrow; [| exact IH | intros []].
  intros [<- | Hin]; [| exact (IH Hin)].
  exists fields. split; [reflexivity |]. exact (row_fields_entries _ _ _ _ _ _ _ Hrow).
Qed.

Lemma import_entries_written (env : Env) (fields : list (jsstring * pvalue)) :
  Forall import_entry fields ->
  forall doc,
    listable_doc doc = true ->
    exists doc', write_fields env doc fields = Ok doc' /\ listable_doc doc' = true.
Proof.
  unfold write_fields.
  induction 1 as [|[k v] l Hkv _ IH]; intros doc Hdoc; [exists doc; auto |].
  cbn [fold_left]. unfold write_field at 2. cbn [fst snd].
  destruct Hkv as [Hc Hv]. cbn [fst snd] in Hc, Hv.
  assert (Hins : forall x : fvalue,
             (k = js "eventDate" -> date_field_ok (Some x) = true) ->
             listable_doc (<[k := x]> doc) = true).
  { intros x Hx. unfold listable_doc in *. apply andb_true_iff in Hdoc as [H1 H2].
    rewrite (lookup_insert_ne doc k (js "createdAt")) by exact Hc.
    rewrite H2, andb_true_r.
    destruct (decide (k = js "eventDate")) as [->|Hne].
    - rewrite lookup_insert_eq. apply Hx. reflexivity.
    - rewrite lookup_insert_ne by exact Hne. exact H1. }
  destruct v as [|[j|s n]| |]; try contradiction.
  - destruct j; try contradiction.
    + apply IH, Hins. reflexivity.
    + apply IH, Hins. intros ->. contradiction.
  - apply IH, Hins. reflexivity.
Qed.

Lemma imported_record_run (Date_UTC : Z -> Z -> Z -> option Z)
    (Date_parse : jsstring -> option Z) (headers : list jsstring)
    (dataRows : list (list Sheets.cell)) (env : Env)
    (payload : list (jsstring * pvalue)) :
  In payload (eventObjects Date_UTC Date_parse headers dataRows) ->
  exists doc,
    write_fields env ∅ payload = Ok doc
    /\ listable_doc doc = true
    /\ doc !! js "createdAt" = Some (server_timestamp env).
Proof.
  intros (fields & -> & Hf)%eventObjects_payloads.
  assert (He : listable_doc ∅ = true).
  { unfold listable_doc. rewrite !lookup_empty. reflexivity. }
  destruct (import_entries_written env fields Hf ∅ He) as (doc & Hw & Hl).
  exists (<[js "createdAt" := server_timestamp env]> doc).
  unfold write_fields in *. rewrite fold_left_app, Hw. cbn [fold_left].
  unfold write_field. cbn [fst snd]. split; [reflexivity |]. split.
  - unfold listable_doc in *. apply andb_true_iff in Hl as [H1 _].
    rewrite lookup_insert_ne by discriminate. rewrite H1, lookup_insert_eq. reflexivity.
  - apply lookup_insert_eq.
Qed.

(** X24.  Every record the import script commits is accepted by the
    store, holds the time of the server as its creation time, and has
    date fields the event list of the server can read: a date that is a
    [Timestamp] or [null].  So no imported record makes the list fail,
    whatever the headers of the sheet are. *)
Theorem imported_records_listable :
  forall (Date_UTC : Z -> Z -> Z -> option Z) (Date_parse : jsstring -> option Z)
         (commit_error : nat -> option jsstring) (rows : list (list Sheets.cell))
         (env : Env) (payload : list (jsstring * pvalue)),
    In payload
       (concat (fst (fst (Migrate.importData Date_UTC Date_parse commit_error
                            (Ok (Some rows)))))) ->
    exists doc,
      write_fields env ∅ payload = Ok doc
      /\ listable_doc doc = true
      /\ doc !! js "createdAt" = Some (server_timestamp env)
      /\ forall (toISOString : Z -> jsstring) (id : jsstring),
           status (Firestore.get_events toISOString (Ok [(id, doc)])) = 200%Z.
Proof.
  intros Date_UTC Date_parse commit_error rows env payload Hin.
  pose proof (importData_run Date_UTC Date_parse commit_error rows) as H.
  destruct (Migrate.importData _ _ _ _) as [[batches written] failure].
  cbv zeta in H. destruct H as ([rest Hpre] & _). cbn [fst] in Hin.
  destruct (imported_record_run Date_UTC Date_parse (import_headers rows)
              (drop 1 rows) env payload) as (doc & Hw & Hl & Hc).
  { rewrite Hpre. apply in_or_app. left. exact Hin. }
  exists doc. split; [exact Hw |]. split; [exact Hl |]. split; [exact Hc |].
  intros toISOString id.
  destruct (proj1 (get_events_run toISOString [(id, doc)])) as (items & -> & _).
  - constructor; [exact Hl | constructor].
  - reflexivity.
Qed.

(** A column headed [constructor] adds a field to the record, under the
    source text of the function; the record is accepted and read all the
    same. *)
Lemma imported_records_listable_witness :
  exists doc,
    write_fields (quiet_env 5 [])
      ∅ [(js "title", PVal (VJson (JStr (js "Sommerfest"))));
         (js "function Object() { [native code] }", PVal (VJson (JStr (js "x"))));
         (js "createdAt", PServerTimestamp)]
    = Ok doc
    /\ listable_doc doc = true
    /\ doc !! js "createdAt" = Some (server_timestamp (quiet_env 5 []))
    /\ forall (toISOString : Z -> jsstring) (id : jsstring),
         status (Firestore.get_events toISOString (Ok [(id, doc)])) = 200%Z.
Proof.
  apply (imported_records_listable sample_Date_UTC (fun _ => None) (fun _ => None)
           example_import_constructor).
  vm_compute. left. reflexivity.
Defined.

(** ** The dates of the import script *)

(** X25.  For a text in one of the three numeric forms the import script
    takes the date that [Date.UTC] makes of the three numbers.  It tests
    no range: a day or a month that does not exist is carried over to a
    later date and not refused. *)
Theorem parseSheetDate_numeric_forms :
  forall (Date_UTC : Z -> Z -> Z -> option Z) (Date_parse : jsstring -> option Z)
         (D M Y : jsstring) (t : Z),
    digit_text 1 2 D -> digit_text 1 2 M -> digit_text 4 4 Y ->
    Date_UTC (Migrate.Number_of_digits Y) (Migrate.Number_of_digits M - 1)%Z
      (Migrate.Number_of_digits D) = Some t ->
    Migrate.parseSheetDate Date_UTC Date_parse (D ++ [46] ++ M ++ [46] ++ Y)
    = Return (Some t)
    /\ Migrate.parseSheetDate Date_UTC Date_parse (Y ++ [45] ++ M ++ [45] ++ D)
       = Return (Some t)
    /\ Migrate.parseSheetDate Date_UTC Date_parse (M ++ [47] ++ D ++ [47] ++ Y)
       = Return (Some t).
Proof.
  intros Date_UTC Date_parse D M Y t HD HM HY Ht.
  unfold Migrate.parseSheetDate. repeat split.
  - rewrite (digit_text_truthy 0 2 D) by assumption.
    rewrite trim_dmy by assumption.
    rewrite (digit_text_truthy 0 2 D) by assumption.
    rewrite match_dmy by assumption.
    cbn [negb then_ group nth]. unfold Migrate.utc_date. rewrite Ht. reflexivity.
  - rewrite (digit_text_truthy 3 4 Y) by assumption.
    rewrite trim_ymd by assumption.
    rewrite (digit_text_truthy 3 4 Y) by assumption.
    rewrite nomatch_ymd_dmy, match_ymd by assumption.
    cbn [negb then_ group nth]. unfold Migrate.utc_date. rewrite Ht. reflexivity.
  - rewrite (digit_text_truthy 0 2 M) by assumption.
    rewrite trim_mdy by assumption.
    rewrite (digit_text_truthy 0 2 M) by assumption.
    rewrite nomatch_mdy_dmy, nomatch_mdy_ymd, match_mdy by assumption.
    cbn [negb then_ group nth]. unfold Migrate.utc_date. rewrite Ht. reflexivity.
Qed.

(** The day 99 of the month 99 of 2025 is read as 7 June 2033. *)
Lemma parseSheetDate_numeric_forms_witness :
  Migrate.parseSheetDate sample_Date_UTC (fun _ => None) (js "99.99.2025")
  = Return (Some 2001715200000%Z)
  /\ Migrate.parseSheetDate sample_Date_UTC (fun _ => None) (js "2025-99-99")
     = Return (Some 2001715200000%Z)
  /\ Migrate.parseSheetDate sample_Date_UTC (fun _ => None) (js "99/99/2025")
     = Return (Some 2001715200000%Z).
Proof.
  apply (parseSheetDate_numeric_forms sample_Date_UTC (fun _ => None)
           (js "99") (js "99") (js "2025") 2001715200000%Z).
  - split; [cbn; lia | reflexivity].
  - split; [cbn; lia | reflexivity].
  - split; [cbn; lia | reflexivity].
  - vm_compute. reflexivity.
Defined.
